(** * Counter bot (src/index.js): configuration store, codec, evaluator,
      provisioning and reconciliation

    A shallow embedding of the bot's handlers.  The program is a single
    JavaScript file that keeps one process-wide [Map] ([counterConfigs]),
    talks to the chat platform through the gateway client, and persists the
    map to [config.json].

    Modelling conventions.
    - JavaScript values that travel through [config.json] are values of
      [JSON]; an object is the list of its own properties, each key
      once, in the order of their creation, and [JS.ownOrder] is the order
      in which they are visited.  Numbers are integers, printed in
      decimal.
      [JSON.parse (JSON.stringify v)] is taken to be [v]: the two differ
      in the order of creation of the properties only, which is the order
      of visit of [v], and visiting in that order again changes nothing
      ([ownOrder_idempotent]).
    - A [Map] (the store, a channel cache) is the list of its entries in
      insertion order, with the operations of [JSMap].
    - Every [await]ed call to the platform or the file system is a
      [Request]; the [Platform] decides, from the calls issued so far,
      whether it is accepted.  A rejected call throws.  All calls are
      recorded in [history].  A write that is rejected leaves config.json
      untouched, truncated or complete, as the [Platform] decides.
    - An [async] function is a state transformer over [Bot] that completes
      normally or throws ([Async]); handlers run to completion, the
      interleaving of handlers at [await] points is not modelled.
    - The caches of the gateway client are part of [Bot].  A guild object
      is referred to by its identifier: [guild s id] is the object, and
      [guildsCache] lists the identifiers that [client.guilds.cache]
      holds.  An accepted creation, renaming or deletion of a channel is
      visible in the channel cache of the guild when the call returns.
    - Replies to the requester (deferReply, editReply, embeds) are not
      modelled; a handler returns the kind of reply it ends with, and takes
      the identifier of [interaction.guild] and the outcome of its
      permission check as arguments.
    - The listeners that the program registers are functions of the same
      kind.  A listener returns the timers it sets, or the code it exits
      with; the firing of a timer and the delivery of an event are stimuli
      that the process reacts to, one at a time ([react]). *)

From Stdlib Require Import List String Ascii ZArith Bool Lia Arith.
From Stdlib Require Import Permutation Sorted.
From Stdlib Require Import DecimalString.
From Stdlib Require DecimalZ DecimalPos.
Import ListNotations.

Local Open Scope list_scope.
Local Open Scope string_scope.

Set Implicit Arguments.
#[local] Set Warnings "-register-all".

(** ** JavaScript values read from and written to config.json *)

Inductive JSON : Type :=
| JNull
| JBool (b : bool)
| JNumber (n : Z)
| JString (s : string)
| JArray (elems : list JSON)
| JObject (props : list (string * JSON)).

(** ** Calls to the platform and to the file system *)

Definition Snowflake := string.

Inductive ChannelType : Type :=
| GuildText
| GuildVoice
| GuildCategory.

(** The awaited calls of the handlers that can be rejected.  The two
    deletions of [handleCounterReset] are told apart by their call site:
    [ChannelDelete] is [channel.delete()], [CategoryDelete] is
    [category.delete()]. *)
Inductive Request : Type :=
| MembersFetch (guild : Snowflake)
| ChannelCreate (guild : Snowflake) (name : string) (type : ChannelType)
    (parent : option Snowflake)
| ChannelSetName (guild channel : Snowflake) (name : string)
| ChannelDelete (guild channel : Snowflake)
| CategoryDelete (guild category : Snowflake)
| WriteFile (document : JSON).

(** A call together with its outcome ([true]: accepted). *)
Definition Event : Type := Request * bool.

(** What a rejected write leaves of config.json.  [fs.writeFile] opens the
    file with the flag ['w'], which truncates it: a write that fails
    before the file is open leaves it untouched, one that fails later
    leaves it empty or partial, or complete when only the closing
    fails. *)
Inductive Leftover : Type :=
| Untouched
| Truncated
| Complete.

(** The collaborator: whether a call is accepted, the identifier given to
    a created channel, and what a rejected write leaves of config.json, as
    functions of the calls issued so far. *)
Record Platform : Type := {
  accepts : list Event -> Request -> bool;
  newId : list Event -> Request -> Snowflake;
  leftover : list Event -> Request -> Leftover
}.

(** Exceptions of the embedded code. *)
Inductive Error : Type :=
| TypeError (message : string)
| SyntaxError
| ENOENT
| Rejected (call : Request).

Inductive Completion (A : Type) : Type :=
| Normal (a : A)
| Throw (e : Error).
Arguments Normal {A} a.
Arguments Throw {A} e.

Module JS.

(** [ToBoolean]. *)
Definition truthy (v : JSON) : bool :=
  match v with
  | JNull => false
  | JBool b => b
  | JNumber n => negb (Z.eqb n 0)
  | JString s => negb (String.eqb s "")
  | JArray _ => true
  | JObject _ => true
  end.

(** [ToBoolean] of a value that may be [undefined]. *)
Definition truthy_opt (v : option JSON) : bool :=
  match v with
  | Some v => truthy v
  | None => false
  end.

Definition isArray (v : JSON) : bool :=
  match v with
  | JArray _ => true
  | _ => false
  end.

Fixpoint lookup (key : string) (props : list (string * JSON)) : option JSON :=
  match props with
  | [] => None
  | (k, v) :: rest => if String.eqb key k then Some v else lookup key rest
  end.

(** [v.key] for a key that no built-in prototype defines ([configs],
    [counterConfigs], [channelId], [type], [categoryId]): [None] is
    [undefined]; reading a property of [null] throws. *)
Definition getProp (v : JSON) (key : string) : Completion (option JSON) :=
  match v with
  | JNull => Throw (TypeError "Cannot read properties of null")
  | JObject props => Normal (lookup key props)
  | _ => Normal None
  end.

Definition decimal (n : Z) : string := NilZero.string_of_int (Z.to_int n).

(** [ToString], as used by a computed property key.  An array is joined
    with commas, [null] elements giving the empty text.  An object is
    converted by the [toString] it has: the one of [Object.prototype], or
    its own property of that name, which is no function in a value read
    from config.json, so that the conversion throws. *)
Fixpoint toString (v : JSON) : Completion string :=
  match v with
  | JNull => Normal "null"
  | JBool true => Normal "true"
  | JBool false => Normal "false"
  | JNumber n => Normal (decimal n)
  | JString s => Normal s
  | JArray elems =>
      (fix join (l : list JSON) : Completion string :=
         match l with
         | [] => Normal ""
         | x :: tl =>
             match match x with JNull => Normal "" | _ => toString x end with
             | Normal sx =>
                 match tl with
                 | [] => Normal sx
                 | _ :: _ =>
                     match join tl with
                     | Normal rest => Normal (sx ++ "," ++ rest)
                     | Throw e => Throw e
                     end
                 end
             | Throw e => Throw e
             end
         end) elems
  | JObject props =>
      match lookup "toString" props with
      | Some _ => Throw (TypeError "Cannot convert object to primitive value")
      | None => Normal "[object Object]"
      end
  end.

(** [ToPropertyKey], [None] being [undefined]. *)
Definition toPropertyKey (v : option JSON) : Completion string :=
  match v with
  | Some v => toString v
  | None => Normal "undefined"
  end.

Fixpoint chars (s : string) : list string :=
  match s with
  | EmptyString => []
  | String c rest => String c EmptyString :: chars rest
  end.

Fixpoint indexed {A : Type} (i : nat) (l : list A) : list (string * A) :=
  match l with
  | [] => []
  | x :: tl => (NilZero.string_of_uint (Nat.to_uint i), x) :: indexed (S i) tl
  end.

(** An array index: the canonical decimal text of an integer below
    2^32 - 1. *)
Definition arrayIndex (key : string) : option N :=
  match NilZero.uint_of_string key with
  | Some d =>
      let n := N.of_uint d in
      if String.eqb (NilZero.string_of_uint (N.to_uint n)) key && (n <? 4294967295)%N
      then Some n
      else None
  | None => None
  end.

Section OwnProperties.
Variable A : Type.

Definition isIndex (entry : string * A) : bool :=
  match arrayIndex (fst entry) with
  | Some _ => true
  | None => false
  end.

Definition indexOf (entry : string * A) : N :=
  match arrayIndex (fst entry) with
  | Some n => n
  | None => 0%N
  end.

Fixpoint insert (entry : string * A) (l : list (string * A)) : list (string * A) :=
  match l with
  | [] => [entry]
  | entry' :: tl =>
      if (indexOf entry' <? indexOf entry)%N then entry' :: insert entry tl
      else entry :: l
  end.

Fixpoint ascending (l : list (string * A)) : list (string * A) :=
  match l with
  | [] => []
  | entry :: tl => insert entry (ascending tl)
  end.

(** The order in which the own properties of an object are visited
    ([Object.entries], [JSON.stringify]): the array indices first, in
    ascending order, then the other keys in the order of their creation. *)
Definition ownOrder (props : list (string * A)) : list (string * A) :=
  ascending (filter isIndex props) ++ filter (fun entry => negb (isIndex entry)) props.

End OwnProperties.

(** [Object.entries v] for a value that is neither [null] nor
    [undefined]. *)
Definition entries (v : JSON) : list (string * JSON) :=
  match v with
  | JObject props => ownOrder props
  | JArray elems => indexed 0 elems
  | JString s => indexed 0 (map JString (chars s))
  | _ => []
  end.

(** The values a [for (const x of v)] loop visits; a value that is not
    iterable throws. *)
Definition iterate (v : JSON) : Completion (list JSON) :=
  match v with
  | JArray elems => Normal elems
  | JString s => Normal (map JString (chars s))
  | _ => Throw (TypeError "configs is not iterable")
  end.

(** [v.length], [None] being [undefined]: the length of an array or of a
    string, and the property [length] of an object that has one. *)
Definition length (v : JSON) : option JSON :=
  match v with
  | JArray elems => Some (JNumber (Z.of_nat (List.length elems)))
  | JString s => Some (JNumber (Z.of_nat (String.length s)))
  | JObject props => lookup "length" props
  | _ => None
  end.

End JS.

(** ** [Map]: entries in insertion order *)

Module JSMap.

Section Ops.
Variable V : Type.

Definition t := list (string * V).

Definition empty : t := [].

Fixpoint get (key : string) (m : t) : option V :=
  match m with
  | [] => None
  | (k, v) :: rest => if String.eqb key k then Some v else get key rest
  end.

Definition has (key : string) (m : t) : bool :=
  match get key m with
  | Some _ => true
  | None => false
  end.

(** [m.set(key, value)]: an existing key keeps its place. *)
Fixpoint set (key : string) (value : V) (m : t) : t :=
  match m with
  | [] => [(key, value)]
  | (k, v) :: rest =>
      if String.eqb key k then (k, value) :: rest
      else (k, v) :: set key value rest
  end.

Fixpoint delete (key : string) (m : t) : t :=
  match m with
  | [] => []
  | (k, v) :: rest =>
      if String.eqb key k then delete key rest
      else (k, v) :: delete key rest
  end.

(** Replace the value stored under [key], if there is one. *)
Fixpoint alter (f : V -> V) (key : string) (m : t) : t :=
  match m with
  | [] => []
  | (k, v) :: rest =>
      if String.eqb key k then (k, f v) :: rest
      else (k, v) :: alter f key rest
  end.

Definition keys (m : t) : list string := map fst m.

(** The invariant of a [Map]: no key occurs twice. *)
Definition wf (m : t) : Prop := NoDup (keys m).

End Ops.

End JSMap.

(** ** The gateway client's objects *)

(** A member of a membership snapshot: [m.user.bot], [m.roles.cache.size]
    and [m.presence?.status] ([None]: the member has no presence). *)
Record GuildMember : Type := {
  bot : bool;
  rolesSize : nat;
  presence : option string
}.

Module Channel.
Record t : Type := {
  name : string;
  type : ChannelType;
  parentId : option Snowflake
}.
End Channel.

(** A guild object: its name, [guild.channels.cache], and the membership
    that [guild.members.fetch()] returns when it is accepted. *)
Module Guild.
Record t : Type := {
  name : string;
  channels : JSMap.t Channel.t;
  members : list GuildMember
}.
End Guild.

(** The content of config.json: a text that cannot be parsed, or the text
    that [JSON.stringify] gives for [configData].  The text lists the
    properties of an object in the order of visit, and [JSON.parse] creates
    them in that order, which leaves their order of visit and their values
    as they were: the parsed value is taken to be [configData] itself. *)
Inductive FileContent : Type :=
| Unparsable
| Document (configData : JSON).

(** The state of the process: the store [counterConfigs], the guild
    objects by identifier and the identifiers held by
    [client.guilds.cache], config.json ([None]: no file), the log, and the
    calls issued so far. *)
Record Bot : Type := {
  counterConfigs : JSMap.t JSON;
  guild : Snowflake -> Guild.t;
  guildsCache : list Snowflake;
  configFile : option FileContent;
  log : list (string * string);
  history : list Event
}.

Definition setCounterConfigs (m : JSMap.t JSON) (s : Bot) : Bot :=
  {| counterConfigs := m; guild := guild s; guildsCache := guildsCache s;
     configFile := configFile s; log := log s; history := history s |}.

Definition setChannels (g : Snowflake) (c : JSMap.t Channel.t) (s : Bot) : Bot :=
  {| counterConfigs := counterConfigs s;
     guild := fun g' =>
       if String.eqb g' g
       then {| Guild.name := Guild.name (guild s g); Guild.channels := c;
               Guild.members := Guild.members (guild s g) |}
       else guild s g';
     guildsCache := guildsCache s;
     configFile := configFile s; log := log s; history := history s |}.

Definition setConfigFile (f : option FileContent) (s : Bot) : Bot :=
  {| counterConfigs := counterConfigs s; guild := guild s;
     guildsCache := guildsCache s;
     configFile := f; log := log s; history := history s |}.

Definition addLog (entry : string * string) (s : Bot) : Bot :=
  {| counterConfigs := counterConfigs s; guild := guild s;
     guildsCache := guildsCache s;
     configFile := configFile s; log := (log s ++ [entry])%list; history := history s |}.

Definition addEvent (e : Event) (s : Bot) : Bot :=
  {| counterConfigs := counterConfigs s; guild := guild s;
     guildsCache := guildsCache s;
     configFile := configFile s; log := log s; history := (history s ++ [e])%list |}.

(** ** Asynchronous functions: state and exceptions *)

Definition Async (A : Type) : Type := Bot -> Completion A * Bot.

Definition ret {A : Type} (a : A) : Async A := fun s => (Normal a, s).

Definition bind {A B : Type} (m : Async A) (f : A -> Async B) : Async B :=
  fun s =>
    match m s with
    | (Normal a, s') => f a s'
    | (Throw e, s') => (Throw e, s')
    end.

Definition throw {A : Type} (e : Error) : Async A := fun s => (Throw e, s).

(** [try { m } catch (e) { handler e }] *)
Definition tryCatch {A : Type} (m : Async A) (handler : Error -> Async A) : Async A :=
  fun s =>
    match m s with
    | (Normal a, s') => (Normal a, s')
    | (Throw e, s') => handler e s'
    end.

Definition lift {A : Type} (c : Completion A) : Async A := fun s => (c, s).

Definition gets {A : Type} (f : Bot -> A) : Async A := fun s => (Normal (f s), s).

Definition modify (f : Bot -> Bot) : Async unit := fun s => (Normal tt, f s).

Declare Scope async_scope.
Delimit Scope async_scope with async.
Notation "x <- m ;; k" := (bind m (fun x => k))
  (at level 61, m at next level, right associativity) : async_scope.
Notation "m ;; k" := (bind m (fun _ => k))
  (at level 61, right associativity) : async_scope.
Local Open Scope async_scope.

(** [for (const x of l) { body x }] *)
Fixpoint forOf {X : Type} (l : list X) (body : X -> Async unit) : Async unit :=
  match l with
  | [] => ret tt
  | x :: rest => body x ;; forOf rest body
  end.

(** A [for ... of] loop that updates local variables [acc]. *)
Fixpoint forOfWith {X L : Type} (l : list X) (acc : L) (body : L -> X -> Async L)
  : Async L :=
  match l with
  | [] => ret acc
  | x :: rest => acc' <- body acc x ;; forOfWith rest acc' body
  end.

Definition exec {A : Type} (m : Async A) (s : Bot) : Bot := snd (m s).
Definition result {A : Type} (m : Async A) (s : Bot) : Completion A := fst (m s).

(** ** Counter types and the statistic evaluator *)

Definition COUNTER_TYPES : JSMap.t string :=
  [ ("members", "Total Members");
    ("bots", "Total Bots");
    ("roles", "Members with Roles");
    ("online-members", "Online Members");
    ("online-bots", "Online Bots");
    ("offline-members", "Offline Members");
    ("offline-bots", "Offline Bots") ].

(** The names that [COUNTER_TYPES] inherits from [Object.prototype]:
    [COUNTER_TYPES[name]] is not [undefined] for them. *)
Definition inheritedNames : list string :=
  ["constructor"; "hasOwnProperty"; "isPrototypeOf"; "propertyIsEnumerable";
   "toLocaleString"; "toString"; "valueOf"; "__proto__"; "__defineGetter__";
   "__defineSetter__"; "__lookupGetter__"; "__lookupSetter__"].

(** The text of [${COUNTER_TYPES[key]}].  A key of the table reads its
    label.  Another key reads what [Object.prototype] holds under it: the
    prototype itself under [__proto__], the function [Object] under
    [constructor], a function of the same name under the other inherited
    names, printed as Node.js prints a built-in function; and [undefined]
    under any other key. *)
Definition label (key : string) : string :=
  match JSMap.get key COUNTER_TYPES with
  | Some l => l
  | None =>
      if String.eqb key "__proto__" then "[object Object]"
      else if String.eqb key "constructor" then "function Object() { [native code] }"
      else if existsb (String.eqb key) inheritedNames
           then "function " ++ key ++ "() { [native code] }"
           else "undefined"
  end.

(** [`${COUNTER_TYPES[type]}: ${count}`]: the conversion of [type] to a
    property key can throw. *)
Definition computeName (type : option JSON) (count : Z) : Completion string :=
  match JS.toPropertyKey type with
  | Normal key => Normal (label key ++ ": " ++ JS.decimal count)
  | Throw e => Throw e
  end.

(** The text of that template when it has one, as for the [counterType]
    of a command, which is a string. *)
Definition channelName (type : option JSON) (count : Z) : string :=
  match computeName type count with
  | Normal name => name
  | Throw _ => ""
  end.

(** [['online', 'idle', 'dnd'].includes(m.presence?.status)] *)
Definition online (m : GuildMember) : bool :=
  match presence m with
  | Some status =>
      String.eqb status "online" || String.eqb status "idle" || String.eqb status "dnd"
  | None => false
  end.

(** [!m.presence || m.presence.status === 'offline'] *)
Definition offline (m : GuildMember) : bool :=
  match presence m with
  | Some status => String.eqb status "offline"
  | None => true
  end.

(** [members.filter(p).size] *)
Definition filterSize (p : GuildMember -> bool) (members : list GuildMember) : Z :=
  Z.of_nat (List.length (filter p members)).

(** The [switch] of [getCountForType], on the fetched membership. *)
Definition countForType (members : list GuildMember) (type : option JSON) : Z :=
  match type with
  | Some (JString t) =>
      if String.eqb t "members" then
        filterSize (fun m => negb (bot m)) members
      else if String.eqb t "bots" then
        filterSize (fun m => bot m) members
      else if String.eqb t "roles" then
        filterSize (fun m => negb (bot m) && Nat.ltb 1 (rolesSize m)) members
      else if String.eqb t "online-members" then
        filterSize (fun m => negb (bot m) && online m) members
      else if String.eqb t "online-bots" then
        filterSize (fun m => bot m && online m) members
      else if String.eqb t "offline-members" then
        filterSize (fun m => negb (bot m) && offline m) members
      else if String.eqb t "offline-bots" then
        filterSize (fun m => bot m && offline m) members
      else 0%Z
  | _ => 0%Z
  end.

(** [evaluate(kind, snapshot)] for a kind given by its name. *)
Definition evaluate (kind : string) (snapshot : list GuildMember) : Z :=
  countForType snapshot (Some (JString kind)).

(** ** The handlers of src/index.js *)

Inductive SetupReply : Type :=
| SetupDenied
| SetupComplete
| SetupFailed.

Inductive ResetReply : Type :=
| ResetDenied
| NoCountersFound
| ResetComplete (deletedChannels failedDeletions : nat)
| ResetFailed.

(** [guild ? guild.name : 'Unknown Server'] with
    [guild = client.guilds.cache.get(guildId)] *)
Definition serverName (s : Bot) (guildId : Snowflake) : string :=
  if existsb (String.eqb guildId) (guildsCache s)
  then Guild.name (guild s guildId)
  else "Unknown Server".

(** [obj[key] = value] for an object [value], on an object created by a
    literal: the key [__proto__] reaches the setter that [Object.prototype]
    defines, which makes [value] the prototype of [obj] and creates no
    property. *)
Definition assign (key : string) (value : JSON) (props : list (string * JSON))
  : list (string * JSON) :=
  if String.eqb key "__proto__" then props else JSMap.set key value props.

(** The [configData] that [saveConfigs] builds from the entries of the
    store (lines 44 to 55), for a given lookup of server names. *)
Definition serialize (lookup : Snowflake -> string) (store : JSMap.t JSON) : JSON :=
  JObject
    [("counterConfigs",
      JObject
        (fold_left
           (fun obj entry =>
              assign (fst entry)
                (JObject [("serverName", JString (lookup (fst entry)));
                          ("configs", snd entry)])
                obj)
           store []))].

(** [JSON.parse(data)] *)
Definition parse (data : FileContent) : Completion JSON :=
  match data with
  | Document configData => Normal configData
  | Unparsable => Throw SyntaxError
  end.

(** [!configs || configs.length === 0] *)
Definition noCounters (configs : option JSON) : bool :=
  match configs with
  | None => true
  | Some c =>
      negb (JS.truthy c)
      || match JS.length c with
         | Some (JNumber 0) => true
         | _ => false
         end
  end.

(** [c => c.type === ChannelType.GuildCategory && c.name === categoryName] *)
Definition isCategoryNamed (categoryName : string) (entry : Snowflake * Channel.t) : bool :=
  match Channel.type (snd entry) with
  | GuildCategory => String.eqb (Channel.name (snd entry)) categoryName
  | _ => false
  end.

Definition hasParent (category : Snowflake) (entry : Snowflake * Channel.t) : bool :=
  match Channel.parentId (snd entry) with
  | Some p => String.eqb p category
  | None => false
  end.

Definition renamed (newName : string) (c : Channel.t) : Channel.t :=
  {| Channel.name := newName; Channel.type := Channel.type c;
     Channel.parentId := Channel.parentId c |}.

(** config.json after a rejected write of [configData]: an empty or
    partial file cannot be parsed. *)
Definition failedWrite (configData : JSON) (left : Leftover) (file : option FileContent)
  : option FileContent :=
  match left with
  | Untouched => file
  | Truncated => Some Unparsable
  | Complete => Some (Document configData)
  end.

Section Handlers.

Variable platform : Platform.

(** An awaited call: it is recorded with its outcome, and throws when the
    platform rejects it. *)
Definition await (r : Request) : Async unit :=
  fun s =>
    let ok := accepts platform (history s) r in
    (if ok then Normal tt else Throw (Rejected r), addEvent (r, ok) s).

(** [logMessage] never throws: a failure to append to bot.log is caught
    inside it. *)
Definition logMessage (level message : string) : Async unit :=
  modify (addLog (level, message)).

Definition consoleError (message : string) : Async unit :=
  modify (addLog ("console.error", message)).

(** [guild.channels.cache.get(id)]: the keys of the cache are strings. *)
Definition channelsCacheGet (guildId : Snowflake) (id : option JSON)
  : Async (option (Snowflake * Channel.t)) :=
  gets (fun s =>
          match id with
          | Some (JString id) =>
              match JSMap.get id (Guild.channels (guild s guildId)) with
              | Some c => Some (id, c)
              | None => None
              end
          | _ => None
          end).

(** [guild.channels.create({ name, type, parent, ... })]: an accepted
    creation adds the channel to the cache. *)
Definition channelsCreate (guildId : Snowflake) (name : string) (type : ChannelType)
  (parent : option Snowflake) : Async Snowflake :=
  id <- gets (fun s => newId platform (history s) (ChannelCreate guildId name type parent)) ;;
  await (ChannelCreate guildId name type parent) ;;
  modify (fun s =>
            setChannels guildId
              (JSMap.set id
                 {| Channel.name := name; Channel.type := type; Channel.parentId := parent |}
                 (Guild.channels (guild s guildId))) s) ;;
  ret id.

(** [channel.setName(newName)] *)
Definition setName (guildId channelId : Snowflake) (newName : string) : Async unit :=
  await (ChannelSetName guildId channelId newName) ;;
  modify (fun s =>
            setChannels guildId
              (JSMap.alter (renamed newName) channelId (Guild.channels (guild s guildId))) s).

(** [channel.delete()] and [category.delete()]: an accepted deletion
    removes the channel from the cache. *)
Definition channelDelete (guildId channelId : Snowflake) : Async unit :=
  await (ChannelDelete guildId channelId) ;;
  modify (fun s =>
            setChannels guildId (JSMap.delete channelId (Guild.channels (guild s guildId))) s).

Definition categoryDelete (guildId categoryId : Snowflake) : Async unit :=
  await (CategoryDelete guildId categoryId) ;;
  modify (fun s =>
            setChannels guildId (JSMap.delete categoryId (Guild.channels (guild s guildId))) s).

(** [category.children.cache.size]: only a category channel has
    [children]. *)
Definition childrenSize (guildId : Snowflake) (category : Snowflake * Channel.t)
  : Async nat :=
  match Channel.type (snd category) with
  | GuildCategory =>
      gets (fun s =>
              List.length
                (filter (hasParent (fst category)) (Guild.channels (guild s guildId))))
  | _ => throw (TypeError "Cannot read properties of undefined (reading 'cache')")
  end.

(** [fs.readFile(CONFIG_FILE, 'utf8')] *)
Definition readFile : Async FileContent :=
  fun s =>
    match configFile s with
    | Some data => (Normal data, s)
    | None => (Throw ENOENT, s)
    end.

(** [fs.writeFile(CONFIG_FILE, JSON.stringify(configData, null, 2))]: an
    accepted write leaves the document in config.json, a rejected one
    leaves what [failedWrite] tells. *)
Definition writeFile (configData : JSON) : Async unit :=
  tryCatch
    (await (WriteFile configData) ;;
     modify (setConfigFile (Some (Document configData))))
    (fun error =>
       modify (fun s =>
                 setConfigFile
                   (failedWrite configData
                      (leftover platform (history s) (WriteFile configData))
                      (configFile s)) s) ;;
       throw error).

(** Lines 42 to 62. *)
Definition saveConfigs : Async unit :=
  tryCatch
    (configData <- gets (fun s => serialize (serverName s) (counterConfigs s)) ;;
     writeFile configData ;;
     logMessage "info" "Configurations saved successfully")
    (fun error => logMessage "error" "Failed to save configurations").

(** The body of the loop of [loadConfigs] (lines 73 to 80). *)
Definition loadEntry (entry : string * JSON) : Async unit :=
  let guildId := fst entry in
  let guildData := snd entry in
  if JS.isArray guildData then
    modify (fun s => setCounterConfigs (JSMap.set guildId guildData (counterConfigs s)) s)
  else
    configs <- lift (JS.getProp guildData "configs") ;;
    match configs with
    | Some configs =>
        if JS.truthy configs then
          modify (fun s => setCounterConfigs (JSMap.set guildId configs (counterConfigs s)) s)
        else ret tt
    | None => ret tt
    end.

(** Lines 65 to 92. *)
Definition loadConfigs : Async unit :=
  tryCatch
    (data <- readFile ;;
     configData <- lift (parse data) ;;
     mapping <- lift (JS.getProp configData "counterConfigs") ;;
     match mapping with
     | Some mapping =>
         if JS.truthy mapping then
           modify (setCounterConfigs (JSMap.empty JSON)) ;;
           forOf (JS.entries mapping) loadEntry
         else ret tt
     | None => ret tt
     end ;;
     logMessage "info" "Configurations loaded successfully")
    (fun error =>
       logMessage "warn" "No existing configuration file found or failed to load").

(** Lines 463 to 491. *)
Definition getCountForType (guildId : Snowflake) (type : option JSON) : Async Z :=
  await (MembersFetch guildId) ;;
  members <- gets (fun s => Guild.members (guild s guildId)) ;;
  ret (countForType members type).

(** [counterConfigs.get(guildId).push(item)] *)
Definition push (guildId : Snowflake) (item : JSON) : Async unit :=
  configs <- gets (fun s => JSMap.get guildId (counterConfigs s)) ;;
  match configs with
  | Some (JArray elems) =>
      modify (fun s =>
                setCounterConfigs
                  (JSMap.set guildId (JArray (elems ++ [item])%list) (counterConfigs s)) s)
  | _ => throw (TypeError "counterConfigs.get(...).push is not a function")
  end.

(** Lines 203 to 236 of [handleCounterSetup]: find or create the category,
    count, and create the counter channel; the result is
    [(category.id, counterChannel.id)]. *)
Definition provisionCounter (guildId : Snowflake) (counterType categoryName : string)
  : Async (Snowflake * Snowflake) :=
  found <- gets (fun s =>
                   find (isCategoryNamed categoryName)
                     (Guild.channels (guild s guildId))) ;;
  category <- match found with
              | Some (id, _) => ret id
              | None => channelsCreate guildId categoryName GuildCategory None
              end ;;
  count <- getCountForType guildId (Some (JString counterType)) ;;
  counterChannel <- channelsCreate guildId
                      (channelName (Some (JString counterType)) count)
                      GuildVoice (Some category) ;;
  ret (category, counterChannel).

(** Lines 238 to 251 of [handleCounterSetup]: store the configuration and
    save. *)
Definition recordCounter (guildId : Snowflake) (counterType : string)
  (category counterChannel : Snowflake) : Async unit :=
  present <- gets (fun s => JSMap.has guildId (counterConfigs s)) ;;
  (if negb present then
     modify (fun s =>
               setCounterConfigs (JSMap.set guildId (JArray []) (counterConfigs s)) s)
   else ret tt) ;;
  push guildId
    (JObject [("channelId", JString counterChannel);
              ("type", JString counterType);
              ("categoryId", JString category)]) ;;
  saveConfigs.

(** Lines 188 to 320.  [manageChannels] is the outcome of the permission
    check, [counterType] and [categoryName] are the options of the
    command. *)
Definition handleCounterSetup (guildId : Snowflake) (manageChannels : bool)
  (counterType categoryName : string) : Async SetupReply :=
  tryCatch
    (if negb manageChannels then ret SetupDenied
     else
       created <- provisionCounter guildId counterType categoryName ;;
       recordCounter guildId counterType (fst created) (snd created) ;;
       logMessage "info" "Counter setup completed" ;;
       ret SetupComplete)
    (fun error => logMessage "error" "Counter setup failed" ;; ret SetupFailed).

(** Lines 373 to 377 of [handleCounterReset]: delete the channel if the
    cache has it; the result is the new value of [deletedChannels]. *)
Definition deleteChannelIfCached (guildId : Snowflake) (config : JSON)
  (deletedChannels : nat) : Async nat :=
  channelId <- lift (JS.getProp config "channelId") ;;
  channel <- channelsCacheGet guildId channelId ;;
  match channel with
  | Some (id, _) => channelDelete guildId id ;; ret (S deletedChannels)
  | None => ret deletedChannels
  end.

(** Lines 380 to 383: delete the category if the cache has it and it has
    no children. *)
Definition deleteCategoryIfEmpty (guildId : Snowflake) (config : JSON) : Async unit :=
  categoryId <- lift (JS.getProp config "categoryId") ;;
  category <- channelsCacheGet guildId categoryId ;;
  match category with
  | Some c =>
      size <- childrenSize guildId c ;;
      if Nat.eqb size 0 then categoryDelete guildId (fst c) else ret tt
  | None => ret tt
  end.

(** Lines 385 to 391: the [catch] block, on the values the local variables
    have when the exception is thrown.  The data of the log entry reads
    [config.channelId], which throws when [config] is [null]. *)
Definition countFailure (config : JSON) (deletedChannels failedDeletions : nat)
  (error : Error) : Async (nat * nat) :=
  lift (JS.getProp config "channelId") ;;
  logMessage "error" "Failed to delete counter channel" ;;
  ret (deletedChannels, S failedDeletions).

(** The second half of the [try] block, once [deletedChannels] has its
    new value. *)
Definition categoryStep (guildId : Snowflake) (config : JSON)
  (deletedChannels failedDeletions : nat) : Async (nat * nat) :=
  tryCatch
    (deleteCategoryIfEmpty guildId config ;;
     ret (deletedChannels, failedDeletions))
    (countFailure config deletedChannels failedDeletions).

(** The body of the loop of [handleCounterReset] (lines 372 to 392) on the
    local variables [(deletedChannels, failedDeletions)].  The [try] block
    is split after [deletedChannels++], so that the [catch] block counts
    the failure on top of the value [deletedChannels] has when the
    exception is thrown. *)
Definition resetOne (guildId : Snowflake) (counters : nat * nat) (config : JSON)
  : Async (nat * nat) :=
  let deletedChannels := fst counters in
  let failedDeletions := snd counters in
  tryCatch
    (deleted <- deleteChannelIfCached guildId config deletedChannels ;;
     categoryStep guildId config deleted failedDeletions)
    (countFailure config deletedChannels failedDeletions).

(** Lines 339 to 461.  [administrator] is the outcome of the permission
    check. *)
Definition handleCounterReset (guildId : Snowflake) (administrator : bool)
  : Async ResetReply :=
  tryCatch
    (if negb administrator then ret ResetDenied
     else
       configs <- gets (fun s => JSMap.get guildId (counterConfigs s)) ;;
       match configs with
       | Some c =>
           if noCounters configs then ret NoCountersFound
           else
             items <- lift (JS.iterate c) ;;
             counters <- forOfWith items (0, 0) (resetOne guildId) ;;
             modify (fun s =>
                       setCounterConfigs (JSMap.delete guildId (counterConfigs s)) s) ;;
             saveConfigs ;;
             logMessage "info" "Counter reset completed" ;;
             ret (ResetComplete (fst counters) (snd counters))
       | None => ret NoCountersFound
       end)
    (fun error => logMessage "error" "Counter reset failed" ;; ret ResetFailed).

(** The [try] block shared by the two sweeps (lines 500 to 513 and 617 to
    625); [updated] is what follows an accepted [setName]. *)
Definition renameIfChanged (guildId : Snowflake) (config : JSON)
  (updated : string -> Async unit) : Async unit :=
  channelId <- lift (JS.getProp config "channelId") ;;
  channel <- channelsCacheGet guildId channelId ;;
  match channel with
  | None => ret tt
  | Some (id, c) =>
      type <- lift (JS.getProp config "type") ;;
      count <- getCountForType guildId type ;;
      newName <- lift (computeName type count) ;;
      if negb (String.eqb (Channel.name c) newName) then
        setName guildId id newName ;;
        updated newName
      else ret tt
  end.

(** The body of the inner loop of [updateAllCounters] (lines 499 to
    522).  The data of the log entry of the [catch] block reads
    [config.channelId] and [config.type], which throws when [config] is
    [null]. *)
Definition updateAllTurn (guildId : Snowflake) (config : JSON) : Async unit :=
  tryCatch
    (renameIfChanged guildId config
       (fun newName => logMessage "debug" "Counter updated"))
    (fun error =>
       lift (JS.getProp config "channelId") ;;
       lift (JS.getProp config "type") ;;
       logMessage "error" "Counter update failed").

(** Lines 493 to 525. *)
Definition updateAllCounters : Async unit :=
  entries <- gets counterConfigs ;;
  forOf entries
    (fun entry =>
       let guildId := fst entry in
       let configs := snd entry in
       cached <- gets (fun s => existsb (String.eqb guildId) (guildsCache s)) ;;
       if negb cached then ret tt
       else
         items <- lift (JS.iterate configs) ;;
         forOf items (updateAllTurn guildId)).

(** The body of the loop of [updateGuildCounters] (lines 616 to 629).  The
    message of the [catch] block reads [config.channelId], which throws
    when [config] is [null]. *)
Definition updateGuildTurn (guildId : Snowflake) (config : JSON) : Async unit :=
  tryCatch
    (renameIfChanged guildId config (fun newName => ret tt))
    (fun error =>
       lift (JS.getProp config "channelId") ;;
       consoleError "Error updating counter").

(** Lines 611 to 631. *)
Definition updateGuildCounters (guildId : Snowflake) : Async unit :=
  configs <- gets (fun s => JSMap.get guildId (counterConfigs s)) ;;
  match configs with
  | Some c =>
      if negb (JS.truthy c) then ret tt
      else
        items <- lift (JS.iterate c) ;;
        forOf items (updateGuildTurn guildId)
  | None => ret tt
  end.

End Handlers.

(** ** Vocabulary of the statements *)

(** The presence statuses of the data model: [online], [idle], [dnd],
    [offline], or no presence at all. *)
Definition validPresence (m : GuildMember) : Prop :=
  match presence m with
  | Some status => In status ["online"; "idle"; "dnd"; "offline"]
  | None => True
  end.

(** The legacy shape of config.json: every community is mapped directly
    to its sequence of configs. *)
Definition legacyDocument (store : JSMap.t JSON) : JSON :=
  JObject [("counterConfigs", JObject store)].

(** The array indices of two properties are in order. *)
Definition indexLe {A : Type} (e1 e2 : string * A) : Prop :=
  (JS.indexOf e1 <= JS.indexOf e2)%N.

(** The communities that a save writes: all but one whose identifier is
    [__proto__]. *)
Definition persisted (store : JSMap.t JSON) : JSMap.t JSON :=
  filter (fun entry => negb (String.eqb (fst entry) "__proto__")) store.

(** Every community of the store is mapped to a sequence. *)
Definition sequences (store : JSMap.t JSON) : Prop :=
  Forall (fun entry => JS.isArray (snd entry) = true) store.

(** The value config.json holds for a community in the new shape. *)
Definition newShape (serverName : string) (configs : JSON) : JSON :=
  JObject [("serverName", JString serverName); ("configs", configs)].

(** [keeps R m]: every run of [m] relates the state it starts from to the
    state it ends in. *)
Definition keeps (R : Bot -> Bot -> Prop) {A : Type} (m : Async A) : Prop :=
  forall s, R s (exec m s).

Definition sameStore (s s' : Bot) : Prop := counterConfigs s' = counterConfigs s.

Definition sameFile (s s' : Bot) : Prop := configFile s' = configFile s.

(** The calls issued by a run of [m] from [s]. *)
Definition issued {A : Type} (m : Async A) (s : Bot) : list Event :=
  skipn (List.length (history s)) (history (exec m s)).


(** ** Sample platforms, guilds and states *)

(** A platform that accepts every call and numbers the channels it
    creates. *)
Definition accepting : Platform :=
  {| accepts := fun _ _ => true;
     newId := fun events _ =>
                "channel-" ++ NilZero.string_of_uint (Nat.to_uint (List.length events));
     leftover := fun _ _ => Untouched |}.

Definition counterConfig (channelId type categoryId : string) : JSON :=
  JObject [("channelId", JString channelId);
           ("type", JString type);
           ("categoryId", JString categoryId)].

Definition voice (name : string) (parent : option Snowflake) : Channel.t :=
  {| Channel.name := name; Channel.type := GuildVoice; Channel.parentId := parent |}.

Definition category (name : string) : Channel.t :=
  {| Channel.name := name; Channel.type := GuildCategory; Channel.parentId := None |}.

Definition human (status : option string) : GuildMember :=
  {| bot := false; rolesSize := 2; presence := status |}.

Definition robot (status : option string) : GuildMember :=
  {| bot := true; rolesSize := 1; presence := status |}.

(** A process that knows one guild ["g"] with the given channels and
    members, holds [store], and has [file] on disk. *)
Definition sampleBot (channels : JSMap.t Channel.t) (members : list GuildMember)
  (store : JSMap.t JSON) (file : option FileContent) : Bot :=
  {| counterConfigs := store;
     guild := fun _ =>
                {| Guild.name := "Sample"; Guild.channels := channels;
                   Guild.members := members |};
     guildsCache := ["g"];
     configFile := file;
     log := [];
     history := [] |}.

(** The new shape of config.json, with the same communities in the same
    order as [store]. *)
Definition newShapeDocument (lookup : Snowflake -> string) (store : JSMap.t JSON) : JSON :=
  JObject
    [("counterConfigs",
      JObject (map (fun entry => (fst entry, newShape (lookup (fst entry)) (snd entry)))
                 store))].

(** A value of config.json that has neither shape: not a sequence, and
    not an object whose [configs] is truthy. *)
Definition neitherShape (guildData : JSON) : bool :=
  negb (JS.isArray guildData)
  && negb match guildData with
          | JObject props => JS.truthy_opt (JS.lookup "configs" props)
          | _ => false
          end.

(** A document whose first community is mapped to [null]. *)
Definition nullEntryDocument : JSON :=
  JObject
    [("counterConfigs",
      JObject [("g1", JNull);
               ("g2", JArray [counterConfig "c2" "members" "k2"])])].

(** The same document with the number 0 in place of [null]. *)
Definition zeroEntryDocument : JSON :=
  JObject
    [("counterConfigs",
      JObject [("g1", JNumber 0);
               ("g2", JArray [counterConfig "c2" "members" "k2"])])].

(** The calls of [handleCounterSetup] that precede the update of the
    store: the creation of the category and of the channel, and the fetch
    of the membership. *)
Definition provisioning (r : Request) : bool :=
  match r with
  | ChannelCreate _ _ _ _ => true
  | MembersFetch _ => true
  | _ => false
  end.


(** [clean m]: when a run of [m] completes normally, every call it issued
    was accepted. *)
Definition clean {A : Type} (m : Async A) : Prop :=
  forall s a s',
    m s = (Normal a, s') ->
    exists events,
      history s' = (history s ++ events)%list
      /\ Forall (fun e : Event => snd e = true) events.

(** The run from [s] to [s'] issued no provisioning call. *)
Definition noProvisioning (s s' : Bot) : Prop :=
  exists events,
    history s' = (history s ++ events)%list
    /\ Forall (fun e : Event => provisioning (fst e) = false) events.

(** ** Vocabulary of the teardown and of the sweeps *)

(** A counter as the data model has it, and the object that
    [handleCounterSetup] pushes for it. *)
Record CounterConfig : Type := {
  channelId : Snowflake;
  kind : string;
  categoryId : Snowflake
}.

Definition configObject (c : CounterConfig) : JSON :=
  counterConfig (channelId c) (kind c) (categoryId c).

Definition channelsOf (s : Bot) (guildId : Snowflake) : JSMap.t Channel.t :=
  Guild.channels (guild s guildId).

Definition isCategory (c : Channel.t) : bool :=
  match Channel.type c with
  | GuildCategory => true
  | _ => false
  end.

(** [id] is, in [channels], a category without child channels. *)
Definition emptyCategory (channels : JSMap.t Channel.t) (id : Snowflake) : bool :=
  match JSMap.get id channels with
  | Some c => isCategory c && Nat.eqb (List.length (filter (hasParent id) channels)) 0
  | None => false
  end.

(** The state once the cache of [guildId] has dropped the channel [id]. *)
Definition removeChannel (guildId id : Snowflake) (s : Bot) : Bot :=
  setChannels guildId (JSMap.delete id (channelsOf s guildId)) s.

Definition failureLogged (s : Bot) : Bot :=
  addLog ("error", "Failed to delete counter channel") s.

(** The call [r] was issued, with whatever outcome. *)
Definition attempted (r : Request) (events : list Event) : Prop :=
  exists ok, In (r, ok) events.



(** The guilds keep their names and the client its guild cache. *)
Definition sameNames (s s' : Bot) : Prop :=
  guildsCache s' = guildsCache s
  /\ forall g, Guild.name (guild s' g) = Guild.name (guild s g).

(** [m] completes normally from every state. *)
Definition neverThrows {A : Type} (m : Async A) : Prop :=
  forall s, exists a, result m s = Normal a.

(** A platform that rejects every [channel.delete()] and accepts every
    other call. *)
Definition rejectingChannelDelete : Platform :=
  {| accepts := fun _ r =>
                  match r with
                  | ChannelDelete _ _ => false
                  | _ => true
                  end;
     newId := newId accepting;
     leftover := fun _ _ => Truncated |}.

(** A guild with one counter channel that has left its category. *)
Definition strayCounter : Bot :=
  sampleBot [("c1", voice "Total Members: 3" None); ("k1", category "Stats")]
    [human None; human None; human None]
    [("g", JArray [counterConfig "c1" "members" "k1"])] None.

(** A platform that rejects the deletion of the channel ["c2"] and accepts
    every other call. *)
Definition rejectingC2 : Platform :=
  {| accepts := fun _ r =>
                  match r with
                  | ChannelDelete _ id => negb (String.eqb id "c2")
                  | _ => true
                  end;
     newId := newId accepting;
     leftover := fun _ _ => Truncated |}.




(** The key under which a sweep looks the channel of a config up:
    [config.channelId] when it is a string. *)
Definition channelKey (config : JSON) : option Snowflake :=
  match JS.getProp config "channelId" with
  | Normal (Some (JString id)) => Some id
  | _ => None
  end.

Definition channelKeys (configs : list JSON) : list Snowflake :=
  flat_map (fun config =>
              match channelKey config with
              | Some id => [id]
              | None => []
              end) configs.

(** [config.type], as the sweep reads it. *)
Definition typeOf (config : JSON) : option JSON :=
  match JS.getProp config "type" with
  | Normal type => type
  | Throw _ => None
  end.

(** The name that a sweep computes for a config, from the membership of
    the guild: ["<Label(kind)>: <count>"], unless the computation throws. *)
Definition targetName (s : Bot) (guildId : Snowflake) (config : JSON)
  : Completion string :=
  computeName (typeOf config)
    (countForType (Guild.members (guild s guildId)) (typeOf config)).

Definition isRename (e : Event) : bool :=
  match fst e with
  | ChannelSetName _ _ _ => true
  | _ => false
  end.

(** The rename calls among [events]. *)
Definition renames (events : list Event) : list Event := filter isRename events.

(** Every cached channel of [configs] bears the name computed for it,
    when there is one. *)
Definition settled (s : Bot) (guildId : Snowflake) (configs : list JSON) : Prop :=
  forall config id c,
    In config configs ->
    channelKey config = Some id ->
    JSMap.get id (channelsOf s guildId) = Some c ->
    match targetName s guildId config with
    | Normal newName => Channel.name c = newName
    | Throw _ => True
    end.

(** The state once the channel [id] of [guildId] is renamed. *)
Definition renameChannel (guildId id : Snowflake) (newName : string) (s : Bot) : Bot :=
  setChannels guildId (JSMap.alter (renamed newName) id (channelsOf s guildId)) s.

Definition setLog (l : list (string * string)) (s : Bot) : Bot :=
  {| counterConfigs := counterConfigs s; guild := guild s;
     guildsCache := guildsCache s;
     configFile := configFile s; log := l; history := history s |}.

(** [f] completes normally and changes nothing but the log. *)
Definition logsOnly {X : Type} (f : X -> Async unit) : Prop :=
  forall x s, exists l, f x s = (Normal tt, setLog l s).

(** [handler] changes nothing but the log, and completes normally unless
    [config] is [null]. *)
Definition reportsFailure (config : JSON) (handler : Error -> Async unit) : Prop :=
  forall e s,
    exists c l, handler e s = (c, setLog l s) /\ (config <> JNull -> c = Normal tt).

(** No config of the community is [null]. *)
Definition noNull (configs : list JSON) : Prop := ~ In JNull configs.

(** No config of the store is [null]. *)
Definition configsNotNull (store : JSMap.t JSON) : Prop :=
  forall g configs, In (g, JArray configs) store -> noNull configs.

(** From [s] to [s'] only the log and the history have changed. *)
Definition sameWorld (s s' : Bot) : Prop :=
  counterConfigs s' = counterConfigs s
  /\ (forall g, guild s' g = guild s g)
  /\ guildsCache s' = guildsCache s
  /\ configFile s' = configFile s.

(** From [s] to [s'], in the guild [guildId], the members are the same,
    the same channels are cached, and a channel outside [ids] is
    untouched; the other guilds, the client's guild cache and the store
    are as they were. *)
Definition renamedWithin (guildId : Snowflake) (ids : list Snowflake) (s s' : Bot) : Prop :=
  counterConfigs s' = counterConfigs s
  /\ guildsCache s' = guildsCache s
  /\ (forall g, g <> guildId -> guild s' g = guild s g)
  /\ Guild.members (guild s' guildId) = Guild.members (guild s guildId)
  /\ (forall id, JSMap.get id (channelsOf s' guildId) = None
                 <-> JSMap.get id (channelsOf s guildId) = None)
  /\ (forall id, ~ In id ids ->
                 JSMap.get id (channelsOf s' guildId) = JSMap.get id (channelsOf s guildId)).

(** Two counters of one guild that share a channel, as after loading a
    hand-written config.json. *)
Definition sharedChannel : Bot :=
  sampleBot [("c1", voice "Total Members: 1" None)]
    [human (Some "online"); robot None]
    [("g", JArray [counterConfig "c1" "members" "k1";
                   counterConfig "c1" "bots" "k1"])] None.

(** Two counters with channels of their own, one of them out of date. *)
Definition twoCounters : Bot :=
  sampleBot [("c1", voice "Total Members: 10" None); ("c2", voice "Total Bots: 1" None)]
    [human (Some "online"); human None; robot None]
    [("g", JArray [counterConfig "c1" "members" "k1";
                   counterConfig "c2" "bots" "k1"])] None.

(** The state that one turn of a sweep leaves, up to the log: the turn
    skips a config whose channel is not cached, fetches the membership,
    and renames the channel when its name is not the computed one; it
    ends after the fetch when the computation of the name throws. *)
Definition afterTurn (platform : Platform) (guildId : Snowflake) (config : JSON) (s : Bot)
  : Bot :=
  match channelKey config with
  | Some id =>
      match JSMap.get id (channelsOf s guildId) with
      | Some c =>
          if accepts platform (history s) (MembersFetch guildId) then
            let s1 := addEvent (MembersFetch guildId, true) s in
            match targetName s guildId config with
            | Normal newName =>
                if String.eqb (Channel.name c) newName then s1
                else if accepts platform (history s1) (ChannelSetName guildId id newName)
                     then renameChannel guildId id newName
                            (addEvent (ChannelSetName guildId id newName, true) s1)
                     else addEvent (ChannelSetName guildId id newName, false) s1
            | Throw _ => s1
            end
          else addEvent (MembersFetch guildId, false) s
      | None => s
      end
  | None => s
  end.

(** The state that the loop over the configs of a guild leaves, up to the
    log. *)
Definition afterSweep (platform : Platform) (guildId : Snowflake) (configs : list JSON)
  (s : Bot) : Bot :=
  fold_left (fun s config => afterTurn platform guildId config s) configs s.

(** The state that [updateAllCounters] leaves, up to the log, after the
    entries [entries] of a store whose communities are mapped to
    sequences. *)
Definition afterEntry (platform : Platform) (s : Bot) (entry : string * JSON) : Bot :=
  if existsb (String.eqb (fst entry)) (guildsCache s) then
    match snd entry with
    | JArray configs => afterSweep platform (fst entry) configs s
    | _ => s
    end
  else s.

Definition afterAll (platform : Platform) (entries : JSMap.t JSON) (s : Bot) : Bot :=
  fold_left (afterEntry platform) entries s.

(** No call among [events] was rejected. *)
Definition accepted (events : list Event) : Prop :=
  Forall (fun e : Event => snd e = true) events.

(** In every community of the store, no two configs share a channel. *)
Definition channelsDistinct (store : JSMap.t JSON) : Prop :=
  forall g configs, In (g, JArray configs) store -> NoDup (channelKeys configs).

(** A run from [s] to [s'] keeps the invariant of the [Map]
    [counterConfigs]. *)
Definition mapInvariant (s s' : Bot) : Prop :=
  JSMap.wf (counterConfigs s) -> JSMap.wf (counterConfigs s').

(** The scenario of a counter that is out of date: one [members] counter
    that reads 10, in a guild of 12 members and one bot. *)
Definition staleCounter : Bot :=
  sampleBot [("c1", voice "Total Members: 10" None)]
    (robot None :: repeat (human None) 12)
    [("g", JArray [counterConfig "c1" "members" "k1"])] None.

(** The scenario of a first set-up: a guild without channels. *)
Definition freshGuild : Bot :=
  sampleBot [] [human (Some "online"); human None; robot (Some "dnd")] [] None.

(** ** The listeners of the process *)

(** [console.log(message)]: the console shares the log with
    [logMessage]. *)
Definition consoleLog (message : string) : Async unit :=
  modify (addLog ("console.log", message)).

(** Lines 140 to 155.  [put] is the outcome of [rest.put(...)]. *)
Definition registerCommands (put : Completion unit) : Async unit :=
  tryCatch
    (consoleLog "Started refreshing application (/) commands." ;;
     lift put ;;
     consoleLog "Successfully reloaded application (/) commands.")
    (fun error => consoleError "Error registering commands:").

(** What a timer runs. *)
Inductive Job : Type :=
| UpdateAllCounters
| SaveConfigs
| UpdateGuildCounters (guild : Snowflake).

(** A timer set by [setInterval] or [setTimeout]: the job and its delay in
    milliseconds. *)
Definition Timer : Type := Job * Z.

(** Lines 157 to 172, the listener of [ready]; the result is the timers it
    sets. *)
Definition onReady (put : Completion unit) : Async (list Timer) :=
  consoleLog "Bot is ready!" ;;
  logMessage "info" "Bot started successfully" ;;
  loadConfigs ;;
  registerCommands put ;;
  ret [(UpdateAllCounters, 5 * 60 * 1000); (SaveConfigs, 10 * 60 * 1000)]%Z.

(** What the listener of [interactionCreate] reads of an interaction:
    [isChatInputCommand()], [commandName], [guild.id], the outcome of the
    two permission checks, and the options [type] and [category]. *)
Module Interaction.
Record t : Type := {
  isChatInputCommand : bool;
  commandName : string;
  guildId : Snowflake;
  manageChannels : bool;
  administrator : bool;
  type : string;
  category : string
}.
End Interaction.

Section Process.

Variable platform : Platform.

(** Lines 174 to 186, the listener of [interactionCreate].  The reply of
    [listCounterTypes] (lines 322 to 337) is built from [COUNTER_TYPES]
    alone and is not modelled. *)
Definition onInteractionCreate (interaction : Interaction.t) : Async unit :=
  if negb (Interaction.isChatInputCommand interaction) then ret tt
  else if String.eqb (Interaction.commandName interaction) "counter-setup" then
    handleCounterSetup platform (Interaction.guildId interaction)
      (Interaction.manageChannels interaction)
      (Interaction.type interaction) (Interaction.category interaction) ;;
    ret tt
  else if String.eqb (Interaction.commandName interaction) "counter-list" then
    ret tt
  else if String.eqb (Interaction.commandName interaction) "counter-reset" then
    handleCounterReset platform (Interaction.guildId interaction)
      (Interaction.administrator interaction) ;;
    ret tt
  else ret tt.

(** Lines 528 to 541: the listeners of [guildMemberAdd],
    [guildMemberRemove] and [presenceUpdate] set one timer. *)
Definition onGuildMemberChange (guildId : Snowflake) : Async (list Timer) :=
  ret [(UpdateGuildCounters guildId, 1000%Z)].

Definition onPresenceUpdate (guildId : option Snowflake) : Async (list Timer) :=
  match guildId with
  | Some guildId => ret [(UpdateGuildCounters guildId, 1000%Z)]
  | None => ret []
  end.

(** The function a timer calls. *)
Definition runJob (job : Job) : Async unit :=
  match job with
  | UpdateAllCounters => updateAllCounters platform
  | SaveConfigs => saveConfigs platform
  | UpdateGuildCounters guildId => updateGuildCounters platform guildId
  end.

(** Lines 634 to 644, the listeners of [SIGINT] and [SIGTERM]; the result
    is the exit code. *)
Definition onSignal (message : string) : Async Z :=
  logMessage "info" message ;;
  saveConfigs platform ;;
  ret 0%Z.

(** Lines 647 to 652, the listener of [unhandledRejection]. *)
Definition onUnhandledRejection (reason : Error) : Async unit :=
  logMessage "error" "Unhandled rejection".

(** Lines 654 to 661, the listener of [uncaughtException]. *)
Definition onUncaughtException (error : Error) : Async Z :=
  logMessage "error" "Uncaught exception" ;;
  saveConfigs platform ;;
  ret 1%Z.

(** What the process reacts to.  The listener of [guildCreate] (lines 544
    to 609), which logs and sends a welcome message, is left out: it reads
    and writes neither the store nor config.json. *)
Inductive Stimulus : Type :=
| Ready (put : Completion unit)
| InteractionCreate (interaction : Interaction.t)
| GuildMemberAdd (guildId : Snowflake)
| GuildMemberRemove (guildId : Snowflake)
| PresenceUpdate (guildId : option Snowflake)
| TimerFired (job : Job)
| Signal (message : string)
| UncaughtException (error : Error).

(** The reaction to a stimulus; the result is the exit code when the
    process exits.  A listener or a job that throws leaves a rejected
    promise, which the listener of [unhandledRejection] receives. *)
Definition react (stimulus : Stimulus) : Async (option Z) :=
  match stimulus with
  | Ready put => onReady put ;; ret None
  | InteractionCreate interaction =>
      tryCatch (onInteractionCreate interaction) onUnhandledRejection ;; ret None
  | GuildMemberAdd guildId => onGuildMemberChange guildId ;; ret None
  | GuildMemberRemove guildId => onGuildMemberChange guildId ;; ret None
  | PresenceUpdate guildId => onPresenceUpdate guildId ;; ret None
  | TimerFired job => tryCatch (runJob job) onUnhandledRejection ;; ret None
  | Signal message => code <- onSignal message ;; ret (Some code)
  | UncaughtException error => code <- onUncaughtException error ;; ret (Some code)
  end.

End Process.

(** ** Vocabulary of the further properties *)

(** A store as the handlers build it: distinct communities, each mapped to
    a sequence of counters. *)
Definition wellFormedStore (store : JSMap.t JSON) : Prop :=
  JSMap.wf store
  /\ forall g v, In (g, v) store ->
       exists configs : list CounterConfig, v = JArray (map configObject configs).

(** The store is well formed, and config.json, if it exists, is a document
    that [saveConfigs] wrote for a well-formed store, or what a failed
    write left of one, which cannot be parsed. *)
Definition wellFormed (s : Bot) : Prop :=
  wellFormedStore (counterConfigs s)
  /\ match configFile s with
     | None => True
     | Some Unparsable => True
     | Some (Document configData) =>
         exists lookup store,
           wellFormedStore store /\ configData = serialize lookup store
     end.

(** A run from [s] to [s'] keeps [wellFormed]. *)
Definition staysWellFormed (s s' : Bot) : Prop := wellFormed s -> wellFormed s'.

(** The states of a bot whose config.json nobody else writes: a first
    launch finds no file and has an empty store; the process reacts to a
    stimulus; the world around it changes; a new process starts on the file
    that the former one left. *)
Inductive reachable (platform : Platform) : Bot -> Prop :=
| FirstLaunch s :
    counterConfigs s = [] -> configFile s = None -> reachable platform s
| Reaction s stimulus :
    reachable platform s -> reachable platform (exec (react platform stimulus) s)
| WorldChange s s' :
    reachable platform s ->
    counterConfigs s' = counterConfigs s -> configFile s' = configFile s ->
    reachable platform s'
| NewProcess s s' :
    reachable platform s ->
    counterConfigs s' = [] -> configFile s' = configFile s ->
    reachable platform s'.

(** The key under which the teardown looks the category of a config up:
    [config.categoryId] when it is a string. *)
Definition categoryKey (config : JSON) : option Snowflake :=
  match JS.getProp config "categoryId" with
  | Normal (Some (JString id)) => Some id
  | _ => None
  end.

(** From [s] to [s'] the channel [x] stays cached as [cx], the cache of
    [guildId] holds under [cat] what it held, and no deletion of [cat] was
    issued, by [category.delete()] or by [channel.delete()]. *)
Definition spares (guildId x : Snowflake) (cx : Channel.t) (cat : Snowflake) (s s' : Bot)
  : Prop :=
  JSMap.get x (channelsOf s' guildId) = Some cx
  /\ JSMap.get cat (channelsOf s' guildId) = JSMap.get cat (channelsOf s guildId)
  /\ exists events,
       history s' = (history s ++ events)%list
       /\ Forall (fun e : Event =>
                    fst e <> CategoryDelete guildId cat
                    /\ fst e <> ChannelDelete guildId cat) events.



(** The guild that a call is about. *)
Definition guildOf (r : Request) : option Snowflake :=
  match r with
  | MembersFetch g => Some g
  | ChannelCreate g _ _ _ => Some g
  | ChannelSetName g _ _ => Some g
  | ChannelDelete g _ => Some g
  | CategoryDelete g _ => Some g
  | WriteFile _ => None
  end.

Definition isFetch (e : Event) : bool :=
  match fst e with
  | MembersFetch _ => true
  | _ => false
  end.

(** The configs of [configs] whose channel the cache of [guildId] holds. *)
Definition cachedCounters (s : Bot) (guildId : Snowflake) (configs : list JSON)
  : list JSON :=
  filter (fun config =>
            match channelKey config with
            | Some id => JSMap.has id (channelsOf s guildId)
            | None => false
            end) configs.

(** The run from [s] to [s'] left the client's guild cache alone and
    issued calls about the guild [guildId] only. *)
Definition callsAbout (guildId : Snowflake) (s s' : Bot) : Prop :=
  guildsCache s' = guildsCache s
  /\ exists events,
       history s' = (history s ++ events)%list
       /\ Forall (fun e : Event => guildOf (fst e) = Some guildId) events.

(** The state once the cache of [guildId] holds the channel [c] under
    [id]. *)
Definition cacheChannel (guildId id : Snowflake) (c : Channel.t) (s : Bot) : Bot :=
  setChannels guildId (JSMap.set id c (channelsOf s guildId)) s.

(** The configs that the store holds for a community, when it holds a
    sequence. *)
Definition configsOf (s : Bot) (guildId : Snowflake) : list JSON :=
  match JSMap.get guildId (counterConfigs s) with
  | Some (JArray elems) => elems
  | _ => []
  end.

(** The category that [handleCounterSetup] cannot find and creates. *)
Definition categoryCreation (guildId : Snowflake) (categoryName : string) : Request :=
  ChannelCreate guildId categoryName GuildCategory None.

(** The run from [s] to [s'] issued only calls that [allowed] admits. *)
Definition issuesOnly (allowed : Request -> bool) (s s' : Bot) : Prop :=
  exists events,
    history s' = (history s ++ events)%list
    /\ Forall (fun e : Event => allowed (fst e) = true) events.

(** The calls of a set-up in the guild [guildId]. *)
Definition setupCall (guildId : Snowflake) (r : Request) : bool :=
  match r with
  | ChannelCreate g _ _ _ => String.eqb g guildId
  | MembersFetch g => String.eqb g guildId
  | WriteFile _ => true
  | _ => false
  end.

(** The calls of a teardown in the guild [guildId]. *)
Definition resetCall (guildId : Snowflake) (r : Request) : bool :=
  match r with
  | ChannelDelete g _ => String.eqb g guildId
  | CategoryDelete g _ => String.eqb g guildId
  | WriteFile _ => true
  | _ => false
  end.

(** The calls of a sweep. *)
Definition sweepCall (r : Request) : bool :=
  match r with
  | MembersFetch _ => true
  | ChannelSetName _ _ _ => true
  | _ => false
  end.

(** From [s] to [s'], every channel that the cache of [guildId] holds
    before and after has kept its type and its parent. *)
Definition sameShape (guildId : Snowflake) (s s' : Bot) : Prop :=
  forall id c c',
    JSMap.get id (channelsOf s guildId) = Some c ->
    JSMap.get id (channelsOf s' guildId) = Some c' ->
    Channel.type c' = Channel.type c /\ Channel.parentId c' = Channel.parentId c.

(** * Properties *)

Unset Implicit Arguments.

(** ** Statistic evaluator *)

Lemma filterSize_bounds (p : GuildMember -> bool) (ms : list GuildMember) :
  (0 <= filterSize p ms <= Z.of_nat (List.length ms))%Z.
Proof.
  unfold filterSize. pose proof (filter_length_le p ms). lia.
Qed.

Lemma filterSize_split (p q r : GuildMember -> bool) (ms : list GuildMember) :
  Forall (fun m => p m = true -> xorb (q m) (r m) = true) ms ->
  (filterSize (fun m => p m && q m) ms + filterSize (fun m => p m && r m) ms
   = filterSize p ms)%Z.
Proof.
  unfold filterSize. intros H.
  enough (List.length (filter (fun m => p m && q m) ms)
          + List.length (filter (fun m => p m && r m) ms)
          = List.length (filter p ms))%nat by lia.
  induction H as [|m ms Hm _ IH]; simpl; [reflexivity|].
  destruct (p m); simpl.
  - specialize (Hm eq_refl).
    destruct (q m), (r m); simpl in *; try discriminate; lia.
  - lia.
Qed.

Lemma online_xor_offline (m : GuildMember) :
  validPresence m -> xorb (online m) (offline m) = true.
Proof.
  unfold validPresence, online, offline. destruct (presence m) as [st|]; simpl.
  - intros [<-|[<-|[<-|[<-|[]]]]]; reflexivity.
  - reflexivity.
Qed.

Lemma countForType_bounds (ms : list GuildMember) (type : option JSON) :
  (0 <= countForType ms type <= Z.of_nat (List.length ms))%Z.
Proof.
  unfold countForType.
  destruct type as [[| | |t| |]|]; try lia.
  repeat match goal with
         | |- context [if ?b then _ else _] => destruct b
         end; first [apply filterSize_bounds | lia].
Qed.

(** C2.  On a snapshot whose members have a presence status among online,
    idle, dnd, offline or none, [evaluate] returns, for every kind, an
    integer between 0 and the size of the snapshot; members and bots add up
    to the size, online-members and offline-members to members, and
    online-bots and offline-bots to bots. *)
Theorem evaluate_counts (snapshot : list GuildMember) :
  Forall validPresence snapshot ->
  (forall kind : string,
      0 <= evaluate kind snapshot <= Z.of_nat (List.length snapshot))%Z
  /\ (evaluate "members" snapshot + evaluate "bots" snapshot
      = Z.of_nat (List.length snapshot))%Z
  /\ (evaluate "online-members" snapshot + evaluate "offline-members" snapshot
      = evaluate "members" snapshot)%Z
  /\ (evaluate "online-bots" snapshot + evaluate "offline-bots" snapshot
      = evaluate "bots" snapshot)%Z.
Proof.
  intros Hvalid. repeat split.
  - apply countForType_bounds.
  - apply countForType_bounds.
  - unfold evaluate, countForType, filterSize; simpl.
    pose proof (filter_length (fun m => bot m) snapshot) as H. lia.
  - unfold evaluate, countForType; simpl.
    apply (filterSize_split (fun m => negb (bot m)) online offline).
    eapply Forall_impl; [|exact Hvalid].
    intros m Hm _. now apply online_xor_offline.
  - unfold evaluate, countForType; simpl.
    apply (filterSize_split (fun m => bot m) online offline).
    eapply Forall_impl; [|exact Hvalid].
    intros m Hm _. now apply online_xor_offline.
Qed.

Lemma evaluate_counts_witness :
  let snapshot :=
    [ {| bot := false; rolesSize := 2; presence := Some "idle" |};
      {| bot := true; rolesSize := 1; presence := None |};
      {| bot := false; rolesSize := 1; presence := Some "offline" |} ] in
  Forall validPresence snapshot
  /\ (evaluate "online-members" snapshot + evaluate "offline-members" snapshot
      = evaluate "members" snapshot)%Z.
Proof.
  intros snapshot.
  assert (H : Forall validPresence snapshot).
  { repeat apply Forall_cons; try apply Forall_nil;
      unfold validPresence; simpl; auto 6. }
  split; [exact H|].
  exact (proj1 (proj2 (proj2 (evaluate_counts _ H)))).
Defined.

(** ** Maps *)

Section MapFacts.
Context {V : Type}.
Implicit Types (m : JSMap.t V) (k : string) (v : V).

Lemma get_set_eq k v m : JSMap.get k (JSMap.set k v m) = Some v.
Proof.
  induction m as [|[k' v'] m IH]; simpl.
  - now rewrite String.eqb_refl.
  - destruct (String.eqb k k') eqn:E; simpl; rewrite E; auto.
Qed.

Lemma get_set_ne k k' v m : k' <> k -> JSMap.get k' (JSMap.set k v m) = JSMap.get k' m.
Proof.
  intros Hne. induction m as [|[k0 v0] m IH]; simpl.
  - apply String.eqb_neq in Hne. now rewrite Hne.
  - destruct (String.eqb k k0) eqn:E; simpl.
    + apply String.eqb_eq in E. subst k0.
      apply String.eqb_neq in Hne. now rewrite Hne.
    + now rewrite IH.
Qed.


Lemma get_delete_ne k k' m : k' <> k -> JSMap.get k' (JSMap.delete k m) = JSMap.get k' m.
Proof.
  intros Hne. induction m as [|[k0 v0] m IH]; simpl; [reflexivity|].
  destruct (String.eqb k k0) eqn:E; simpl.
  - apply String.eqb_eq in E. subst k0.
    apply String.eqb_neq in Hne. now rewrite Hne.
  - now rewrite IH.
Qed.

Lemma get_None_iff k m : JSMap.get k m = None <-> ~ In k (JSMap.keys m).
Proof.
  induction m as [|[k0 v0] m IH]; simpl; [tauto|].
  destruct (String.eqb k k0) eqn:E.
  - apply String.eqb_eq in E. subst. split; [discriminate|tauto].
  - apply String.eqb_neq in E. rewrite IH. split; [|tauto].
    intros H [Heq|Hin]; [now apply E|now apply H].
Qed.

Lemma set_fresh k v m : ~ In k (JSMap.keys m) -> JSMap.set k v m = (m ++ [(k, v)])%list.
Proof.
  induction m as [|[k0 v0] m IH]; simpl; [reflexivity|].
  intros Hnotin. destruct (String.eqb k k0) eqn:E.
  - apply String.eqb_eq in E. subst. exfalso. apply Hnotin. now left.
  - rewrite IH; [reflexivity|]. intros H. apply Hnotin. now right.
Qed.

Lemma keys_set k v m : forall k', In k' (JSMap.keys (JSMap.set k v m)) <-> k' = k \/ In k' (JSMap.keys m).
Proof.
  intros k'. induction m as [|[k0 v0] m IH]; simpl; [intuition|].
  destruct (String.eqb k k0) eqn:E; simpl.
  - apply String.eqb_eq in E. subst. intuition.
  - rewrite IH. intuition.
Qed.

Lemma keys_delete k m : forall k', In k' (JSMap.keys (JSMap.delete k m)) -> In k' (JSMap.keys m).
Proof.
  intros k'. induction m as [|[k0 v0] m IH]; simpl; [tauto|].
  destruct (String.eqb k k0); simpl; intuition.
Qed.

Lemma get_alter (f : V -> V) k k' m :
  JSMap.get k' (JSMap.alter f k m)
  = if String.eqb k' k then option_map f (JSMap.get k' m) else JSMap.get k' m.
Proof.
  induction m as [|[k0 v0] m IH]; simpl.
  - now destruct (String.eqb k' k).
  - destruct (String.eqb k k0) eqn:E; simpl.
    + apply String.eqb_eq in E. subst k0.
      destruct (String.eqb k' k); reflexivity.
    + rewrite IH. destruct (String.eqb k' k0) eqn:E'; [|reflexivity].
      apply String.eqb_eq in E'. subst k0.
      rewrite String.eqb_sym, E. reflexivity.
Qed.

End MapFacts.

(** Assigning the entries of a map, in order, to the properties of an
    object (or to the keys of another map) appends them. *)
Lemma fold_set_wf {V W : Type} (f : string * V -> W) (l : JSMap.t V)
  (acc : JSMap.t W) :
  NoDup (JSMap.keys acc ++ JSMap.keys l) ->
  fold_left (fun obj entry => JSMap.set (fst entry) (f entry) obj) l acc
  = (acc ++ map (fun entry => (fst entry, f entry)) l)%list.
Proof.
  revert acc. induction l as [|[k v] l IH]; intros acc Hnd; cbn [fold_left map fst].
  - now rewrite app_nil_r.
  - assert (Hk : ~ In k (JSMap.keys acc)).
    { intros Hin. apply NoDup_remove_2 in Hnd. apply Hnd.
      apply in_or_app. now left. }
    rewrite set_fresh by exact Hk.
    rewrite IH.
    + now rewrite <- app_assoc.
    + unfold JSMap.keys in *. rewrite map_app. cbn [map fst].
      rewrite <- app_assoc. exact Hnd.
Qed.

(** ** The order of the own properties *)

Section OwnOrderFacts.
Context {A : Type}.
Implicit Types (m l : list (string * A)) (e : string * A).

Lemma insert_perm e l : Permutation (JS.insert e l) (e :: l).
Proof.
  induction l as [|e' l IH]; simpl; [reflexivity|].
  destruct (JS.indexOf e' <? JS.indexOf e)%N; [|reflexivity].
  rewrite IH. apply perm_swap.
Qed.

Lemma ascending_perm l : Permutation (JS.ascending l) l.
Proof.
  induction l as [|e l IH]; simpl; [reflexivity|].
  rewrite insert_perm. now constructor.
Qed.

Lemma partition_perm (p : string * A -> bool) l :
  Permutation (filter p l ++ filter (fun e => negb (p e)) l)%list l.
Proof.
  induction l as [|e l IH]; simpl; [reflexivity|].
  destruct (p e); simpl.
  - now constructor.
  - rewrite <- Permutation_middle. now constructor.
Qed.

Lemma ownOrder_perm m : Permutation (JS.ownOrder m) m.
Proof.
  unfold JS.ownOrder. rewrite ascending_perm. apply partition_perm.
Qed.

Lemma ownOrder_In m e : In e (JS.ownOrder m) <-> In e m.
Proof.
  split; apply Permutation_in; [|symmetry]; apply ownOrder_perm.
Qed.

Lemma ownOrder_keys m : Permutation (JSMap.keys (JS.ownOrder m)) (JSMap.keys m).
Proof. apply Permutation_map, ownOrder_perm. Qed.

Lemma ownOrder_wf m : JSMap.wf m -> JSMap.wf (JS.ownOrder m).
Proof.
  unfold JSMap.wf. apply Permutation_NoDup. symmetry. apply ownOrder_keys.
Qed.

Lemma insert_sorted e l :
  StronglySorted indexLe l -> StronglySorted indexLe (JS.insert e l).
Proof.
  induction 1 as [|e' l Hsorted IH Hall]; simpl.
  - repeat constructor.
  - destruct (JS.indexOf e' <? JS.indexOf e)%N eqn:E.
    + apply N.ltb_lt in E. constructor; [exact IH|].
      eapply Permutation_Forall; [symmetry; apply insert_perm|].
      constructor; [unfold indexLe; lia|exact Hall].
    + apply N.ltb_ge in E. constructor; [now constructor|].
      constructor; [exact E|].
      revert Hall. apply Forall_impl. unfold indexLe. intros e0. lia.
Qed.

Lemma ascending_sorted l : StronglySorted indexLe (JS.ascending l).
Proof.
  induction l as [|e l IH]; simpl; [constructor|now apply insert_sorted].
Qed.

Lemma ascending_of_sorted l : StronglySorted indexLe l -> JS.ascending l = l.
Proof.
  induction 1 as [|e l Hsorted IH Hall]; simpl; [reflexivity|].
  rewrite IH. destruct l as [|e' l]; [reflexivity|]. simpl.
  apply Forall_inv in Hall. unfold indexLe in Hall.
  destruct (JS.indexOf e' <? JS.indexOf e)%N eqn:E; [|reflexivity].
  apply N.ltb_lt in E. lia.
Qed.

Lemma filter_sorted (p : string * A -> bool) l :
  StronglySorted indexLe l -> StronglySorted indexLe (filter p l).
Proof.
  induction 1 as [|e l Hsorted IH Hall]; simpl; [constructor|].
  destruct (p e); [|exact IH].
  constructor; [exact IH|].
  apply Forall_forall. intros e' Hin. apply filter_In in Hin.
  rewrite Forall_forall in Hall. now apply Hall.
Qed.

Lemma filter_all (p : string * A -> bool) l :
  Forall (fun e => p e = true) l -> filter p l = l.
Proof.
  induction 1 as [|e l He _ IH]; simpl; [reflexivity|]. now rewrite He, IH.
Qed.

Lemma filter_none (p : string * A -> bool) l :
  Forall (fun e => p e = false) l -> filter p l = [].
Proof.
  induction 1 as [|e l He _ IH]; simpl; [reflexivity|]. now rewrite He.
Qed.

Lemma filter_sub (p q : string * A -> bool) l :
  Forall (fun e => q e = true) l -> Forall (fun e => q e = true) (filter p l).
Proof.
  intros H. apply Forall_forall. intros e Hin. apply filter_In in Hin.
  rewrite Forall_forall in H. now apply H.
Qed.

Lemma ascending_indices m :
  Forall (fun e => JS.isIndex e = true) (JS.ascending (filter (@JS.isIndex A) m)).
Proof.
  eapply Permutation_Forall; [symmetry; apply ascending_perm|].
  apply Forall_forall. intros e Hin. now apply filter_In in Hin.
Qed.

Lemma others_not_indices m :
  Forall (fun e => negb (JS.isIndex e) = true)
    (filter (fun e => negb (JS.isIndex e)) m).
Proof.
  apply Forall_forall. intros e Hin. now apply filter_In in Hin.
Qed.

Lemma ownOrder_of_parts (indices others : list (string * A)) :
  Forall (fun e => JS.isIndex e = true) indices ->
  StronglySorted indexLe indices ->
  Forall (fun e => negb (JS.isIndex e) = true) others ->
  JS.ownOrder (indices ++ others)%list = (indices ++ others)%list.
Proof.
  intros Hindices Hsorted Hothers. unfold JS.ownOrder. rewrite !filter_app.
  rewrite (filter_all _ _ Hindices), (filter_all _ _ Hothers).
  rewrite (filter_none (@JS.isIndex A) others).
  2:{ revert Hothers. apply Forall_impl. intros e. now destruct (JS.isIndex e). }
  rewrite (filter_none (fun e => negb (JS.isIndex e)) indices).
  2:{ revert Hindices. apply Forall_impl. intros e He. now rewrite He. }
  rewrite app_nil_r. simpl. now rewrite ascending_of_sorted.
Qed.

(** A selection of the properties, made in the order of visit, is
    visited in the order in which it was made. *)
Lemma ownOrder_filter (p : string * A -> bool) m :
  JS.ownOrder (filter p (JS.ownOrder m)) = filter p (JS.ownOrder m).
Proof.
  unfold JS.ownOrder at 2 3. rewrite filter_app.
  apply ownOrder_of_parts.
  - apply filter_sub, ascending_indices.
  - apply filter_sorted, ascending_sorted.
  - apply (filter_sub p (fun e => negb (JS.isIndex e))), others_not_indices.
Qed.

Lemma ownOrder_idempotent m : JS.ownOrder (JS.ownOrder m) = JS.ownOrder m.
Proof.
  rewrite <- (filter_all (fun _ => true) (JS.ownOrder m)) at 1.
  - rewrite ownOrder_filter. apply filter_all. apply Forall_forall. reflexivity.
  - apply Forall_forall. reflexivity.
Qed.

(** Without array indices among the keys, the order of visit is the
    order of creation. *)
Lemma ownOrder_plain m :
  (forall k, In k (JSMap.keys m) -> JS.arrayIndex k = None) -> JS.ownOrder m = m.
Proof.
  intros Hplain. unfold JS.ownOrder.
  assert (H : Forall (fun e => JS.isIndex e = false) m).
  { apply Forall_forall. intros e Hin. unfold JS.isIndex.
    rewrite (Hplain (fst e)); [reflexivity|]. now apply in_map. }
  rewrite (filter_none _ _ H). simpl. apply filter_all.
  revert H. apply Forall_impl. intros e He. now rewrite He.
Qed.

End OwnOrderFacts.

Section OwnOrderMap.
Context {A B : Type}.
Variable f : string * A -> B.

Lemma insert_map e l :
  JS.insert (fst e, f e) (map (fun e => (fst e, f e)) l)
  = map (fun e => (fst e, f e)) (JS.insert e l).
Proof.
  induction l as [|e' l IH]; simpl; [reflexivity|].
  unfold JS.indexOf at 1 2. simpl. fold (JS.indexOf e') (JS.indexOf e).
  destruct (JS.indexOf e' <? JS.indexOf e)%N; simpl; [now rewrite IH|reflexivity].
Qed.

Lemma ascending_map l :
  JS.ascending (map (fun e => (fst e, f e)) l)
  = map (fun e => (fst e, f e)) (JS.ascending l).
Proof.
  induction l as [|e l IH]; simpl; [reflexivity|].
  now rewrite IH, insert_map.
Qed.

Lemma filter_map_key (p : string -> bool) l :
  filter (fun e => p (fst e)) (map (fun e => (fst e, f e)) l)
  = map (fun e => (fst e, f e)) (filter (fun e => p (fst e)) l).
Proof.
  induction l as [|e l IH]; simpl; [reflexivity|].
  destruct (p (fst e)); simpl; now rewrite IH.
Qed.

(** The order of visit depends on the keys only. *)
Lemma ownOrder_map l :
  JS.ownOrder (map (fun e => (fst e, f e)) l)
  = map (fun e => (fst e, f e)) (JS.ownOrder l).
Proof.
  unfold JS.ownOrder. rewrite map_app, <- ascending_map. f_equal.
  - f_equal.
    apply (filter_map_key
             (fun k => match JS.arrayIndex k with Some _ => true | None => false end)).
  - apply (filter_map_key
             (fun k => negb match JS.arrayIndex k with Some _ => true | None => false end)).
Qed.

End OwnOrderMap.

Section MapOrderFacts.
Context {V : Type}.
Implicit Types (m : JSMap.t V) (k : string) (v : V).

Lemma get_In k v m : JSMap.get k m = Some v -> In (k, v) m.
Proof.
  induction m as [|[k0 v0] m IH]; simpl; [discriminate|].
  destruct (String.eqb k k0) eqn:E.
  - apply String.eqb_eq in E. subst k0. intros [= ->]. now left.
  - intros H. right. now apply IH.
Qed.




Lemma filter_wf (p : string * V -> bool) m : JSMap.wf m -> JSMap.wf (filter p m).
Proof.
  unfold JSMap.wf, JSMap.keys. induction m as [|e m IH]; simpl; [auto|].
  intros Hnd. apply NoDup_cons_iff in Hnd. destruct Hnd as [Hfresh Hnd].
  destruct (p e); simpl; [|now apply IH].
  constructor; [|now apply IH].
  intros Hin. apply Hfresh. apply in_map_iff in Hin.
  destruct Hin as (e' & Heq & Hin). apply filter_In in Hin.
  rewrite <- Heq. now apply in_map.
Qed.


End MapOrderFacts.

Lemma persisted_wf store : JSMap.wf store -> JSMap.wf (persisted store).
Proof. apply filter_wf. Qed.


Lemma persisted_plain store :
  JSMap.get "__proto__" store = None -> persisted store = store.
Proof.
  intros H. apply filter_all. apply Forall_forall. intros [k v] Hin. simpl.
  destruct (String.eqb k "__proto__") eqn:E; [|reflexivity].
  apply String.eqb_eq in E. subst k. apply get_None_iff in H.
  exfalso. apply H. now apply (in_map fst) in Hin.
Qed.

(** Assigning the entries of a [Map], in order, to the properties of an
    object creates them in that order, but for the key [__proto__]. *)
Lemma fold_assign_wf (f : string * JSON -> JSON) (l : JSMap.t JSON)
  (acc : list (string * JSON)) :
  NoDup (JSMap.keys acc ++ JSMap.keys l) ->
  fold_left (fun obj entry => assign (fst entry) (f entry) obj) l acc
  = (acc ++ map (fun entry => (fst entry, f entry)) (persisted l))%list.
Proof.
  revert acc. induction l as [|[k v] l IH]; intros acc Hnd; cbn [fold_left fst].
  - simpl. now rewrite app_nil_r.
  - unfold assign at 2, persisted. cbn [filter fst].
    destruct (String.eqb k "__proto__"); cbn [negb].
    + apply IH. cbn [JSMap.keys map fst] in Hnd. now apply NoDup_remove_1 in Hnd.
    + assert (Hk : ~ In k (JSMap.keys acc)).
      { intros Hin. apply NoDup_remove_2 in Hnd. apply Hnd.
        apply in_or_app. now left. }
      rewrite set_fresh by exact Hk.
      rewrite IH.
      * cbn [map fst]. now rewrite <- app_assoc.
      * unfold JSMap.keys in *. rewrite map_app. cbn [map fst].
        rewrite <- app_assoc. exact Hnd.
Qed.

(** ** Running asynchronous functions *)

Lemma bind_normal {A B : Type} (m : Async A) (f : A -> Async B) s a s' :
  m s = (Normal a, s') -> bind m f s = f a s'.
Proof. unfold bind. now intros ->. Qed.

Lemma bind_throw {A B : Type} (m : Async A) (f : A -> Async B) s e s' :
  m s = (Throw e, s') -> bind m f s = (Throw e, s').
Proof. unfold bind. now intros ->. Qed.

Lemma setCounterConfigs_same s : setCounterConfigs (counterConfigs s) s = s.
Proof. now destruct s. Qed.

Section Keeps.
Variable R : Bot -> Bot -> Prop.
Hypothesis R_refl : forall s, R s s.
Hypothesis R_trans : forall s1 s2 s3, R s1 s2 -> R s2 s3 -> R s1 s3.

Lemma keeps_ret {A : Type} (a : A) : keeps R (ret a).
Proof. intros s. apply R_refl. Qed.

Lemma keeps_throw {A : Type} (e : Error) : keeps R (@throw A e).
Proof. intros s. apply R_refl. Qed.

Lemma keeps_lift {A : Type} (c : Completion A) : keeps R (lift c).
Proof. intros s. apply R_refl. Qed.

Lemma keeps_gets {A : Type} (f : Bot -> A) : keeps R (gets f).
Proof. intros s. apply R_refl. Qed.

Lemma keeps_modify (f : Bot -> Bot) : (forall s, R s (f s)) -> keeps R (modify f).
Proof. intros H s. apply H. Qed.

Lemma keeps_bind {A B : Type} (m : Async A) (f : A -> Async B) :
  keeps R m -> (forall a, keeps R (f a)) -> keeps R (bind m f).
Proof.
  intros Hm Hf s. unfold exec, bind. specialize (Hm s). unfold exec in Hm.
  destruct (m s) as [[a|e] s']; simpl in *; [|assumption].
  eapply R_trans; [exact Hm|apply Hf].
Qed.

Lemma keeps_tryCatch {A : Type} (m : Async A) (h : Error -> Async A) :
  keeps R m -> (forall e, keeps R (h e)) -> keeps R (tryCatch m h).
Proof.
  intros Hm Hh s. unfold exec, tryCatch. specialize (Hm s). unfold exec in Hm.
  destruct (m s) as [[a|e] s']; simpl in *; [assumption|].
  eapply R_trans; [exact Hm|apply Hh].
Qed.

Lemma keeps_forOf {X : Type} (l : list X) (body : X -> Async unit) :
  (forall x, keeps R (body x)) -> keeps R (forOf l body).
Proof.
  intros Hbody. induction l as [|x l IH]; simpl.
  - apply keeps_ret.
  - apply keeps_bind; auto.
Qed.

Lemma keeps_forOfWith {X L : Type} (l : list X) (acc : L) (body : L -> X -> Async L) :
  (forall acc x, keeps R (body acc x)) -> keeps R (forOfWith l acc body).
Proof.
  intros Hbody. revert acc. induction l as [|x l IH]; intros acc; simpl.
  - apply keeps_ret.
  - apply keeps_bind; auto.
Qed.

End Keeps.

(** Decomposes a goal [keeps R m] along the structure of [m]; [prim]
    settles the state updates. *)
Ltac keeps_with Hrefl Htrans prim :=
  repeat first
    [ apply (keeps_ret _ Hrefl)
    | apply (keeps_throw _ Hrefl)
    | apply (keeps_lift _ Hrefl)
    | apply (keeps_gets _ Hrefl)
    | apply (keeps_bind _ Htrans); [|intros]
    | apply (keeps_tryCatch _ Htrans); [|intros]
    | apply (keeps_forOf _ Hrefl Htrans); intros
    | apply (keeps_forOfWith _ Hrefl Htrans); intros
    | apply keeps_modify; intros; solve [prim]
    | match goal with
      | |- keeps _ (match ?x with _ => _ end) => destruct x
      | |- keeps _ (let _ := _ in _) => cbv zeta
      end
    | solve [prim] ].

Lemma sameStore_refl s : sameStore s s.
Proof. reflexivity. Qed.

Lemma sameStore_trans s1 s2 s3 : sameStore s1 s2 -> sameStore s2 s3 -> sameStore s1 s3.
Proof. unfold sameStore. congruence. Qed.

Lemma sameFile_refl s : sameFile s s.
Proof. reflexivity. Qed.

Lemma sameFile_trans s1 s2 s3 : sameFile s1 s2 -> sameFile s2 s3 -> sameFile s1 s3.
Proof. unfold sameFile. congruence. Qed.



Ltac keeps_file := keeps_with sameFile_refl sameFile_trans ltac:(reflexivity).




Lemma await_store platform r : keeps sameStore (await platform r).
Proof. intros s. reflexivity. Qed.

Lemma await_file platform r : keeps sameFile (await platform r).
Proof. intros s. reflexivity. Qed.

Lemma logMessage_store level message : keeps sameStore (logMessage level message).
Proof. intros s. reflexivity. Qed.

(** ** The sweeps leave the store alone *)

Ltac store_prim :=
  first [ reflexivity | apply await_store | apply logMessage_store ].

Lemma renameIfChanged_store platform guildId config updated :
  (forall newName, keeps sameStore (updated newName)) ->
  keeps sameStore (renameIfChanged platform guildId config updated).
Proof.
  intros Hupdated.
  unfold renameIfChanged, channelsCacheGet, getCountForType, setName.
  keeps_with sameStore_refl sameStore_trans ltac:(first [store_prim | apply Hupdated]).
Qed.

Lemma updateAllCounters_store platform : keeps sameStore (updateAllCounters platform).
Proof.
  unfold updateAllCounters, updateAllTurn.
  keeps_with sameStore_refl sameStore_trans
    ltac:(first [store_prim
                | apply renameIfChanged_store; intros; apply logMessage_store]).
Qed.

Lemma updateGuildCounters_store platform guildId :
  keeps sameStore (updateGuildCounters platform guildId).
Proof.
  unfold updateGuildCounters, updateGuildTurn, consoleError.
  keeps_with sameStore_refl sameStore_trans
    ltac:(first [store_prim
                | apply renameIfChanged_store; intros; apply keeps_ret;
                  apply sameStore_refl]).
Qed.

(** C9.  Neither sweep changes the configuration store, whatever the
    platform answers; and the turn of either sweep for a config whose
    channel is not in the guild's channel cache completes without a call,
    without a log entry and without any other change of state, so the
    config is still in the store. *)
Theorem sweeps_never_mutate_store (platform : Platform) :
  (forall s, counterConfigs (exec (updateAllCounters platform) s) = counterConfigs s)
  /\ (forall guildId s,
         counterConfigs (exec (updateGuildCounters platform guildId) s)
         = counterConfigs s)
  /\ (forall guildId config channelId s,
         JS.getProp config "channelId" = Normal channelId ->
         result (channelsCacheGet guildId channelId) s = Normal None ->
         updateAllTurn platform guildId config s = (Normal tt, s)
         /\ updateGuildTurn platform guildId config s = (Normal tt, s)).
Proof.
  split; [|split].
  - intros s. apply (updateAllCounters_store platform s).
  - intros guildId s. apply (updateGuildCounters_store platform guildId s).
  - intros guildId config channelId s Hid Hmissing.
    unfold updateAllTurn, updateGuildTurn, tryCatch, renameIfChanged, bind, lift.
    rewrite Hid.
    unfold result, channelsCacheGet, gets in *. simpl in *.
    injection Hmissing as ->. split; reflexivity.
Qed.

Lemma sweeps_never_mutate_store_witness :
  let s := sampleBot [("kept", voice "Total Members: 1" None)] [human None]
             [("g", JArray [counterConfig "gone" "members" "stats"])] None in
  let config := counterConfig "gone" "members" "stats" in
  JS.getProp config "channelId" = Normal (Some (JString "gone"))
  /\ result (channelsCacheGet "g" (Some (JString "gone"))) s = Normal None
  /\ updateAllTurn accepting "g" config s = (Normal tt, s)
  /\ updateGuildTurn accepting "g" config s = (Normal tt, s).
Proof.
  intros s config. split; [reflexivity|]. split; [reflexivity|].
  apply (proj2 (proj2 (sweeps_never_mutate_store accepting))
           "g" config (Some (JString "gone"))); reflexivity.
Defined.

(** ** Snapshot codec *)

Lemma loadEntry_array guildId configs s :
  JS.isArray configs = true ->
  loadEntry (guildId, configs) s
  = (Normal tt, setCounterConfigs (JSMap.set guildId configs (counterConfigs s)) s).
Proof.
  intros H. unfold loadEntry. simpl. now rewrite H.
Qed.

Lemma loadEntry_newShape guildId serverName configs s :
  JS.isArray configs = true ->
  loadEntry (guildId, newShape serverName configs) s
  = (Normal tt, setCounterConfigs (JSMap.set guildId configs (counterConfigs s)) s).
Proof.
  intros H. unfold loadEntry, bind, lift, modify. simpl.
  destruct configs; try discriminate. reflexivity.
Qed.

(** The loop of [loadConfigs] reads the store and nothing else. *)
Lemma loadEntry_store_only entry s1 s2 :
  counterConfigs s1 = counterConfigs s2 ->
  fst (loadEntry entry s1) = fst (loadEntry entry s2)
  /\ counterConfigs (snd (loadEntry entry s1)) = counterConfigs (snd (loadEntry entry s2)).
Proof.
  intros H. unfold loadEntry, bind, lift, modify, ret.
  destruct (JS.isArray (snd entry)); simpl; [now rewrite H|].
  destruct (JS.getProp (snd entry) "configs") as [[c|]|e]; simpl; auto.
  destruct (JS.truthy c); simpl; [now rewrite H|auto].
Qed.

Lemma loadEntries_store_only entries s1 s2 :
  counterConfigs s1 = counterConfigs s2 ->
  fst (forOf entries loadEntry s1) = fst (forOf entries loadEntry s2)
  /\ counterConfigs (snd (forOf entries loadEntry s1))
     = counterConfigs (snd (forOf entries loadEntry s2)).
Proof.
  revert s1 s2. induction entries as [|entry entries IH]; intros s1 s2 H; simpl.
  - auto.
  - destruct (loadEntry_store_only entry s1 s2 H) as [Hfst Hsnd].
    unfold bind.
    destruct (loadEntry entry s1) as [[[]|e1] s1'],
             (loadEntry entry s2) as [[[]|e2] s2']; simpl in *;
      try discriminate; auto.
Qed.

(** The loop of [loadConfigs] only adds communities it is given. *)
Lemma loadEntry_keys entry s k :
  In k (JSMap.keys (counterConfigs (snd (loadEntry entry s)))) ->
  k = fst entry \/ In k (JSMap.keys (counterConfigs s)).
Proof.
  unfold loadEntry, bind, lift, modify, ret.
  destruct (JS.isArray (snd entry)); simpl; [apply keys_set|].
  destruct (JS.getProp (snd entry) "configs") as [[c|]|e]; simpl; auto.
  destruct (JS.truthy c); simpl; [apply keys_set|auto].
Qed.

Lemma loadEntries_keys entries s k :
  In k (JSMap.keys (counterConfigs (snd (forOf entries loadEntry s)))) ->
  In k (map fst entries) \/ In k (JSMap.keys (counterConfigs s)).
Proof.
  revert s. induction entries as [|entry entries IH]; intros s; simpl; [auto|].
  unfold bind. pose proof (loadEntry_keys entry s k) as Hentry.
  destruct (loadEntry entry s) as [[[]|e] s']; simpl in *.
  - intros H. apply IH in H. destruct H as [H|H]; [auto|].
    apply Hentry in H. destruct H; auto.
  - intros H. apply Hentry in H. destruct H; auto.
Qed.

(** What [loadConfigs] leaves in the store, by cases on the file. *)
Lemma loadConfigs_store s :
  counterConfigs (exec loadConfigs s)
  = match configFile s with
    | Some (Document configData) =>
        match JS.getProp configData "counterConfigs" with
        | Normal (Some mapping) =>
            if JS.truthy mapping
            then counterConfigs
                   (exec (forOf (JS.entries mapping) loadEntry)
                      (setCounterConfigs (JSMap.empty JSON) s))
            else counterConfigs s
        | _ => counterConfigs s
        end
    | _ => counterConfigs s
    end.
Proof.
  unfold loadConfigs, exec, tryCatch, bind, readFile, lift, parse, logMessage, modify.
  destruct (configFile s) as [[|configData]|]; simpl; try reflexivity.
  destruct (JS.getProp configData "counterConfigs") as [[mapping|]|e]; simpl;
    try reflexivity.
  destruct (JS.truthy mapping); simpl; [|reflexivity].
  destruct (forOf (JS.entries mapping) loadEntry _) as [[[]|e] s']; reflexivity.
Qed.

(** A missing or unparsable config.json leaves the store as it is: empty
    at start-up. *)
Lemma loadConfigs_without_document s :
  configFile s = None \/ configFile s = Some Unparsable ->
  result loadConfigs s = Normal tt
  /\ counterConfigs (exec loadConfigs s) = counterConfigs s.
Proof.
  intros H. split.
  - unfold result, loadConfigs, tryCatch, bind, readFile, lift, parse, logMessage, modify.
    destruct H as [-> | ->]; reflexivity.
  - rewrite loadConfigs_store. destruct H as [-> | ->]; reflexivity.
Qed.

Lemma loadConfigs_file : keeps sameFile loadConfigs.
Proof.
  unfold loadConfigs, readFile, loadEntry, logMessage.
  intros s. unfold exec, tryCatch, bind at 1.
  destruct (configFile s) as [data|] eqn:Hfile; simpl; [|reflexivity].
  unfold sameFile.
  match goal with
  | |- configFile (snd (match ?m s with _ => _ end)) = _ =>
      assert (H : keeps sameFile m)
  end.
  { keeps_file. }
  specialize (H s). unfold exec in H.
  match goal with
  | |- configFile (snd (match ?m with _ => _ end)) = _ =>
      destruct m as [[[]|e] s']
  end; simpl in *; congruence.
Qed.

Lemma loadEntries_sequences (wrap : string * JSON -> JSON) entries s :
  (forall entry s, In entry entries ->
     loadEntry (fst entry, wrap entry) s
     = (Normal tt,
        setCounterConfigs (JSMap.set (fst entry) (snd entry) (counterConfigs s)) s)) ->
  forOf (map (fun entry => (fst entry, wrap entry)) entries) loadEntry s
  = (Normal tt,
     setCounterConfigs
       (fold_left (fun m entry => JSMap.set (fst entry) (snd entry) m) entries
          (counterConfigs s)) s).
Proof.
  revert s. induction entries as [|entry entries IH]; intros s Hstep; simpl.
  - now rewrite setCounterConfigs_same.
  - erewrite bind_normal by (apply Hstep; now left).
    rewrite IH by (intros; apply Hstep; now right).
    reflexivity.
Qed.

Lemma serialize_wf lookup store :
  JSMap.wf store -> serialize lookup store = newShapeDocument lookup (persisted store).
Proof.
  intros Hwf. unfold serialize, newShapeDocument.
  rewrite (fold_assign_wf (fun entry => newShape (lookup (fst entry)) (snd entry)));
    [reflexivity|exact Hwf].
Qed.

Lemma sequences_ownOrder store : sequences store -> sequences (JS.ownOrder store).
Proof.
  unfold sequences. apply Permutation_Forall. symmetry. apply ownOrder_perm.
Qed.

Lemma sequences_persisted store : sequences store -> sequences (persisted store).
Proof.
  unfold sequences, persisted. intros H. apply Forall_forall. intros e Hin.
  apply filter_In in Hin. rewrite Forall_forall in H. now apply H.
Qed.

(** Setting the entries of a map of distinct keys, in order, rebuilds
    the map. *)
Lemma fold_set_self (store : JSMap.t JSON) :
  JSMap.wf store ->
  fold_left (fun m entry => JSMap.set (fst entry) (snd entry) m) store [] = store.
Proof.
  intros Hwf. rewrite (fold_set_wf snd) by exact Hwf. simpl.
  rewrite <- (map_id store) at 2. apply map_ext. now intros [].
Qed.

Lemma loadConfigs_newShapeDocument lookup store s :
  sequences store ->
  configFile s = Some (Document (newShapeDocument lookup store)) ->
  counterConfigs (exec loadConfigs s)
  = fold_left (fun m entry => JSMap.set (fst entry) (snd entry) m) (JS.ownOrder store) [].
Proof.
  intros Hseq Hfile. rewrite loadConfigs_store, Hfile.
  change (JS.getProp (newShapeDocument lookup store) "counterConfigs")
    with (Normal (A := option JSON)
            (Some (JObject
                     (map (fun entry => (fst entry, newShape (lookup (fst entry)) (snd entry)))
                        store)))).
  cbn [JS.truthy JS.entries].
  rewrite (ownOrder_map (fun entry => newShape (lookup (fst entry)) (snd entry))).
  unfold exec.
  rewrite (loadEntries_sequences
             (fun entry => newShape (lookup (fst entry)) (snd entry))).
  - reflexivity.
  - intros entry s' Hin. apply loadEntry_newShape.
    apply sequences_ownOrder in Hseq.
    unfold sequences in Hseq. rewrite Forall_forall in Hseq. now apply Hseq.
Qed.

Lemma loadConfigs_legacyDocument store s :
  sequences store ->
  configFile s = Some (Document (legacyDocument store)) ->
  counterConfigs (exec loadConfigs s)
  = fold_left (fun m entry => JSMap.set (fst entry) (snd entry) m) (JS.ownOrder store) [].
Proof.
  intros Hseq Hfile. rewrite loadConfigs_store, Hfile.
  change (JS.getProp (legacyDocument store) "counterConfigs")
    with (Normal (A := option JSON) (Some (JObject store))).
  cbn [JS.truthy JS.entries].
  unfold exec.
  replace (JS.ownOrder store)
    with (map (fun entry : string * JSON => (fst entry, snd entry)) (JS.ownOrder store))
    at 1.
  - rewrite (loadEntries_sequences snd); [reflexivity|].
    intros [g v] s' Hin. apply loadEntry_array.
    apply sequences_ownOrder in Hseq.
    unfold sequences in Hseq. rewrite Forall_forall in Hseq. now apply (Hseq (g, v)).
  - rewrite <- (map_id (JS.ownOrder store)) at 2. apply map_ext. now intros [].
Qed.

(** Loading what [serialize] produces: the communities that were written,
    in the order in which the properties of the document are visited. *)
Lemma loadConfigs_serialized (lookup : Snowflake -> string) (store : JSMap.t JSON)
  (s : Bot) :
  JSMap.wf store ->
  sequences store ->
  configFile s = Some (Document (serialize lookup store)) ->
  counterConfigs (exec loadConfigs s) = JS.ownOrder (persisted store).
Proof.
  intros Hwf Hseq Hfile.
  rewrite serialize_wf in Hfile by exact Hwf.
  rewrite (@loadConfigs_newShapeDocument lookup (persisted store) s
             (sequences_persisted _ Hseq) Hfile).
  apply fold_set_self, ownOrder_wf, persisted_wf, Hwf.
Qed.

(** The store of a bot whose communities have the identifiers that the
    platform gives them, none of them an array index or [__proto__], is
    loaded as it was saved. *)
Lemma loadConfigs_serialized_plain (lookup : Snowflake -> string)
  (store : JSMap.t JSON) (s : Bot) :
  JSMap.wf store ->
  sequences store ->
  JSMap.get "__proto__" store = None ->
  (forall g, In g (JSMap.keys store) -> JS.arrayIndex g = None) ->
  configFile s = Some (Document (serialize lookup store)) ->
  counterConfigs (exec loadConfigs s) = store.
Proof.
  intros Hwf Hseq Hproto Hplain Hfile.
  rewrite (loadConfigs_serialized lookup store s Hwf Hseq Hfile).
  rewrite persisted_plain by exact Hproto. now apply ownOrder_plain.
Qed.




(** Saving and loading again, when the write is accepted, gives the store
    back. *)
Lemma save_then_load platform s :
  JSMap.wf (counterConfigs s) ->
  sequences (counterConfigs s) ->
  accepts platform (history s)
    (WriteFile (serialize (serverName s) (counterConfigs s))) = true ->
  counterConfigs (exec loadConfigs (exec (saveConfigs platform) s))
  = JS.ownOrder (persisted (counterConfigs s)).
Proof.
  intros Hwf Hseq Haccept.
  apply (loadConfigs_serialized (serverName s)); try assumption.
  unfold saveConfigs, writeFile, exec, tryCatch, bind, gets, await, modify, logMessage.
  simpl. rewrite Haccept. reflexivity.
Qed.

(** C10.  When config.json parses to a document whose [counterConfigs] is
    an object, [loadConfigs] replaces the store: a community that the
    object does not name is absent afterwards, the resulting store is the
    same from any two states that see this document, and loading a second
    time changes nothing. *)
Theorem load_replaces_store (configData : JSON) (mapping : list (string * JSON)) :
  JS.getProp configData "counterConfigs" = Normal (Some (JObject mapping)) ->
  (forall s guildId,
      configFile s = Some (Document configData) ->
      ~ In guildId (map fst mapping) ->
      JSMap.get guildId (counterConfigs (exec loadConfigs s)) = None)
  /\ (forall s1 s2,
         configFile s1 = Some (Document configData) ->
         configFile s2 = Some (Document configData) ->
         counterConfigs (exec loadConfigs s1) = counterConfigs (exec loadConfigs s2))
  /\ (forall s,
         configFile s = Some (Document configData) ->
         counterConfigs (exec loadConfigs (exec loadConfigs s))
         = counterConfigs (exec loadConfigs s)).
Proof.
  intros Hmapping.
  assert (Hsame : forall s1 s2,
             configFile s1 = Some (Document configData) ->
             configFile s2 = Some (Document configData) ->
             counterConfigs (exec loadConfigs s1) = counterConfigs (exec loadConfigs s2)).
  { intros s1 s2 H1 H2. rewrite !loadConfigs_store, H1, H2, Hmapping. simpl.
    apply loadEntries_store_only. reflexivity. }
  split; [|split].
  - intros s guildId Hfile Habsent.
    rewrite loadConfigs_store, Hfile, Hmapping. simpl.
    apply get_None_iff. intros Hin.
    apply loadEntries_keys in Hin. destruct Hin as [Hin|[]].
    apply Habsent. revert Hin. apply Permutation_in, (ownOrder_keys mapping).
  - exact Hsame.
  - intros s Hfile. apply Hsame; [|exact Hfile].
    rewrite <- Hfile. apply (loadConfigs_file s).
Qed.

Lemma load_replaces_store_witness :
  let s := sampleBot [] [] [("stale", JArray [counterConfig "c0" "bots" "k0"])]
             (Some (Document zeroEntryDocument)) in
  JSMap.get "stale" (counterConfigs s) = Some (JArray [counterConfig "c0" "bots" "k0"])
  /\ JSMap.get "stale" (counterConfigs (exec loadConfigs s)) = None.
Proof.
  intros s. split; [reflexivity|].
  refine (proj1 (@load_replaces_store zeroEntryDocument _ eq_refl) s "stale" eq_refl _).
  simpl. intuition discriminate.
Defined.

(** The two shapes load alike, entry by entry and document by document,
    and a value of neither shape other than [null] is skipped. *)
Lemma load_shapes_agree :
  (forall guildId serverName configs s,
      JS.isArray configs = true ->
      loadEntry (guildId, configs) s = loadEntry (guildId, newShape serverName configs) s)
  /\ (forall lookup store s1 s2,
         sequences store ->
         configFile s1 = Some (Document (legacyDocument store)) ->
         configFile s2 = Some (Document (newShapeDocument lookup store)) ->
         counterConfigs (exec loadConfigs s1) = counterConfigs (exec loadConfigs s2))
  /\ (forall guildId guildData s,
         neitherShape guildData = true ->
         guildData <> JNull ->
         loadEntry (guildId, guildData) s = (Normal tt, s)).
Proof.
  split; [|split].
  - intros guildId serverName configs s H.
    now rewrite loadEntry_array, loadEntry_newShape.
  - intros lookup store s1 s2 Hseq H1 H2.
    now rewrite (@loadConfigs_legacyDocument store s1 Hseq H1),
      (@loadConfigs_newShapeDocument lookup store s2 Hseq H2).
  - intros guildId guildData s Hshape Hnull.
    unfold loadEntry, bind, lift, ret, neitherShape in *. simpl.
    destruct guildData as [| | | | |props]; simpl in *;
      try discriminate; try reflexivity; try congruence.
    destruct (JS.lookup "configs" props) as [c|]; simpl in *; [|reflexivity].
    destruct (JS.truthy c); [discriminate|reflexivity].
Qed.

(** C4.  A community mapped to [null] has neither shape, yet it is not
    skipped: reading [guildData.configs] throws, [loadConfigs] ends with
    its warning, and the community that follows is not loaded; the same
    document with 0 in place of [null] loads that community. *)
Theorem load_null_entry_aborts :
  neitherShape JNull = true
  /\ loadEntry ("g1", JNull) (sampleBot [] [] [] None)
     = (Throw (TypeError "Cannot read properties of null"), sampleBot [] [] [] None)
  /\ (let s := sampleBot [] [] [] (Some (Document nullEntryDocument)) in
      counterConfigs (exec loadConfigs s) = []
      /\ log (exec loadConfigs s)
         = [("warn", "No existing configuration file found or failed to load")])
  /\ (let s := sampleBot [] [] [] (Some (Document zeroEntryDocument)) in
      counterConfigs (exec loadConfigs s)
      = [("g2", JArray [counterConfig "c2" "members" "k2"])]).
Proof.
  repeat split.
Qed.

(** ** Teardown of a community without counters *)



(** ** Provisioning *)

Lemma issued_of_history {A : Type} (m : Async A) s events :
  history (exec m s) = (history s ++ events)%list -> issued m s = events.
Proof.
  intros H. unfold issued. rewrite H, skipn_app, skipn_all, Nat.sub_diag. reflexivity.
Qed.

Lemma clean_ret {A : Type} (a : A) : clean (ret a).
Proof.
  intros s a' s' [= <- <-]. exists []. now rewrite app_nil_r.
Qed.

Lemma clean_gets {A : Type} (f : Bot -> A) : clean (gets f).
Proof.
  intros s a' s' [= <- <-]. exists []. now rewrite app_nil_r.
Qed.

Lemma clean_modify (f : Bot -> Bot) :
  (forall s, history (f s) = history s) -> clean (modify f).
Proof.
  intros H s a' s' [= <- <-]. exists []. now rewrite app_nil_r.
Qed.

Lemma clean_await platform r : clean (await platform r).
Proof.
  intros s a s'. unfold await.
  destruct (accepts platform (history s) r); [|discriminate].
  intros [= <- <-]. exists [(r, true)]. split; [reflexivity|].
  now repeat constructor.
Qed.

Lemma clean_bind {A B : Type} (m : Async A) (f : A -> Async B) :
  clean m -> (forall a, clean (f a)) -> clean (bind m f).
Proof.
  intros Hm Hf s b s'. unfold bind.
  destruct (m s) as [[a|e] s1] eqn:E; [|discriminate].
  intros H. destruct (Hm _ _ _ E) as (ev1 & H1 & Hall1).
  destruct (Hf a _ _ _ H) as (ev2 & H2 & Hall2).
  exists (ev1 ++ ev2)%list. split.
  - now rewrite H2, H1, app_assoc.
  - apply Forall_app. now split.
Qed.

Ltac clean_steps :=
  repeat first
    [ apply clean_ret
    | apply clean_gets
    | apply clean_await
    | apply clean_modify; intros; reflexivity
    | apply clean_bind; [|intros]
    | match goal with
      | |- clean (match ?x with _ => _ end) => destruct x
      end ].

Lemma provisionCounter_clean platform guildId counterType categoryName :
  clean (provisionCounter platform guildId counterType categoryName).
Proof.
  unfold provisionCounter, channelsCreate, getCountForType. clean_steps.
Qed.

Lemma provisionCounter_store platform guildId counterType categoryName :
  keeps sameStore (provisionCounter platform guildId counterType categoryName).
Proof.
  unfold provisionCounter, channelsCreate, getCountForType.
  keeps_with sameStore_refl sameStore_trans ltac:(store_prim).
Qed.

Lemma provisionCounter_file platform guildId counterType categoryName :
  keeps sameFile (provisionCounter platform guildId counterType categoryName).
Proof.
  unfold provisionCounter, channelsCreate, getCountForType.
  keeps_with sameFile_refl sameFile_trans
    ltac:(first [reflexivity | apply await_file]).
Qed.

Lemma noProvisioning_refl s : noProvisioning s s.
Proof. exists []. split; [now rewrite app_nil_r|constructor]. Qed.

Lemma noProvisioning_trans s1 s2 s3 :
  noProvisioning s1 s2 -> noProvisioning s2 s3 -> noProvisioning s1 s3.
Proof.
  intros (e1 & H1 & A1) (e2 & H2 & A2). exists (e1 ++ e2)%list. split.
  - now rewrite H2, H1, app_assoc.
  - apply Forall_app. now split.
Qed.

Lemma recordCounter_noProvisioning platform guildId counterType category counterChannel :
  keeps noProvisioning
    (recordCounter platform guildId counterType category counterChannel).
Proof.
  unfold recordCounter, push, saveConfigs, writeFile, logMessage.
  keeps_with noProvisioning_refl noProvisioning_trans
    ltac:(first [ apply noProvisioning_refl
                | exists []; split; [simpl; now rewrite app_nil_r|constructor]
                | intros s; eexists [_]; split; [reflexivity|];
                  repeat constructor ]).
Qed.

(** C5.  If, during [handleCounterSetup], the creation of the category,
    the fetch of the membership or the creation of the channel is
    rejected, the handler ends with the reply "Counter Setup Failed", and
    neither the configuration store nor config.json has changed. *)
Theorem setup_failure_keeps_store (platform : Platform) (guildId : Snowflake)
  (manageChannels : bool) (counterType categoryName : string) (s : Bot) :
  (exists r, provisioning r = true
             /\ In (r, false)
                  (issued (handleCounterSetup platform guildId manageChannels
                             counterType categoryName) s)) ->
  result (handleCounterSetup platform guildId manageChannels counterType categoryName) s
  = Normal SetupFailed
  /\ counterConfigs
       (exec (handleCounterSetup platform guildId manageChannels counterType categoryName) s)
     = counterConfigs s
  /\ configFile
       (exec (handleCounterSetup platform guildId manageChannels counterType categoryName) s)
     = configFile s.
Proof.
  intros (r & Hprov & Hin).
  destruct manageChannels.
  2:{ unfold issued, exec in Hin. simpl in Hin. rewrite skipn_all in Hin. destruct Hin. }
  pose proof (@provisionCounter_clean platform guildId counterType categoryName s) as Hclean.
  pose proof (provisionCounter_store platform guildId counterType categoryName s) as Hstore.
  pose proof (provisionCounter_file platform guildId counterType categoryName s) as Hfile.
  unfold exec, sameStore, sameFile in Hstore, Hfile.
  destruct (provisionCounter platform guildId counterType categoryName s)
    as [[created|e] s1] eqn:Eprov; simpl in *.
  - (* every provisioning call was accepted: no rejected one can be found *)
    exfalso.
    destruct (Hclean _ _ eq_refl) as (ev1 & H1 & Hall1).
    assert (Hrest : keeps noProvisioning
                      (recordCounter platform guildId counterType (fst created)
                         (snd created) ;;
                       logMessage "info" "Counter setup completed" ;;
                       ret SetupComplete)).
    { apply (keeps_bind _ noProvisioning_trans);
        [apply recordCounter_noProvisioning|intros].
      unfold logMessage.
      keeps_with noProvisioning_refl noProvisioning_trans
        ltac:(first [ apply noProvisioning_refl
                    | exists []; split; [simpl; now rewrite app_nil_r|constructor] ]). }
    destruct (Hrest s1) as (ev2 & H2 & Hall2).
    assert (Hhist : history
                      (exec (handleCounterSetup platform guildId true counterType
                               categoryName) s)
                    = (history s ++ ev1 ++ ev2)%list).
    { unfold exec, handleCounterSetup, tryCatch. simpl.
      rewrite (bind_normal _ _ _ _ _ Eprov). unfold exec in H2.
      match goal with
      | |- context [bind ?m ?f s1] => destruct (bind m f s1) as [[reply|e] s2]
      end; simpl in *; now rewrite H2, H1, app_assoc. }
    rewrite (issued_of_history _ _ _ Hhist) in Hin.
    apply in_app_or in Hin. destruct Hin as [Hin|Hin].
    + rewrite Forall_forall in Hall1. apply Hall1 in Hin. discriminate.
    + rewrite Forall_forall in Hall2. apply Hall2 in Hin. simpl in Hin. congruence.
  - (* a call was rejected: the handler of the catch block runs *)
    assert (Hrun : handleCounterSetup platform guildId true counterType categoryName s
                   = (Normal SetupFailed,
                      addLog ("error", "Counter setup failed") s1)).
    { unfold handleCounterSetup, tryCatch. simpl.
      now rewrite (bind_throw _ _ _ _ _ Eprov). }
    unfold result, exec. rewrite Hrun. simpl. auto.
Qed.

Lemma setup_failure_keeps_store_witness :
  let platform :=
    {| accepts := fun _ r => match r with MembersFetch _ => false | _ => true end;
       newId := newId accepting;
       leftover := fun _ _ => Truncated |} in
  let s := sampleBot [] [human None] [("g", JArray [counterConfig "c1" "bots" "k1"])]
             None in
  (exists r, provisioning r = true
             /\ In (r, false)
                  (issued (handleCounterSetup platform "g" true "members" "Stats") s))
  /\ result (handleCounterSetup platform "g" true "members" "Stats") s
     = Normal SetupFailed
  /\ counterConfigs (exec (handleCounterSetup platform "g" true "members" "Stats") s)
     = counterConfigs s.
Proof.
  intros platform s.
  assert (H : exists r, provisioning r = true
                        /\ In (r, false)
                             (issued (handleCounterSetup platform "g" true "members"
                                        "Stats") s)).
  { exists (MembersFetch "g"). split; [reflexivity|]. right. left. reflexivity. }
  split; [exact H|].
  destruct (@setup_failure_keeps_store platform "g" true "members" "Stats" s H)
    as (Hreply & Hstore & _).
  split; assumption.
Defined.

(** ** Teardown, one config at a time *)

Lemma delete_absent {V : Type} (k : string) (m : JSMap.t V) :
  JSMap.get k m = None -> JSMap.delete k m = m.
Proof.
  induction m as [|[k0 v0] m IH]; simpl; [reflexivity|].
  destruct (String.eqb k k0); [discriminate|].
  intros H. now rewrite IH.
Qed.


Lemma channelsOf_setChannels g g' c s :
  channelsOf (setChannels g c s) g' = if String.eqb g' g then c else channelsOf s g'.
Proof.
  unfold channelsOf, setChannels. simpl. now destruct (String.eqb g' g).
Qed.

Lemma channelsOf_removeChannel g id s :
  channelsOf (removeChannel g id s) g = JSMap.delete id (channelsOf s g).
Proof.
  unfold removeChannel. now rewrite channelsOf_setChannels, String.eqb_refl.
Qed.

Lemma getProp_object config key v :
  JS.getProp config key = Normal (Some v) -> exists props, config = JObject props.
Proof.
  destruct config; simpl; try discriminate. eauto.
Qed.

Lemma getProp_not_null config key :
  config <> JNull -> exists v, JS.getProp config key = Normal v.
Proof.
  destruct config; simpl; eauto. congruence.
Qed.

(** The category half of the [try] block, case by case. *)
Lemma categoryStep_run platform g config d f s cat :
  JS.getProp config "categoryId" = Normal (Some (JString cat)) ->
  categoryStep platform g config d f s
  = match JSMap.get cat (channelsOf s g) with
    | None => (Normal (d, f), s)
    | Some k =>
        if isCategory k then
          if Nat.eqb (List.length (filter (hasParent cat) (channelsOf s g))) 0 then
            if accepts platform (history s) (CategoryDelete g cat)
            then (Normal (d, f),
                  removeChannel g cat (addEvent (CategoryDelete g cat, true) s))
            else (Normal (d, S f),
                  failureLogged (addEvent (CategoryDelete g cat, false) s))
          else (Normal (d, f), s)
        else (Normal (d, S f), failureLogged s)
    end.
Proof.
  intros Hcat. destruct (getProp_object _ _ _ Hcat) as [props ->].
  unfold categoryStep, deleteCategoryIfEmpty, tryCatch, countFailure, logMessage,
    childrenSize, categoryDelete, channelsCacheGet, await, lift, gets, modify, ret,
    throw, bind, isCategory, channelsOf.
  rewrite Hcat. simpl.
  destruct (JSMap.get cat (Guild.channels (guild s g))) as [k|]; simpl; [|reflexivity].
  destruct (Channel.type k); simpl; try reflexivity.
  destruct (Nat.eqb _ 0); simpl; [|reflexivity].
  destruct (accepts platform (history s) (CategoryDelete g cat)); reflexivity.
Qed.

Lemma categoryStep_normal platform g config d f s :
  config <> JNull ->
  exists counters s', categoryStep platform g config d f s = (Normal counters, s').
Proof.
  intros Hnull. unfold categoryStep, tryCatch.
  destruct ((deleteCategoryIfEmpty platform g config ;; ret (d, f)) s) as [[a|e] s'].
  - eauto.
  - destruct (getProp_not_null config "channelId" Hnull) as [v Hv].
    unfold countFailure, bind, lift, logMessage, modify, ret. rewrite Hv. eauto.
Qed.

(** The whole loop body, case by case on the channel. *)
Lemma resetOne_run platform g config d f s ch :
  JS.getProp config "channelId" = Normal (Some (JString ch)) ->
  resetOne platform g (d, f) config s
  = match JSMap.get ch (channelsOf s g) with
    | Some _ =>
        if accepts platform (history s) (ChannelDelete g ch)
        then categoryStep platform g config (S d) f
               (removeChannel g ch (addEvent (ChannelDelete g ch, true) s))
        else (Normal (d, S f), failureLogged (addEvent (ChannelDelete g ch, false) s))
    | None => categoryStep platform g config d f s
    end.
Proof.
  intros Hch. destruct (getProp_object _ _ _ Hch) as [props ->].
  assert (Hnothrow : forall d' s',
             tryCatch (categoryStep platform g (JObject props) d' f)
               (countFailure (JObject props) d f) s'
             = categoryStep platform g (JObject props) d' f s').
  { intros d' s'. unfold tryCatch.
    destruct (categoryStep_normal platform g (JObject props) d' f s') as (c & s'' & ->);
      [discriminate|reflexivity]. }
  assert (Hchannel :
            deleteChannelIfCached platform g (JObject props) d s
            = match JSMap.get ch (channelsOf s g) with
              | Some _ =>
                  if accepts platform (history s) (ChannelDelete g ch)
                  then (Normal (S d),
                        removeChannel g ch (addEvent (ChannelDelete g ch, true) s))
                  else (Throw (Rejected (ChannelDelete g ch)),
                        addEvent (ChannelDelete g ch, false) s)
              | None => (Normal d, s)
              end).
  { unfold deleteChannelIfCached, channelDelete, channelsCacheGet, await, lift, gets,
      modify, ret, bind, channelsOf.
    rewrite Hch.
    destruct (JSMap.get ch (Guild.channels (guild s g))) as [k|]; [|reflexivity].
    destruct (accepts platform (history s) (ChannelDelete g ch)); reflexivity. }
  unfold resetOne. simpl fst. simpl snd.
  unfold tryCatch at 1, bind at 1. rewrite Hchannel.
  destruct (JSMap.get ch (channelsOf s g)) as [k|].
  - destruct (accepts platform (history s) (ChannelDelete g ch)).
    + specialize (Hnothrow (S d)). unfold tryCatch in Hnothrow. apply Hnothrow.
    + reflexivity.
  - specialize (Hnothrow d s). unfold tryCatch in Hnothrow. apply Hnothrow.
Qed.

Lemma categoryStep_history platform g config d f s cat :
  JS.getProp config "categoryId" = Normal (Some (JString cat)) ->
  history (snd (categoryStep platform g config d f s))
  = (history s
     ++ if emptyCategory (channelsOf s g) cat
        then [(CategoryDelete g cat, accepts platform (history s) (CategoryDelete g cat))]
        else [])%list.
Proof.
  intros Hcat. rewrite (categoryStep_run _ _ _ _ _ _ _ Hcat). unfold emptyCategory.
  destruct (JSMap.get cat (channelsOf s g)) as [k|]; simpl;
    [|now rewrite app_nil_r].
  destruct (isCategory k); simpl; [|now rewrite app_nil_r].
  destruct (Nat.eqb _ 0); simpl; [|now rewrite app_nil_r].
  destruct (accepts platform (history s) (CategoryDelete g cat)); reflexivity.
Qed.

Lemma resetOne_history platform g config d f s ch cat :
  JS.getProp config "channelId" = Normal (Some (JString ch)) ->
  JS.getProp config "categoryId" = Normal (Some (JString cat)) ->
  history (snd (resetOne platform g (d, f) config s))
  = (history s
     ++ match JSMap.get ch (channelsOf s g) with
        | Some _ =>
            (ChannelDelete g ch, accepts platform (history s) (ChannelDelete g ch))
            :: (if accepts platform (history s) (ChannelDelete g ch)
                then
                  if emptyCategory (JSMap.delete ch (channelsOf s g)) cat
                  then [(CategoryDelete g cat,
                         accepts platform (history s ++ [(ChannelDelete g ch, true)])
                           (CategoryDelete g cat))]
                  else []
                else [])
        | None =>
            if emptyCategory (channelsOf s g) cat
            then [(CategoryDelete g cat,
                   accepts platform (history s) (CategoryDelete g cat))]
            else []
        end)%list.
Proof.
  intros Hch Hcat. rewrite (resetOne_run _ _ _ _ _ _ _ Hch).
  destruct (JSMap.get ch (channelsOf s g)) as [k|].
  - destruct (accepts platform (history s) (ChannelDelete g ch)).
    + rewrite (categoryStep_history _ _ _ _ _ _ _ Hcat).
      rewrite channelsOf_removeChannel. simpl.
      now rewrite <- app_assoc.
    + reflexivity.
  - apply (categoryStep_history _ _ _ _ _ _ _ Hcat).
Qed.

Lemma resetOne_neverThrows platform g counters config :
  config <> JNull -> neverThrows (resetOne platform g counters config).
Proof.
  intros Hnull s. unfold result, resetOne, tryCatch.
  match goal with
  | |- context [let (_, _) := ?m s in _] => destruct (m s) as [[a|e] s']
  end; simpl; [eauto|].
  destruct (getProp_not_null config "channelId" Hnull) as [v Hv].
  unfold countFailure, bind, lift, logMessage, modify, ret. rewrite Hv. simpl. eauto.
Qed.

Lemma forOfWith_neverThrows {X L : Type} (items : list X) (acc : L)
  (body : L -> X -> Async L) :
  (forall acc x, In x items -> neverThrows (body acc x)) ->
  neverThrows (forOfWith items acc body).
Proof.
  revert acc. induction items as [|x items IH]; intros acc Hbody s; simpl.
  - unfold result, ret. simpl. eauto.
  - unfold result, bind. destruct (Hbody acc x (or_introl eq_refl) s) as [acc' Hacc].
    unfold result in Hacc. destruct (body acc x s) as [c s']. simpl in Hacc. subst c.
    apply IH. intros acc0 y Hin. apply Hbody. now right.
Qed.

Lemma resetLoop_neverThrows platform g items counters :
  noNull items -> neverThrows (forOfWith items counters (resetOne platform g)).
Proof.
  intros Hnull. apply forOfWith_neverThrows.
  intros acc x Hin. apply resetOne_neverThrows. intros ->. now apply Hnull.
Qed.

(** C7, as the code has it.  For a config whose [channelId] and
    [categoryId] are strings, one turn of the loop of [handleCounterReset]
    issues the deletion of the channel if the cache has it, and only then;
    when that deletion is rejected, the failure is counted and the turn
    ends there, without a look at the category; when the channel is absent
    or its deletion was accepted, the deletion of the category is issued
    exactly when the cache has it as a category without child channels.
    No turn for a config other than [null] throws, so the loop reaches
    every config. *)
Theorem teardown_turn (platform : Platform) (g : Snowflake) (d f : nat) (config : JSON)
  (ch cat : Snowflake) (s : Bot) :
  JS.getProp config "channelId" = Normal (Some (JString ch)) ->
  JS.getProp config "categoryId" = Normal (Some (JString cat)) ->
  let turn := resetOne platform g (d, f) config in
  let cached := JSMap.get ch (channelsOf s g) in
  let ok := accepts platform (history s) (ChannelDelete g ch) in
  (cached <> None -> exists rest, issued turn s = (ChannelDelete g ch, ok) :: rest)
  /\ (cached = None -> ~ attempted (ChannelDelete g ch) (issued turn s))
  /\ (cached <> None -> ok = false ->
      turn s = (Normal (d, S f), failureLogged (addEvent (ChannelDelete g ch, false) s))
      /\ issued turn s = [(ChannelDelete g ch, false)])
  /\ (cached = None \/ ok = true ->
      (attempted (CategoryDelete g cat) (issued turn s)
       <-> emptyCategory (JSMap.delete ch (channelsOf s g)) cat = true))
  /\ (forall items counters s0,
         noNull items ->
         exists counters',
           result (forOfWith items counters (resetOne platform g)) s0 = Normal counters').
Proof.
  intros Hch Hcat turn cached ok.
  assert (Hissued := issued_of_history turn s _
                       (resetOne_history platform g config d f s ch cat Hch Hcat)).
  fold cached in Hissued. fold ok in Hissued.
  split; [|split; [|split; [|split]]].
  - intros Hcached. rewrite Hissued.
    destruct cached; [eauto|congruence].
  - intros Hcached [b Hin]. revert Hin. rewrite Hissued, Hcached.
    destruct (emptyCategory (channelsOf s g) cat); simpl; [|tauto].
    intros [Hin|[]]. discriminate.
  - intros Hcached Hok. split.
    + unfold turn. rewrite (resetOne_run _ _ _ _ _ _ _ Hch).
      fold cached. fold ok. rewrite Hok.
      destruct cached; [reflexivity|congruence].
    + rewrite Hissued, Hok. destruct cached; [reflexivity|congruence].
  - intros Hcase. rewrite Hissued. unfold attempted.
    destruct cached as [k|] eqn:Ecached.
    + destruct Hcase as [Hcase|Hcase]; [discriminate|]. rewrite Hcase.
      destruct (emptyCategory (JSMap.delete ch (channelsOf s g)) cat); split.
      * reflexivity.
      * intros _. eexists. right. left. reflexivity.
      * intros [b [Hin|[]]]. discriminate.
      * discriminate.
    + rewrite (delete_absent _ _ Ecached).
      destruct (emptyCategory (channelsOf s g) cat); split.
      * reflexivity.
      * intros _. eexists. left. reflexivity.
      * intros [b []].
      * discriminate.
  - intros items counters s0 Hnull.
    now apply (resetLoop_neverThrows platform g items counters).
Qed.

Lemma teardown_turn_witness :
  let config := counterConfig "c1" "members" "k1" in
  let turn := resetOne rejectingChannelDelete "g" (0, 0) config in
  JS.getProp config "channelId" = Normal (Some (JString "c1"))
  /\ JS.getProp config "categoryId" = Normal (Some (JString "k1"))
  /\ turn strayCounter
     = (Normal (0, 1),
        failureLogged (addEvent (ChannelDelete "g" "c1", false) strayCounter))
  /\ issued turn strayCounter = [(ChannelDelete "g" "c1", false)].
Proof.
  intros config turn. split; [reflexivity|]. split; [reflexivity|].
  refine (proj1 (proj2 (proj2
            (teardown_turn rejectingChannelDelete "g" 0 0 config "c1" "k1" strayCounter
               eq_refl eq_refl))) _ eq_refl).
  discriminate.
Defined.

(** Against C7 as it is worded: a category that exists and has no child
    channels, before and after the turn's channel step, is not always up
    for deletion; when the deletion of the channel is rejected, nothing is
    attempted on the category. *)
Lemma category_step_depends_on_channel_step :
  ~ (forall platform g d f config ch cat s,
        JS.getProp config "channelId" = Normal (Some (JString ch)) ->
        JS.getProp config "categoryId" = Normal (Some (JString cat)) ->
        emptyCategory (channelsOf s g) cat = true ->
        emptyCategory (JSMap.delete ch (channelsOf s g)) cat = true ->
        attempted (CategoryDelete g cat) (issued (resetOne platform g (d, f) config) s)).
Proof.
  intros H.
  destruct (H rejectingChannelDelete "g" 0 0 (counterConfig "c1" "members" "k1")
              "c1" "k1" strayCounter eq_refl eq_refl eq_refl eq_refl) as [ok Hin].
  vm_compute in Hin. destruct Hin as [Hin|[]]. discriminate.
Qed.

(** ** Teardown of a community *)

Lemma sameNames_refl s : sameNames s s.
Proof. split; reflexivity. Qed.

Lemma sameNames_trans s1 s2 s3 : sameNames s1 s2 -> sameNames s2 s3 -> sameNames s1 s3.
Proof.
  intros [H1 H1'] [H2 H2']. split; [congruence|].
  intros g. now rewrite H2', H1'.
Qed.

Lemma sameNames_setChannels g c s : sameNames s (setChannels g c s).
Proof.
  split; [reflexivity|]. intros g'. unfold setChannels. simpl.
  destruct (String.eqb g' g) eqn:E; [|reflexivity].
  apply String.eqb_eq in E. now subst.
Qed.






Lemma serialize_ext lookup1 lookup2 store :
  (forall g, lookup1 g = lookup2 g) -> serialize lookup1 store = serialize lookup2 store.
Proof.
  intros Hext. unfold serialize.
  assert (H : forall acc : JSMap.t JSON,
             fold_left
               (fun obj entry =>
                  assign (fst entry)
                    (JObject [("serverName", JString (lookup1 (fst entry)));
                              ("configs", snd entry)]) obj) store acc
             = fold_left
                 (fun obj entry =>
                    assign (fst entry)
                      (JObject [("serverName", JString (lookup2 (fst entry)));
                                ("configs", snd entry)]) obj) store acc).
  { induction store as [|[g v] store IH]; intros acc; [reflexivity|].
    cbn [fold_left fst snd]. rewrite Hext. apply IH. }
  now rewrite H.
Qed.

Lemma serverName_sameNames s s' :
  sameNames s s' -> forall g, serverName s' g = serverName s g.
Proof.
  intros [Hcache Hname] g. unfold serverName. now rewrite Hcache, Hname.
Qed.

Lemma saveConfigs_run platform s :
  saveConfigs platform s
  = if accepts platform (history s)
         (WriteFile (serialize (serverName s) (counterConfigs s)))
    then (Normal tt,
          addLog ("info", "Configurations saved successfully")
            (setConfigFile
               (Some (Document (serialize (serverName s) (counterConfigs s))))
               (addEvent
                  (WriteFile (serialize (serverName s) (counterConfigs s)), true) s)))
    else (Normal tt,
          addLog ("error", "Failed to save configurations")
            (setConfigFile
               (failedWrite (serialize (serverName s) (counterConfigs s))
                  (leftover platform
                     (history s
                      ++ [(WriteFile (serialize (serverName s) (counterConfigs s)),
                           false)])
                     (WriteFile (serialize (serverName s) (counterConfigs s))))
                  (configFile s))
               (addEvent
                  (WriteFile (serialize (serverName s) (counterConfigs s)), false) s))).
Proof.
  unfold saveConfigs, writeFile, logMessage, await, tryCatch, gets, modify, throw, bind.
  destruct (accepts platform (history s) _); reflexivity.
Qed.








(** ** The sweeps, one turn at a time *)

Lemma channelKey_props config id :
  channelKey config = Some id ->
  JS.getProp config "channelId" = Normal (Some (JString id))
  /\ JS.getProp config "type" = Normal (typeOf config).
Proof.
  unfold channelKey, typeOf.
  destruct config as [| | | | |props]; simpl; try discriminate.
  destruct (JS.lookup "channelId" props) as [[| | |id'| |]|]; try discriminate.
  intros [= ->]. auto.
Qed.

Lemma renameIfChanged_skip platform g config updated s :
  match channelKey config with
  | Some id => JSMap.get id (channelsOf s g) = None
  | None => True
  end ->
  exists c, renameIfChanged platform g config updated s = (c, s).
Proof.
  unfold renameIfChanged, channelKey, channelsCacheGet, lift, gets, bind, channelsOf.
  destruct (JS.getProp config "channelId") as [[[| | |id| |]|]|e];
    try (intros _; eexists; reflexivity).
  intros H. rewrite H. eexists. reflexivity.
Qed.

Lemma renameIfChanged_run platform g config updated s id c :
  channelKey config = Some id ->
  JSMap.get id (channelsOf s g) = Some c ->
  renameIfChanged platform g config updated s
  = if accepts platform (history s) (MembersFetch g) then
      match targetName s g config with
      | Normal newName =>
          if String.eqb (Channel.name c) newName
          then (Normal tt, addEvent (MembersFetch g, true) s)
          else if accepts platform (history s ++ [(MembersFetch g, true)])
                    (ChannelSetName g id newName)
               then updated newName
                      (renameChannel g id newName
                         (addEvent (ChannelSetName g id newName, true)
                            (addEvent (MembersFetch g, true) s)))
               else (Throw (Rejected (ChannelSetName g id newName)),
                     addEvent (ChannelSetName g id newName, false)
                       (addEvent (MembersFetch g, true) s))
      | Throw e => (Throw e, addEvent (MembersFetch g, true) s)
      end
    else (Throw (Rejected (MembersFetch g)), addEvent (MembersFetch g, false) s).
Proof.
  intros Hkey Hget. destruct (channelKey_props config id Hkey) as [Hid Htype].
  unfold renameIfChanged, setName, getCountForType, channelsCacheGet, await, lift, gets,
    modify, ret, bind, targetName.
  rewrite Hid, Htype. unfold channelsOf in Hget. rewrite Hget.
  destruct (accepts platform (history s) (MembersFetch g)); [|reflexivity].
  cbn [fst snd guild addEvent].
  destruct (computeName (typeOf config) _) as [newName|e]; [|reflexivity].
  destruct (String.eqb (Channel.name c) newName); cbn [negb fst snd]; [reflexivity|].
  cbn [history addEvent].
  destruct (accepts platform _ (ChannelSetName g id newName)); reflexivity.
Qed.

(** A turn of a sweep is [afterTurn] up to the log, and completes normally
    unless the config is [null]. *)
Lemma turn_run platform g config (updated : string -> Async unit)
  (handler : Error -> Async unit) s :
  logsOnly updated -> reportsFailure config handler ->
  exists c l,
    tryCatch (renameIfChanged platform g config updated) handler s
    = (c, setLog l (afterTurn platform g config s))
    /\ (config <> JNull -> c = Normal tt).
Proof.
  intros Hupdated Hhandler. unfold tryCatch, afterTurn.
  assert (Hself : forall s0, setLog (log s0) s0 = s0) by now intros [].
  assert (Hdone : forall s0 : Bot,
             exists c l, (Normal tt, s0) = (c, setLog l s0)
                         /\ (config <> JNull -> c = Normal tt)).
  { intros s0. exists (Normal tt), (log s0). now rewrite Hself. }
  destruct (channelKey config) as [id|] eqn:Hkey.
  - destruct (JSMap.get id (channelsOf s g)) as [c|] eqn:Hget.
    + rewrite (renameIfChanged_run platform g config updated s id c Hkey Hget).
      destruct (accepts platform (history s) (MembersFetch g)).
      * cbv zeta. destruct (targetName s g config) as [newName|e0]; [|apply Hhandler].
        destruct (String.eqb (Channel.name c) newName).
        -- apply Hdone.
        -- change (history (addEvent (MembersFetch g, true) s))
             with (history s ++ [(MembersFetch g, true)])%list.
           destruct (accepts platform _ (ChannelSetName g id _)).
           ++ destruct (Hupdated newName
                          (renameChannel g id newName
                             (addEvent
                                (ChannelSetName g id newName, true)
                                (addEvent (MembersFetch g, true) s)))) as [l ->].
              eauto.
           ++ apply Hhandler.
      * apply Hhandler.
    + destruct (renameIfChanged_skip platform g config updated s) as [c Hc].
      { now rewrite Hkey. }
      rewrite Hc. destruct c as [[]|e]; [apply Hdone|apply Hhandler].
  - destruct (renameIfChanged_skip platform g config updated s) as [c Hc].
    { now rewrite Hkey. }
    rewrite Hc. destruct c as [[]|e]; [apply Hdone|apply Hhandler].
Qed.

Lemma logMessage_logsOnly {X : Type} level message :
  logsOnly (fun _ : X => logMessage level message).
Proof. intros x s. eexists. reflexivity. Qed.

Lemma ret_logsOnly {X : Type} : logsOnly (fun _ : X => ret tt).
Proof. intros x s. exists (log s). now destruct s. Qed.

Lemma updateAllTurn_run platform g config s :
  exists c l,
    updateAllTurn platform g config s = (c, setLog l (afterTurn platform g config s))
    /\ (config <> JNull -> c = Normal tt).
Proof.
  apply turn_run; [apply logMessage_logsOnly|].
  intros e s0. unfold bind, lift, logMessage, modify.
  destruct config; simpl;
    try (eexists; eexists; split; [reflexivity|reflexivity]).
  exists (Throw (TypeError "Cannot read properties of null")), (log s0).
  split; [now destruct s0|congruence].
Qed.

Lemma updateGuildTurn_run platform g config s :
  exists c l,
    updateGuildTurn platform g config s = (c, setLog l (afterTurn platform g config s))
    /\ (config <> JNull -> c = Normal tt).
Proof.
  apply turn_run; [apply ret_logsOnly|].
  intros e s0. unfold bind, lift, consoleError, modify.
  destruct config; simpl;
    try (eexists; eexists; split; [reflexivity|reflexivity]).
  exists (Throw (TypeError "Cannot read properties of null")), (log s0).
  split; [now destruct s0|congruence].
Qed.

Lemma afterTurn_setLog platform g config l s :
  afterTurn platform g config (setLog l s) = setLog l (afterTurn platform g config s).
Proof.
  unfold afterTurn.
  change (channelsOf (setLog l s) g) with (channelsOf s g).
  change (history (setLog l s)) with (history s).
  change (targetName (setLog l s) g config) with (targetName s g config).
  destruct (channelKey config) as [id|]; [|reflexivity].
  destruct (JSMap.get id (channelsOf s g)) as [c|]; [|reflexivity].
  destruct (accepts platform (history s) (MembersFetch g)); [|reflexivity].
  cbv zeta.
  destruct (targetName s g config) as [newName|e]; [|reflexivity].
  destruct (String.eqb (Channel.name c) newName); [reflexivity|].
  change (history (addEvent (MembersFetch g, true) (setLog l s)))
    with (history (addEvent (MembersFetch g, true) s)).
  destruct (accepts platform _ (ChannelSetName g id _)); reflexivity.
Qed.

Lemma afterSweep_setLog platform g configs l s :
  afterSweep platform g configs (setLog l s) = setLog l (afterSweep platform g configs s).
Proof.
  unfold afterSweep. revert s. induction configs as [|config configs IH]; intros s; simpl.
  - reflexivity.
  - now rewrite afterTurn_setLog, IH.
Qed.

(** The loop over the configs of a guild, none of them [null], is
    [afterSweep] up to the log. *)
Lemma sweep_run platform g (turn : JSON -> Async unit) configs s :
  (forall config s, exists c l,
       turn config s = (c, setLog l (afterTurn platform g config s))
       /\ (config <> JNull -> c = Normal tt)) ->
  noNull configs ->
  exists l, forOf configs turn s = (Normal tt, setLog l (afterSweep platform g configs s)).
Proof.
  intros Hturn. revert s. induction configs as [|config configs IH]; intros s Hnull.
  - exists (log s). simpl. unfold ret. now destruct s.
  - destruct (Hturn config s) as (c1 & l1 & H1 & Hc1).
    rewrite Hc1 in H1 by (intros ->; apply Hnull; now left).
    assert (Hnull' : noNull configs) by (intros Hin; apply Hnull; now right).
    specialize (IH (setLog l1 (afterTurn platform g config s)) Hnull').
    cbn [forOf]. rewrite (bind_normal _ _ _ _ _ H1).
    destruct IH as [l2 H2].
    exists l2. rewrite H2. unfold afterSweep. cbn [fold_left].
    fold (afterSweep platform g configs (setLog l1 (afterTurn platform g config s))).
    fold (afterSweep platform g configs (afterTurn platform g config s)).
    now rewrite afterSweep_setLog.
Qed.

(** ** What a sweep leaves behind *)

Lemma settled_cons s g config configs :
  settled s g (config :: configs) <-> settled s g [config] /\ settled s g configs.
Proof.
  unfold settled. split.
  - intros H. split; intros c id k Hin; apply H; simpl in *; tauto.
  - intros [H1 H2] c id k [<-|Hin]; [apply H1; now left|now apply H2].
Qed.

Lemma settled_nil s g : settled s g [].
Proof. intros c id k []. Qed.

Lemma sameWorld_refl s : sameWorld s s.
Proof. unfold sameWorld. auto. Qed.

Lemma sameWorld_trans s1 s2 s3 : sameWorld s1 s2 -> sameWorld s2 s3 -> sameWorld s1 s3.
Proof.
  intros (A1 & B1 & C1 & D1) (A2 & B2 & C2 & D2). unfold sameWorld.
  repeat split; try congruence.
Qed.

Lemma settled_sameWorld s s' g configs :
  sameWorld s s' -> settled s g configs -> settled s' g configs.
Proof.
  intros (_ & Hguild & _ & _) H c id k Hin Hkey Hget.
  unfold channelsOf, targetName in *. rewrite Hguild in *. now apply (H c id k).
Qed.

Lemma renamedWithin_refl g ids s : renamedWithin g ids s s.
Proof. unfold renamedWithin. repeat split; auto. Qed.

Lemma renamedWithin_trans g ids1 ids2 s1 s2 s3 :
  renamedWithin g ids1 s1 s2 -> renamedWithin g ids2 s2 s3 ->
  renamedWithin g (ids1 ++ ids2) s1 s3.
Proof.
  intros (A1 & B1 & C1 & D1 & E1 & F1) (A2 & B2 & C2 & D2 & E2 & F2).
  unfold renamedWithin. repeat split; try congruence.
  - intros g' Hne. now rewrite C2, C1.
  - intros H. apply E1. now apply E2.
  - intros H. apply E2. now apply E1.
  - intros id Hnotin. rewrite F2, F1; [reflexivity| |];
      intros Hin; apply Hnotin; apply in_or_app; tauto.
Qed.

Lemma settled_renamedWithin g ids s s' config :
  renamedWithin g ids s s' ->
  (forall id, channelKey config = Some id -> ~ In id ids) ->
  settled s g [config] -> settled s' g [config].
Proof.
  intros (_ & _ & _ & Hmembers & _ & Hframe) Hfresh H c id k [<-|[]] Hkey Hget.
  rewrite (Hframe id (Hfresh id Hkey)) in Hget.
  unfold targetName. rewrite Hmembers. now apply (H config id k (or_introl eq_refl)).
Qed.

Lemma renamedWithin_renameChannel g id newName s :
  renamedWithin g [id] s (renameChannel g id newName s).
Proof.
  unfold renamedWithin, renameChannel. repeat split.
  - intros g' Hne. unfold setChannels. simpl.
    apply String.eqb_neq in Hne. now rewrite Hne.
  - unfold setChannels. simpl. now rewrite String.eqb_refl.
  - rewrite channelsOf_setChannels, String.eqb_refl, get_alter.
    destruct (String.eqb id0 id); [|auto].
    destruct (JSMap.get id0 (channelsOf s g)); [discriminate|auto].
  - rewrite channelsOf_setChannels, String.eqb_refl, get_alter.
    destruct (String.eqb id0 id); [|auto].
    intros ->. reflexivity.
  - intros id' Hnotin.
    rewrite channelsOf_setChannels, String.eqb_refl, get_alter.
    destruct (String.eqb id' id) eqn:E; [|reflexivity].
    apply String.eqb_eq in E. subst. exfalso. apply Hnotin. now left.
Qed.

Lemma renamedWithin_sameWorld g ids s s' :
  sameWorld s s' -> renamedWithin g ids s s'.
Proof.
  intros (A & B & C & D). unfold renamedWithin, channelsOf.
  repeat split; auto; try (rewrite B; auto).
Qed.

Lemma targetName_members s s' g config :
  Guild.members (guild s' g) = Guild.members (guild s g) ->
  targetName s' g config = targetName s g config.
Proof. intros H. unfold targetName. now rewrite H. Qed.

(** What one turn does, read off [afterTurn]. *)
Lemma afterTurn_spec platform g config s :
  exists events,
    history (afterTurn platform g config s) = (history s ++ events)%list
    /\ renamedWithin g (channelKeys [config]) s (afterTurn platform g config s)
    /\ (accepted events -> settled (afterTurn platform g config s) g [config])
    /\ (settled s g [config] ->
        renames events = [] /\ sameWorld s (afterTurn platform g config s))
    /\ (forall id c,
           channelKey config = Some id ->
           JSMap.get id (channelsOf s g) = Some c ->
           accepts platform (history s) (MembersFetch g) = true ->
           renames events
           = match targetName s g config with
             | Normal target =>
                 if String.eqb (Channel.name c) target then []
                 else [(ChannelSetName g id target,
                        accepts platform (history s ++ [(MembersFetch g, true)])
                          (ChannelSetName g id target))]
             | Throw _ => []
             end).
Proof.
  unfold afterTurn.
  destruct (channelKey config) as [id|] eqn:Hkey.
  2:{ exists []. rewrite app_nil_r. split; [reflexivity|].
      split; [apply renamedWithin_refl|]. split.
      - intros _ c id k [<-|[]] Hk. congruence.
      - split; [intros _; split; [reflexivity|apply sameWorld_refl]|].
        intros id c Hk. discriminate. }
  destruct (JSMap.get id (channelsOf s g)) as [c|] eqn:Hget.
  2:{ exists []. rewrite app_nil_r. split; [reflexivity|].
      split; [apply renamedWithin_refl|]. split.
      - intros _ c' id' k [<-|[]] Hk Hget'. congruence.
      - split; [intros _; split; [reflexivity|apply sameWorld_refl]|].
        intros id' c Hk Hget'. congruence. }
  assert (Hkeys : channelKeys [config] = [id]).
  { unfold channelKeys. simpl. now rewrite Hkey. }
  rewrite Hkeys.
  destruct (accepts platform (history s) (MembersFetch g)) eqn:Efetch.
  2:{ exists [(MembersFetch g, false)]. split; [reflexivity|].
      split; [apply renamedWithin_sameWorld; unfold sameWorld; auto|]. split.
      - intros Hacc. inversion Hacc as [|? ? Hbad]. discriminate.
      - split; [intros _; split; [reflexivity|unfold sameWorld; auto]|].
        intros id' c' _ _ Hbad. discriminate. }
  cbv zeta.
  destruct (targetName s g config) as [newName|e] eqn:Etarget.
  2:{ exists [(MembersFetch g, true)]. split; [reflexivity|].
      split; [apply renamedWithin_sameWorld; unfold sameWorld; auto|]. split.
      - intros _ c' id' k [<-|[]] Hk Hget'.
        rewrite (targetName_members s) by reflexivity. now rewrite Etarget.
      - split; [intros _; split; [reflexivity|unfold sameWorld; auto]|].
        reflexivity. }
  destruct (String.eqb (Channel.name c) newName) eqn:Ename.
  { exists [(MembersFetch g, true)]. split; [reflexivity|].
    split; [apply renamedWithin_sameWorld; unfold sameWorld; auto|]. split.
    - intros _ c' id' k [<-|[]] Hk Hget'.
      assert (id' = id) by congruence. subst id'.
      change (channelsOf (addEvent (MembersFetch g, true) s) g) with (channelsOf s g)
        in Hget'.
      assert (k = c) by congruence. subst k.
      rewrite (targetName_members s) by reflexivity. rewrite Etarget.
      now apply String.eqb_eq in Ename.
    - split; [intros _; split; [reflexivity|unfold sameWorld; auto]|].
      intros id' c' Hk Hget' _.
      assert (id' = id) by congruence. subst id'.
      assert (c' = c) by congruence. subst c'.
      now rewrite Ename. }
  change (history (addEvent (MembersFetch g, true) s))
    with (history s ++ [(MembersFetch g, true)])%list.
  assert (Hunsettled : ~ settled s g [config]).
  { intros H. specialize (H config id c (or_introl eq_refl) Hkey Hget).
    rewrite Etarget in H. apply String.eqb_neq in Ename. contradiction. }
  destruct (accepts platform (history s ++ [(MembersFetch g, true)])
              (ChannelSetName g id newName)) eqn:Erename.
  - exists [(MembersFetch g, true); (ChannelSetName g id newName, true)].
    split; [simpl; now rewrite <- app_assoc|].
    split.
    { apply (renamedWithin_trans g [] [id] s
               (addEvent (ChannelSetName g id newName, true)
                  (addEvent (MembersFetch g, true) s))).
      - apply renamedWithin_sameWorld. unfold sameWorld. auto.
      - apply renamedWithin_renameChannel. }
    split.
    + intros _ c' id' k [<-|[]] Hk Hget'.
      assert (id' = id) by congruence. subst id'.
      unfold renameChannel in Hget'.
      rewrite channelsOf_setChannels, String.eqb_refl, get_alter, String.eqb_refl in Hget'.
      change (channelsOf (addEvent _ (addEvent _ s)) g) with (channelsOf s g) in Hget'.
      rewrite Hget in Hget'. simpl in Hget'. injection Hget' as <-.
      rewrite (targetName_members s), Etarget; [reflexivity|].
      unfold renameChannel, setChannels. simpl.
      now rewrite String.eqb_refl.
    + split; [intros H; contradiction|].
      intros id' c' Hk Hget' _.
      assert (id' = id) by congruence. subst id'.
      assert (c' = c) by congruence. subst c'.
      rewrite Ename. simpl. now rewrite Erename.
  - exists [(MembersFetch g, true); (ChannelSetName g id newName, false)].
    split; [simpl; now rewrite <- app_assoc|].
    split; [apply renamedWithin_sameWorld; unfold sameWorld; auto|].
    split.
    + intros Hacc. inversion Hacc as [|? ? _ Hacc']. inversion Hacc' as [|? ? Hbad].
      discriminate.
    + split; [intros H; contradiction|].
      intros id' c' Hk Hget' _.
      assert (id' = id) by congruence. subst id'.
      assert (c' = c) by congruence. subst c'.
      rewrite Ename. simpl. now rewrite Erename.
Qed.

Lemma NoDup_app_disjoint {A : Type} (l1 l2 : list A) :
  NoDup (l1 ++ l2) -> forall a, In a l1 -> ~ In a l2.
Proof.
  induction l1 as [|x l1 IH]; simpl; intros Hnodup a; [tauto|].
  inversion Hnodup as [|? ? Hx Hrest]; subst.
  intros [<-|Hin] Hin2.
  - apply Hx. apply in_or_app. now right.
  - now apply (IH Hrest a).
Qed.

Lemma channelKeys_cons config configs :
  channelKeys (config :: configs) = (channelKeys [config] ++ channelKeys configs)%list.
Proof.
  unfold channelKeys. simpl. now rewrite app_nil_r.
Qed.

Lemma channelKeys_one config id :
  channelKey config = Some id -> In id (channelKeys [config]).
Proof.
  intros H. unfold channelKeys. simpl. rewrite H. now left.
Qed.

(** After a sweep of a guild whose configs have channels of their own, in
    which no call was rejected, every cached channel bears its computed
    name. *)
Lemma afterSweep_settles platform g configs s :
  NoDup (channelKeys configs) ->
  exists events,
    history (afterSweep platform g configs s) = (history s ++ events)%list
    /\ renamedWithin g (channelKeys configs) s (afterSweep platform g configs s)
    /\ (accepted events -> settled (afterSweep platform g configs s) g configs).
Proof.
  revert s. induction configs as [|config configs IH]; intros s Hnodup.
  - exists []. rewrite app_nil_r. split; [reflexivity|].
    split; [apply renamedWithin_refl|]. intros _. apply settled_nil.
  - rewrite channelKeys_cons in *.
    pose proof (NoDup_app_disjoint _ _ Hnodup) as Hfresh.
    apply NoDup_app_remove_l in Hnodup.
    destruct (afterTurn_spec platform g config s) as (ev1 & H1 & W1 & S1 & _).
    destruct (IH (afterTurn platform g config s) Hnodup) as (ev2 & H2 & W2 & S2).
    change (afterSweep platform g (config :: configs) s)
      with (afterSweep platform g configs (afterTurn platform g config s)).
    exists (ev1 ++ ev2)%list. split; [now rewrite H2, H1, app_assoc|].
    split; [now apply (renamedWithin_trans g _ _ _ _ _ W1 W2)|].
    intros Hacc. apply Forall_app in Hacc. destruct Hacc as [Hacc1 Hacc2].
    apply settled_cons. split; [|now apply S2].
    apply (settled_renamedWithin g (channelKeys configs)
             (afterTurn platform g config s)); [exact W2| |now apply S1].
    intros id Hkey. apply Hfresh. now apply channelKeys_one.
Qed.

(** A sweep of a guild whose cached channels bear their computed names
    renames nothing and changes nothing but the log and the history. *)
Lemma afterSweep_quiet platform g configs s :
  settled s g configs ->
  exists events,
    history (afterSweep platform g configs s) = (history s ++ events)%list
    /\ renames events = []
    /\ sameWorld s (afterSweep platform g configs s).
Proof.
  revert s. induction configs as [|config configs IH]; intros s Hsettled.
  - exists []. rewrite app_nil_r. split; [reflexivity|].
    split; [reflexivity|apply sameWorld_refl].
  - apply settled_cons in Hsettled. destruct Hsettled as [Hone Hrest].
    destruct (afterTurn_spec platform g config s) as (ev1 & H1 & _ & _ & Q1 & _).
    destruct (Q1 Hone) as [Hren1 Hworld1].
    destruct (IH (afterTurn platform g config s)
                (settled_sameWorld _ _ g configs Hworld1 Hrest))
      as (ev2 & H2 & Hren2 & Hworld2).
    change (afterSweep platform g (config :: configs) s)
      with (afterSweep platform g configs (afterTurn platform g config s)).
    exists (ev1 ++ ev2)%list. split; [now rewrite H2, H1, app_assoc|].
    split.
    + unfold renames in *. now rewrite filter_app, Hren1, Hren2.
    + now apply (sameWorld_trans _ _ _ Hworld1 Hworld2).
Qed.

Lemma setLog_log s : setLog (log s) s = s.
Proof. now destruct s. Qed.

Lemma updateGuildCounters_run platform g s configs :
  JSMap.get g (counterConfigs s) = Some (JArray configs) ->
  noNull configs ->
  exists l,
    updateGuildCounters platform g s
    = (Normal tt, setLog l (afterSweep platform g configs s)).
Proof.
  intros Hget Hnull.
  destruct (sweep_run platform g (updateGuildTurn platform g) configs s
              (updateGuildTurn_run platform g) Hnull) as [l Hl].
  exists l. unfold updateGuildCounters, bind at 1, gets at 1. rewrite Hget.
  change (JS.truthy (JArray configs)) with true. cbv iota. simpl negb. cbv iota.
  unfold bind at 1, lift at 1.
  change (JS.iterate (JArray configs)) with (Normal configs). cbv iota.
  exact Hl.
Qed.

Lemma afterEntry_setLog platform entry l s :
  afterEntry platform (setLog l s) entry = setLog l (afterEntry platform s entry).
Proof.
  unfold afterEntry. change (guildsCache (setLog l s)) with (guildsCache s).
  destruct (existsb _ _); [|reflexivity].
  destruct (snd entry); try reflexivity. apply afterSweep_setLog.
Qed.

Lemma afterAll_setLog platform entries l s :
  afterAll platform entries (setLog l s) = setLog l (afterAll platform entries s).
Proof.
  unfold afterAll. revert s. induction entries as [|entry entries IH]; intros s; simpl.
  - reflexivity.
  - now rewrite afterEntry_setLog, IH.
Qed.

(** The loop of [updateAllCounters] over entries that are sequences is
    [afterAll] up to the log. *)
Lemma allEntries_run platform entries s :
  sequences entries ->
  configsNotNull entries ->
  exists l,
    forOf entries
      (fun entry =>
         cached <- gets (fun s => existsb (String.eqb (fst entry)) (guildsCache s)) ;;
         if negb cached then ret tt
         else
           items <- lift (JS.iterate (snd entry)) ;;
           forOf items (updateAllTurn platform (fst entry))) s
    = (Normal tt, setLog l (afterAll platform entries s)).
Proof.
  intros Hseq. revert s.
  induction Hseq as [|entry entries Harray _ IH]; intros s Hnull.
  - exists (log s). simpl. unfold ret. now rewrite setLog_log.
  - assert (Hentry : exists l1,
               (cached <- gets (fun s => existsb (String.eqb (fst entry)) (guildsCache s)) ;;
                if negb cached then ret tt
                else
                  items <- lift (JS.iterate (snd entry)) ;;
                  forOf items (updateAllTurn platform (fst entry))) s
               = (Normal tt, setLog l1 (afterEntry platform s entry))).
    { unfold bind at 1, gets at 1, afterEntry.
      destruct (existsb (String.eqb (fst entry)) (guildsCache s)); simpl negb; cbv iota.
      - destruct entry as [g0 [| | | |configs|]]; try discriminate.
        cbn [fst snd]. unfold bind at 1, lift at 1.
        change (JS.iterate (JArray configs)) with (Normal configs). cbv iota.
        apply sweep_run; [apply updateAllTurn_run|].
        apply (Hnull g0 configs). now left.
      - exists (log s). unfold ret. now rewrite setLog_log. }
    destruct Hentry as [l1 H1].
    cbn [forOf]. rewrite (bind_normal _ _ _ _ _ H1).
    destruct (IH (setLog l1 (afterEntry platform s entry))) as [l2 H2].
    { intros g0 configs0 Hin. apply (Hnull g0 configs0). now right. }
    exists l2. rewrite H2. unfold afterAll. cbn [fold_left].
    fold (afterAll platform entries (setLog l1 (afterEntry platform s entry))).
    fold (afterAll platform entries (afterEntry platform s entry)).
    now rewrite afterAll_setLog.
Qed.

Lemma updateAllCounters_run platform s :
  sequences (counterConfigs s) ->
  configsNotNull (counterConfigs s) ->
  exists l,
    updateAllCounters platform s
    = (Normal tt, setLog l (afterAll platform (counterConfigs s) s)).
Proof.
  intros Hseq Hnull.
  destruct (allEntries_run platform (counterConfigs s) s Hseq Hnull) as [l Hl].
  exists l. unfold updateAllCounters, bind at 1, gets at 1. exact Hl.
Qed.

Lemma settled_guild s s' g configs :
  guild s' g = guild s g -> settled s g configs -> settled s' g configs.
Proof.
  intros Hguild H c id k Hin Hkey Hget.
  unfold channelsOf, targetName in *. rewrite Hguild in *. now apply (H c id k).
Qed.

(** After a full sweep in which no call was rejected, over a store whose
    communities are distinct and whose configs have channels of their own,
    every cached channel of every cached guild bears its computed name. *)
Lemma afterAll_settles platform entries s :
  NoDup (JSMap.keys entries) ->
  channelsDistinct entries ->
  exists events,
    history (afterAll platform entries s) = (history s ++ events)%list
    /\ counterConfigs (afterAll platform entries s) = counterConfigs s
    /\ guildsCache (afterAll platform entries s) = guildsCache s
    /\ (forall g, ~ In g (JSMap.keys entries) ->
                  guild (afterAll platform entries s) g = guild s g)
    /\ (accepted events ->
        forall g configs,
          In (g, JArray configs) entries ->
          existsb (String.eqb g) (guildsCache s) = true ->
          settled (afterAll platform entries s) g configs).
Proof.
  revert s. induction entries as [|[g0 v0] entries IH]; intros s Hnodup Hdistinct.
  - exists []. rewrite app_nil_r. repeat split. intros _ g configs [].
  - inversion Hnodup as [|? ? Hfresh Hnodup']; subst.
    assert (Hdistinct' : channelsDistinct entries).
    { intros g configs Hin. apply (Hdistinct g configs). now right. }
    assert (Hentry : exists ev1,
               history (afterEntry platform s (g0, v0)) = (history s ++ ev1)%list
               /\ counterConfigs (afterEntry platform s (g0, v0)) = counterConfigs s
               /\ guildsCache (afterEntry platform s (g0, v0)) = guildsCache s
               /\ (forall g, g <> g0 -> guild (afterEntry platform s (g0, v0)) g = guild s g)
               /\ (accepted ev1 ->
                   forall configs,
                     v0 = JArray configs ->
                     existsb (String.eqb g0) (guildsCache s) = true ->
                     settled (afterEntry platform s (g0, v0)) g0 configs)).
    { unfold afterEntry. simpl fst. simpl snd.
      destruct (existsb (String.eqb g0) (guildsCache s)) eqn:Ecached.
      - destruct v0 as [| | | |configs|];
          try (exists []; rewrite app_nil_r; repeat split; intros; discriminate).
        destruct (afterSweep_settles platform g0 configs s
                    (Hdistinct g0 configs (or_introl eq_refl)))
          as (ev1 & H1 & (A & B & C & _) & S1).
        exists ev1. repeat split; auto.
        intros Hacc configs' [= <-] _. now apply S1.
      - exists []. rewrite app_nil_r. repeat split; intros; discriminate. }
    destruct Hentry as (ev1 & H1 & A1 & B1 & C1 & S1).
    destruct (IH (afterEntry platform s (g0, v0)) Hnodup' Hdistinct')
      as (ev2 & H2 & A2 & B2 & C2 & S2).
    change (afterAll platform ((g0, v0) :: entries) s)
      with (afterAll platform entries (afterEntry platform s (g0, v0))).
    exists (ev1 ++ ev2)%list. split; [now rewrite H2, H1, app_assoc|].
    split; [congruence|]. split; [congruence|]. split.
    + intros g Hnotin. simpl in Hnotin. rewrite C2, C1.
      * reflexivity.
      * intros ->. apply Hnotin. now left.
      * intros Hin. apply Hnotin. now right.
    + intros Hacc g configs Hin Hcached.
      apply Forall_app in Hacc. destruct Hacc as [Hacc1 Hacc2].
      destruct Hin as [Heq|Hin].
      * injection Heq as -> ->.
        apply (settled_guild (afterEntry platform s (g, JArray configs))).
        -- now apply C2.
        -- now apply S1.
      * apply S2; [assumption|assumption|]. now rewrite B1.
Qed.

(** A full sweep over a store whose cached channels all bear their
    computed names renames nothing. *)
Lemma afterAll_quiet platform entries s :
  (forall g configs,
      In (g, JArray configs) entries ->
      existsb (String.eqb g) (guildsCache s) = true ->
      settled s g configs) ->
  exists events,
    history (afterAll platform entries s) = (history s ++ events)%list
    /\ renames events = []
    /\ sameWorld s (afterAll platform entries s).
Proof.
  revert s. induction entries as [|[g0 v0] entries IH]; intros s Hsettled.
  - exists []. rewrite app_nil_r. split; [reflexivity|].
    split; [reflexivity|apply sameWorld_refl].
  - assert (Hentry : exists ev1,
               history (afterEntry platform s (g0, v0)) = (history s ++ ev1)%list
               /\ renames ev1 = []
               /\ sameWorld s (afterEntry platform s (g0, v0))).
    { unfold afterEntry. simpl fst. simpl snd.
      destruct (existsb (String.eqb g0) (guildsCache s)) eqn:Ecached.
      - destruct v0 as [| | | |configs|];
          try (exists []; rewrite app_nil_r; split; [reflexivity|];
               split; [reflexivity|apply sameWorld_refl]).
        apply afterSweep_quiet. apply Hsettled; [now left|exact Ecached].
      - exists []. rewrite app_nil_r. split; [reflexivity|].
        split; [reflexivity|apply sameWorld_refl]. }
    destruct Hentry as (ev1 & H1 & R1 & W1).
    destruct (IH (afterEntry platform s (g0, v0))) as (ev2 & H2 & R2 & W2).
    { intros g configs Hin Hcached.
      apply (settled_sameWorld s _ g configs W1).
      apply Hsettled; [now right|].
      destruct W1 as (_ & _ & Hcache & _). now rewrite <- Hcache. }
    change (afterAll platform ((g0, v0) :: entries) s)
      with (afterAll platform entries (afterEntry platform s (g0, v0))).
    exists (ev1 ++ ev2)%list. split; [now rewrite H2, H1, app_assoc|].
    split.
    + unfold renames in *. now rewrite filter_app, R1, R2.
    + now apply (sameWorld_trans _ _ _ W1 W2).
Qed.

(** ** Rename on change, and nothing to rename the second time *)

Lemma issued_turn platform g config (turn : Async unit) s :
  (exists c l, turn s = (c, setLog l (afterTurn platform g config s))
               /\ (config <> JNull -> c = Normal tt)) ->
  forall id c,
    channelKey config = Some id ->
    JSMap.get id (channelsOf s g) = Some c ->
    accepts platform (history s) (MembersFetch g) = true ->
    renames (issued turn s)
    = match targetName s g config with
      | Normal target =>
          if String.eqb (Channel.name c) target then []
          else [(ChannelSetName g id target,
                 accepts platform (history s ++ [(MembersFetch g, true)])
                   (ChannelSetName g id target))]
      | Throw _ => []
      end.
Proof.
  intros (c0 & l & Hrun & _) id c Hkey Hget Hfetch.
  destruct (afterTurn_spec platform g config s) as (events & Hhist & _ & _ & _ & Hren).
  rewrite (issued_of_history turn s events).
  - now apply Hren.
  - unfold exec. rewrite Hrun. exact Hhist.
Qed.

Lemma no_rename_turn platform g config (turn : Async unit) s :
  (exists c l, turn s = (c, setLog l (afterTurn platform g config s))
               /\ (config <> JNull -> c = Normal tt)) ->
  (forall id c,
      channelKey config = Some id ->
      JSMap.get id (channelsOf s g) = Some c ->
      accepts platform (history s) (MembersFetch g) = false) ->
  renames (issued turn s) = [].
Proof.
  intros (c0 & l & Hrun & _) Hnone.
  assert (Hhist : exists events,
             history (afterTurn platform g config s) = (history s ++ events)%list
             /\ renames events = []).
  { unfold afterTurn.
    destruct (channelKey config) as [id|];
      [|exists []; now rewrite app_nil_r].
    destruct (JSMap.get id (channelsOf s g)) as [c|] eqn:Hget;
      [|exists []; now rewrite app_nil_r].
    rewrite (Hnone id c eq_refl Hget).
    exists [(MembersFetch g, false)]. split; reflexivity. }
  destruct Hhist as (events & Hhist & Hren).
  rewrite (issued_of_history turn s events); [exact Hren|].
  unfold exec. rewrite Hrun. exact Hhist.
Qed.

(** C1, as the code has it.  In either sweep, the turn for a config whose
    channel is cached, once the membership is fetched, issues a rename to
    the computed name ["<Label(kind)>: <count>"] when the name of the
    channel differs from it, and no rename when it does not, nor when the
    computation of the name throws, as it does for a kind that is an
    object with a property [toString]; a turn for a config without a
    cached channel, or whose fetch is rejected, issues no rename.  When no
    two configs of a community share a channel, none is
    [null], and no call of a sweep was rejected, the same sweep run again
    on the state the first one left issues no rename: for the sweep of one
    guild, and for the full sweep over a store of distinct communities
    mapped to sequences. *)
Theorem reconcile_renames_on_change (platform : Platform) :
  (forall g config s,
      (forall id c,
          channelKey config = Some id ->
          JSMap.get id (channelsOf s g) = Some c ->
          accepts platform (history s) (MembersFetch g) = false) ->
      renames (issued (updateAllTurn platform g config) s) = []
      /\ renames (issued (updateGuildTurn platform g config) s) = [])
  /\ (forall g config id c s,
      channelKey config = Some id ->
      JSMap.get id (channelsOf s g) = Some c ->
      accepts platform (history s) (MembersFetch g) = true ->
      let rename :=
        match targetName s g config with
        | Normal target =>
            if String.eqb (Channel.name c) target then []
            else [(ChannelSetName g id target,
                   accepts platform (history s ++ [(MembersFetch g, true)])
                     (ChannelSetName g id target))]
        | Throw _ => []
        end in
      renames (issued (updateAllTurn platform g config) s) = rename
      /\ renames (issued (updateGuildTurn platform g config) s) = rename)
  /\ (forall g configs s,
         JSMap.get g (counterConfigs s) = Some (JArray configs) ->
         noNull configs ->
         NoDup (channelKeys configs) ->
         accepted (issued (updateGuildCounters platform g) s) ->
         renames (issued (updateGuildCounters platform g)
                    (exec (updateGuildCounters platform g) s)) = [])
  /\ (forall s,
         JSMap.wf (counterConfigs s) ->
         sequences (counterConfigs s) ->
         configsNotNull (counterConfigs s) ->
         channelsDistinct (counterConfigs s) ->
         accepted (issued (updateAllCounters platform) s) ->
         renames (issued (updateAllCounters platform)
                    (exec (updateAllCounters platform) s)) = []).
Proof.
  split; [|split; [|split]].
  - intros g config s Hnone. split.
    + apply (no_rename_turn platform g config _ s
               (updateAllTurn_run platform g config s) Hnone).
    + apply (no_rename_turn platform g config _ s
               (updateGuildTurn_run platform g config s) Hnone).
  - intros g config id c s Hkey Hget Hfetch rename. split.
    + apply (issued_turn platform g config _ s (updateAllTurn_run platform g config s)
               id c Hkey Hget Hfetch).
    + apply (issued_turn platform g config _ s (updateGuildTurn_run platform g config s)
               id c Hkey Hget Hfetch).
  - intros g configs s Hget Hnull Hnodup Hacc.
    destruct (updateGuildCounters_run platform g s configs Hget Hnull) as [l1 Hrun1].
    destruct (afterSweep_settles platform g configs s Hnodup)
      as (ev1 & Hhist1 & (Hstore1 & _) & Hsettle).
    rewrite (issued_of_history _ s ev1) in Hacc
      by (unfold exec; rewrite Hrun1; exact Hhist1).
    unfold exec at 1. rewrite Hrun1. cbn [snd].
    set (s1 := setLog l1 (afterSweep platform g configs s)).
    assert (Hsettled1 : settled s1 g configs).
    { apply (settled_sameWorld (afterSweep platform g configs s)).
      - unfold sameWorld, s1. auto.
      - now apply Hsettle. }
    assert (Hget1 : JSMap.get g (counterConfigs s1) = Some (JArray configs)).
    { unfold s1. cbn [counterConfigs setLog]. now rewrite Hstore1. }
    destruct (updateGuildCounters_run platform g s1 configs Hget1 Hnull) as [l2 Hrun2].
    destruct (afterSweep_quiet platform g configs s1 Hsettled1) as (ev2 & Hhist2 & Hren2 & _).
    rewrite (issued_of_history _ s1 ev2); [exact Hren2|].
    unfold exec. rewrite Hrun2. exact Hhist2.
  - intros s Hwf Hseq Hnull Hdistinct Hacc.
    destruct (updateAllCounters_run platform s Hseq Hnull) as [l1 Hrun1].
    destruct (afterAll_settles platform (counterConfigs s) s Hwf Hdistinct)
      as (ev1 & Hhist1 & Hstore1 & Hcache1 & _ & Hsettle).
    rewrite (issued_of_history _ s ev1) in Hacc
      by (unfold exec; rewrite Hrun1; exact Hhist1).
    unfold exec at 1. rewrite Hrun1. cbn [snd].
    set (s1 := setLog l1 (afterAll platform (counterConfigs s) s)).
    assert (Hstore : counterConfigs s1 = counterConfigs s) by exact Hstore1.
    assert (Hseq1 : sequences (counterConfigs s1)) by now rewrite Hstore.
    assert (Hnull1 : configsNotNull (counterConfigs s1)) by now rewrite Hstore.
    destruct (updateAllCounters_run platform s1 Hseq1 Hnull1) as [l2 Hrun2].
    destruct (afterAll_quiet platform (counterConfigs s1) s1) as (ev2 & Hhist2 & Hren2 & _).
    { intros g configs Hin Hcached.
      apply (settled_sameWorld (afterAll platform (counterConfigs s) s)).
      - unfold sameWorld, s1. auto.
      - apply Hsettle; [exact Hacc|now rewrite <- Hstore|].
        rewrite <- Hcache1. exact Hcached. }
    rewrite (issued_of_history _ s1 ev2); [exact Hren2|].
    unfold exec. rewrite Hrun2. exact Hhist2.
Qed.

Lemma reconcile_renames_on_change_witness :
  accepted (issued (updateGuildCounters accepting "g") twoCounters)
  /\ renames (issued (updateGuildCounters accepting "g") twoCounters)
     = [(ChannelSetName "g" "c1" "Total Members: 2", true)]
  /\ renames (issued (updateGuildCounters accepting "g")
                (exec (updateGuildCounters accepting "g") twoCounters)) = [].
Proof.
  assert (Hacc : accepted (issued (updateGuildCounters accepting "g") twoCounters)).
  { repeat constructor. }
  split; [exact Hacc|]. split; [reflexivity|].
  apply (proj1 (proj2 (proj2 (reconcile_renames_on_change accepting))) "g"
           [counterConfig "c1" "members" "k1"; counterConfig "c2" "bots" "k1"]
           twoCounters).
  - reflexivity.
  - unfold noNull. simpl. intuition discriminate.
  - simpl. repeat constructor; simpl; intuition discriminate.
  - exact Hacc.
Defined.

(** Against C1 as it is worded: with an unchanged membership and every
    rename of the first sweep applied, a second sweep can rename again.
    Two configs of different kinds that share a channel each rename it in
    every sweep. *)
Lemma shared_channel_is_renamed_again :
  ~ (forall platform g configs s,
        JSMap.get g (counterConfigs s) = Some (JArray configs) ->
        noNull configs ->
        accepted (issued (updateGuildCounters platform g) s) ->
        renames (issued (updateGuildCounters platform g)
                   (exec (updateGuildCounters platform g) s)) = [])
  /\ ~ (forall platform s,
           JSMap.wf (counterConfigs s) ->
           sequences (counterConfigs s) ->
           configsNotNull (counterConfigs s) ->
           accepted (issued (updateAllCounters platform) s) ->
           renames (issued (updateAllCounters platform)
                      (exec (updateAllCounters platform) s)) = []).
Proof.
  split.
  - intros H.
    specialize (H accepting "g"
                  [counterConfig "c1" "members" "k1"; counterConfig "c1" "bots" "k1"]
                  sharedChannel eq_refl).
    assert (Hnull : noNull [counterConfig "c1" "members" "k1";
                            counterConfig "c1" "bots" "k1"]).
    { unfold noNull. simpl. intuition discriminate. }
    assert (Hacc : accepted (issued (updateGuildCounters accepting "g") sharedChannel))
      by repeat constructor.
    specialize (H Hnull Hacc). vm_compute in H. discriminate.
  - intros H. specialize (H accepting sharedChannel).
    assert (Hwf : JSMap.wf (counterConfigs sharedChannel)).
    { unfold JSMap.wf. simpl. repeat constructor. simpl. tauto. }
    assert (Hseq : sequences (counterConfigs sharedChannel)) by repeat constructor.
    assert (Hnull : configsNotNull (counterConfigs sharedChannel)).
    { intros g configs [[= <- <-]|[]]. unfold noNull. simpl. intuition discriminate. }
    assert (Hacc : accepted (issued (updateAllCounters accepting) sharedChannel))
      by repeat constructor.
    specialize (H Hwf Hseq Hnull Hacc). vm_compute in H. discriminate.
Qed.

(** Kinds that config.json can hold.  An object with a property [toString]
    cannot be converted to a key: the turn ends after the fetch, and
    [updateAllCounters] logs the failure.  A sequence is joined into a key
    that the table does not list.  The name [constructor] reads the function
    that [Object.prototype] holds under it. *)
Example odd_kinds_in_a_sweep :
  let config type :=
    JObject [("channelId", JString "c1"); ("type", type); ("categoryId", JString "k1")] in
  issued (updateGuildTurn accepting "g" (config (JObject [("toString", JNumber 0)])))
    twoCounters
  = [(MembersFetch "g", true)]
  /\ issued (updateGuildTurn accepting "g" (config (JArray [JNull; JNumber 7]))) twoCounters
     = [(MembersFetch "g", true); (ChannelSetName "g" "c1" "undefined: 0", true)]
  /\ issued (updateGuildTurn accepting "g" (config (JString "constructor"))) twoCounters
     = [(MembersFetch "g", true);
        (ChannelSetName "g" "c1" "function Object() { [native code] }: 0", true)]
  /\ log (exec (updateAllTurn accepting "g" (config (JObject [("toString", JNumber 0)])))
            twoCounters)
     = (log twoCounters ++ [("error", "Counter update failed")])%list.
Proof. repeat split. Qed.

(** ** The invariant of the store, and two scenarios *)

Lemma wf_set {V : Type} (k : string) (v : V) (m : JSMap.t V) :
  JSMap.wf m -> JSMap.wf (JSMap.set k v m).
Proof.
  unfold JSMap.wf. induction m as [|[k0 v0] m IH]; simpl; intros Hwf.
  - repeat constructor. simpl. tauto.
  - inversion Hwf as [|? ? Hfresh Hrest]; subst.
    destruct (String.eqb k k0) eqn:E; simpl.
    + now constructor.
    + constructor; [|now apply IH].
      intros Hin. apply keys_set in Hin. destruct Hin as [->|Hin]; [|contradiction].
      now rewrite String.eqb_refl in E.
Qed.

Lemma wf_delete {V : Type} (k : string) (m : JSMap.t V) :
  JSMap.wf m -> JSMap.wf (JSMap.delete k m).
Proof.
  unfold JSMap.wf. induction m as [|[k0 v0] m IH]; simpl; intros Hwf; [constructor|].
  inversion Hwf as [|? ? Hfresh Hrest]; subst.
  destruct (String.eqb k k0); simpl; [now apply IH|].
  constructor; [|now apply IH].
  intros Hin. apply Hfresh. now apply keys_delete in Hin.
Qed.

Lemma mapInvariant_refl s : mapInvariant s s.
Proof. intros H. exact H. Qed.

Lemma mapInvariant_trans s1 s2 s3 :
  mapInvariant s1 s2 -> mapInvariant s2 s3 -> mapInvariant s1 s3.
Proof. unfold mapInvariant. auto. Qed.

Lemma mapInvariant_sameStore {A : Type} (m : Async A) :
  keeps sameStore m -> keeps mapInvariant m.
Proof.
  intros H s Hwf. now rewrite (H s).
Qed.

Ltac map_prim :=
  first [ apply mapInvariant_refl
        | intros ?; unfold mapInvariant; simpl; intros ?;
          first [ assumption
                | apply wf_set; assumption
                | apply wf_delete; assumption
                | constructor ] ].

Ltac keeps_map := keeps_with mapInvariant_refl mapInvariant_trans ltac:(map_prim).

(** Every handler leaves the communities of the store distinct, as the
    [Map] they are kept in does. *)
Lemma handlers_keep_communities_distinct platform :
  keeps mapInvariant loadConfigs
  /\ keeps mapInvariant (saveConfigs platform)
  /\ (forall g manageChannels counterType categoryName,
         keeps mapInvariant
           (handleCounterSetup platform g manageChannels counterType categoryName))
  /\ (forall g administrator,
         keeps mapInvariant (handleCounterReset platform g administrator))
  /\ keeps mapInvariant (updateAllCounters platform)
  /\ (forall g, keeps mapInvariant (updateGuildCounters platform g)).
Proof.
  assert (Hsave : keeps mapInvariant (saveConfigs platform)).
  { unfold saveConfigs, writeFile, logMessage, await. keeps_map. }
  split; [|split; [exact Hsave|split; [|split; [|split]]]].
  - unfold loadConfigs, loadEntry, readFile, logMessage. keeps_map.
    intros s Hwf. unfold exec. destruct (configFile s); exact Hwf.
  - intros g manageChannels counterType categoryName.
    unfold handleCounterSetup, recordCounter, push, logMessage.
    keeps_with mapInvariant_refl mapInvariant_trans
      ltac:(first [ map_prim
                  | exact Hsave
                  | apply mapInvariant_sameStore, provisionCounter_store ]).
  - intros g administrator.
    unfold handleCounterReset, resetOne, categoryStep, deleteChannelIfCached,
      deleteCategoryIfEmpty, countFailure, channelsCacheGet, childrenSize,
      channelDelete, categoryDelete, logMessage.
    keeps_with mapInvariant_refl mapInvariant_trans
      ltac:(first [ map_prim | exact Hsave ]).
  - apply mapInvariant_sameStore, updateAllCounters_store.
  - intros g. apply mapInvariant_sameStore, updateGuildCounters_store.
Qed.

(** When the fetch is accepted, [getCountForType] returns what [evaluate]
    computes on the membership of the guild. *)
Lemma getCountForType_evaluate platform g kind s :
  accepts platform (history s) (MembersFetch g) = true ->
  result (getCountForType platform g (Some (JString kind))) s
  = Normal (evaluate kind (Guild.members (guild s g))).
Proof.
  intros Hfetch. unfold result, getCountForType, await, gets, ret, bind.
  now rewrite Hfetch.
Qed.

(** A [members] counter that reads 10 in a guild of 12 members is renamed
    to "Total Members: 12". *)
Example stale_counter_is_renamed :
  issued (updateGuildCounters accepting "g") staleCounter
  = [(MembersFetch "g", true); (ChannelSetName "g" "c1" "Total Members: 12", true)]
  /\ JSMap.get "c1" (channelsOf (exec (updateGuildCounters accepting "g") staleCounter) "g")
     = Some (voice "Total Members: 12" None).
Proof. split; reflexivity. Qed.

(** Setting up a [roles] counter in a guild without a "Stats" category
    creates the category, then the channel "Members with Roles: 2", records
    one config and saves it. *)
Example first_setup_creates_category_and_channel :
  let run := handleCounterSetup accepting "g" true "roles" "Stats" in
  result run freshGuild = Normal SetupComplete
  /\ channelsOf (exec run freshGuild) "g"
     = [("channel-0", category "Stats");
        ("channel-2", voice "Members with Roles: 2" (Some "channel-0"))]
  /\ counterConfigs (exec run freshGuild)
     = [("g", JArray [counterConfig "channel-2" "roles" "channel-0"])]
  /\ configFile (exec run freshGuild)
     = Some (Document
               (newShapeDocument (fun _ => "Sample")
                  [("g", JArray [counterConfig "channel-2" "roles" "channel-0"])])).
Proof. repeat split. Qed.

(** * Further properties *)

(** ** The table of counter types and the evaluator *)

Lemma get_COUNTER_TYPES kind :
  JSMap.get kind COUNTER_TYPES = None ->
  String.eqb kind "members" = false /\ String.eqb kind "bots" = false
  /\ String.eqb kind "roles" = false /\ String.eqb kind "online-members" = false
  /\ String.eqb kind "online-bots" = false /\ String.eqb kind "offline-members" = false
  /\ String.eqb kind "offline-bots" = false.
Proof.
  unfold COUNTER_TYPES. cbn [JSMap.get].
  repeat match goal with
         | |- context [String.eqb kind ?k] => destruct (String.eqb kind k); try discriminate
         end.
  intros _. repeat split.
Qed.

Lemma countForType_unlisted members type key :
  JS.toPropertyKey type = Normal key ->
  JSMap.get key COUNTER_TYPES = None ->
  countForType members type = 0%Z.
Proof.
  intros Hkey H. destruct type as [[| | |kind| |]|]; try reflexivity.
  simpl in Hkey. injection Hkey as ->.
  apply get_COUNTER_TYPES in H.
  destruct H as (H1 & H2 & H3 & H4 & H5 & H6 & H7).
  unfold countForType. now rewrite H1, H2, H3, H4, H5, H6, H7.
Qed.

Lemma label_unlisted key :
  JSMap.get key COUNTER_TYPES = None -> ~ In key inheritedNames -> label key = "undefined".
Proof.
  intros H Hfresh. unfold label. rewrite H.
  assert (Hnone : existsb (String.eqb key) inheritedNames = false).
  { destruct (existsb (String.eqb key) inheritedNames) eqn:E; [|reflexivity].
    apply existsb_exists in E. destruct E as (name & Hin & E).
    apply String.eqb_eq in E. now subst name. }
  rewrite Hnone.
  destruct (String.eqb key "__proto__") eqn:E1.
  { apply String.eqb_eq in E1. subst key. exfalso. apply Hfresh. simpl. tauto. }
  destruct (String.eqb key "constructor") eqn:E2; [|reflexivity].
  apply String.eqb_eq in E2. subst key. exfalso. apply Hfresh. simpl. tauto.
Qed.

(** X1.  The keys of [COUNTER_TYPES] are the cases of the [switch] of
    [getCountForType]: a kind that the table does not list counts 0 on every
    membership, and a kind that it lists counts the single member of some
    membership.  For a config whose [type] converts to a key that the table
    does not list and [Object.prototype] does not define, the turn of a
    sweep renames the cached channel to "undefined: 0", unless it bears
    that name.  The names that [Object.prototype] defines are not in the
    table, and their label is not "undefined". *)
Theorem counter_types_match_switch :
  (forall kind snapshot,
      JSMap.get kind COUNTER_TYPES = None -> evaluate kind snapshot = 0%Z)
  /\ (forall kind,
         JSMap.get kind COUNTER_TYPES <> None -> exists m, evaluate kind [m] = 1%Z)
  /\ (forall platform s g config id c key,
         JS.toPropertyKey (typeOf config) = Normal key ->
         JSMap.get key COUNTER_TYPES = None ->
         ~ In key inheritedNames ->
         channelKey config = Some id ->
         JSMap.get id (channelsOf s g) = Some c ->
         accepts platform (history s) (MembersFetch g) = true ->
         Channel.name c <> "undefined: 0" ->
         let rename :=
           [(ChannelSetName g id "undefined: 0",
             accepts platform (history s ++ [(MembersFetch g, true)])
               (ChannelSetName g id "undefined: 0"))] in
         renames (issued (updateGuildTurn platform g config) s) = rename
         /\ renames (issued (updateAllTurn platform g config) s) = rename)
  /\ (forall key,
         In key inheritedNames ->
         JSMap.get key COUNTER_TYPES = None /\ label key <> "undefined").
Proof.
  split; [|split; [|split]].
  - intros kind snapshot H.
    apply (countForType_unlisted snapshot (Some (JString kind)) kind eq_refl H).
  - intros kind. unfold COUNTER_TYPES, evaluate, countForType. cbn [JSMap.get].
    destruct (String.eqb kind "members") eqn:E1;
      [intros _; exists (human None); reflexivity|].
    destruct (String.eqb kind "bots") eqn:E2;
      [intros _; exists (robot None); reflexivity|].
    destruct (String.eqb kind "roles") eqn:E3;
      [intros _; exists (human None); reflexivity|].
    destruct (String.eqb kind "online-members") eqn:E4;
      [intros _; exists (human (Some "idle")); reflexivity|].
    destruct (String.eqb kind "online-bots") eqn:E5;
      [intros _; exists (robot (Some "dnd")); reflexivity|].
    destruct (String.eqb kind "offline-members") eqn:E6;
      [intros _; exists (human (Some "offline")); reflexivity|].
    destruct (String.eqb kind "offline-bots") eqn:E7;
      [intros _; exists (robot None); reflexivity|].
    intros H. now contradiction H.
  - intros platform s g config id c key Hconv H Hfresh Hkey Hget Hfetch Hname rename.
    assert (Htarget : targetName s g config = Normal "undefined: 0").
    { unfold targetName, computeName.
      rewrite Hconv, (countForType_unlisted _ _ _ Hconv H), (label_unlisted _ H Hfresh).
      reflexivity. }
    apply String.eqb_neq in Hname.
    split.
    + rewrite (issued_turn platform g config _ s (updateGuildTurn_run platform g config s)
                 id c Hkey Hget Hfetch).
      now rewrite Htarget, Hname.
    + rewrite (issued_turn platform g config _ s (updateAllTurn_run platform g config s)
                 id c Hkey Hget Hfetch).
      now rewrite Htarget, Hname.
  - intros key Hin. simpl in Hin.
    repeat (destruct Hin as [<-|Hin]; [split; [reflexivity|discriminate]|]).
    destruct Hin.
Qed.

Lemma counter_types_match_switch_witness :
  JSMap.get "boosters" COUNTER_TYPES = None
  /\ evaluate "boosters" [human None; robot None] = 0%Z
  /\ (exists m, evaluate "roles" [m] = 1%Z)
  /\ renames (issued (updateGuildTurn accepting "g" (counterConfig "c1" "boosters" "k1"))
                twoCounters)
     = [(ChannelSetName "g" "c1" "undefined: 0", true)].
Proof.
  split; [reflexivity|]. split; [|split].
  - apply (proj1 counter_types_match_switch "boosters" [human None; robot None]).
    reflexivity.
  - apply (proj1 (proj2 counter_types_match_switch) "roles"). discriminate.
  - refine (proj1 (proj1 (proj2 (proj2 counter_types_match_switch)) accepting twoCounters "g"
                     (counterConfig "c1" "boosters" "k1") "c1"
                     (voice "Total Members: 10" None) "boosters"
                     eq_refl eq_refl _ eq_refl eq_refl eq_refl _)).
    + simpl. intuition discriminate.
    + discriminate.
Defined.

(** X2.  The counts are sums over the members: the count of a membership
    made of two parts is the sum of the counts of the parts, a member who
    joins raises a count by one or leaves it as it is, and the members with
    roles are among the members. *)
Theorem evaluate_additive (kind : string) (a b : list GuildMember) :
  evaluate kind (a ++ b) = (evaluate kind a + evaluate kind b)%Z
  /\ (forall m, evaluate kind (m :: a) = evaluate kind a
                \/ evaluate kind (m :: a) = (evaluate kind a + 1)%Z)
  /\ (evaluate "roles" a <= evaluate "members" a)%Z.
Proof.
  assert (Happ : forall p x y, filterSize p (x ++ y) = (filterSize p x + filterSize p y)%Z).
  { intros p x y. unfold filterSize. rewrite filter_app, length_app. lia. }
  assert (Hcons : forall p m x, filterSize p (m :: x) = filterSize p x
                                \/ filterSize p (m :: x) = (filterSize p x + 1)%Z).
  { intros p m x. unfold filterSize. simpl. destruct (p m); [right|left; reflexivity].
    cbn [List.length]. lia. }
  split; [|split].
  - unfold evaluate, countForType.
    repeat match goal with
           | |- context [if ?c then _ else _] => destruct c; [apply Happ|]
           end.
    reflexivity.
  - intros m. unfold evaluate, countForType.
    repeat match goal with
           | |- context [if ?c then _ else _] => destruct c; [apply Hcons|]
           end.
    now left.
  - unfold evaluate, countForType, filterSize. simpl.
    induction a as [|m a IH]; simpl; [lia|].
    destruct (bot m); simpl; [exact IH|].
    destruct (Nat.ltb 1 (rolesSize m)); cbn [List.length]; lia.
Qed.

Lemma append_cancel_l (a b c : string) : (a ++ b = a ++ c)%string -> b = c.
Proof.
  induction a as [|x a IH]; simpl; [auto|]. intros [= H]. now apply IH.
Qed.

Lemma decimal_inj n m : JS.decimal n = JS.decimal m -> n = m.
Proof.
  assert (Hparse : forall z,
             NilZero.int_of_string (JS.decimal z) = Some (Z.to_int z)).
  { intros z. unfold JS.decimal. apply NilZero.isi.
    - destruct z; simpl; try discriminate.
      intros [= H]. now apply DecimalPos.Unsigned.to_uint_nonnil in H.
    - destruct z; simpl; try discriminate.
      intros [= H]. now apply DecimalPos.Unsigned.to_uint_nonnil in H. }
  intros H. apply DecimalZ.to_int_inj.
  pose proof (Hparse n) as Hn. rewrite H, Hparse in Hn. now injection Hn.
Qed.

(** X3.  The name of a counter channel tells its count: two counts have the
    same name only if they are equal.  So, on a channel that bears the name
    computed for the count [n], the turn of a sweep issues a rename exactly
    when the count is no longer [n].  For a config whose [type] cannot be
    converted to a key, no name is computed, and the turn issues no
    rename. *)
Theorem rename_iff_count_changed (platform : Platform) (g : Snowflake) (config : JSON)
  (id : Snowflake) (c : Channel.t) (n : Z) (s : Bot) :
  channelKey config = Some id ->
  JSMap.get id (channelsOf s g) = Some c ->
  accepts platform (history s) (MembersFetch g) = true ->
  let count := countForType (Guild.members (guild s g)) (typeOf config) in
  (computeName (typeOf config) n = Normal (Channel.name c) ->
   (renames (issued (updateGuildTurn platform g config) s) = [] <-> count = n)
   /\ (renames (issued (updateAllTurn platform g config) s) = [] <-> count = n))
  /\ (forall e,
         JS.toPropertyKey (typeOf config) = Throw e ->
         renames (issued (updateGuildTurn platform g config) s) = []
         /\ renames (issued (updateAllTurn platform g config) s) = []).
Proof.
  intros Hkey Hget Hfetch count.
  pose proof (issued_turn platform g config _ s (updateGuildTurn_run platform g config s)
                id c Hkey Hget Hfetch) as Hguild.
  pose proof (issued_turn platform g config _ s (updateAllTurn_run platform g config s)
                id c Hkey Hget Hfetch) as Hall.
  split.
  - intros Hname. unfold computeName in Hname.
    destruct (JS.toPropertyKey (typeOf config)) as [key|e] eqn:Econv; [|discriminate].
    injection Hname as Hname.
    assert (Htarget : targetName s g config
                      = Normal (label key ++ ": " ++ JS.decimal count)).
    { unfold targetName, computeName. now rewrite Econv. }
    assert (Hsame : String.eqb (Channel.name c) (label key ++ ": " ++ JS.decimal count)
                    = true <-> count = n).
    { rewrite String.eqb_eq, <- Hname. split.
      - intros H. apply append_cancel_l in H. simpl in H. injection H as H.
        apply decimal_inj in H. congruence.
      - now intros ->. }
    rewrite Hguild, Hall, Htarget, <- Hsame.
    destruct (String.eqb (Channel.name c) _);
      repeat split; try reflexivity; discriminate.
  - intros e Econv.
    assert (Htarget : targetName s g config = Throw e).
    { unfold targetName, computeName. now rewrite Econv. }
    now rewrite Hguild, Hall, Htarget.
Qed.

Lemma rename_iff_count_changed_witness :
  renames (issued (updateGuildTurn accepting "g" (counterConfig "c2" "bots" "k1"))
             twoCounters) = []
  <-> countForType (Guild.members (guild twoCounters "g")) (Some (JString "bots")) = 1%Z.
Proof.
  exact (proj1 (proj1 (rename_iff_count_changed accepting "g"
                         (counterConfig "c2" "bots" "k1")
                         "c2" (voice "Total Bots: 1" None) 1 twoCounters
                         eq_refl eq_refl eq_refl) eq_refl)).
Defined.

(** ** Saving and loading, case by case *)

(** X4.  [saveConfigs] completes normally whatever happens to the write.
    It issues one call, the write of the document built from the store, and
    does not touch the store.  An accepted write leaves that document in
    config.json and is logged as a success.  A rejected write is logged as
    an error, and leaves config.json as the failed write left it:
    untouched, or empty or partial, which cannot be parsed, or holding the
    document. *)
Theorem saveConfigs_outcomes (platform : Platform) (s : Bot) :
  let document := serialize (serverName s) (counterConfigs s) in
  let ok := accepts platform (history s) (WriteFile document) in
  let s' := exec (saveConfigs platform) s in
  result (saveConfigs platform) s = Normal tt
  /\ issued (saveConfigs platform) s = [(WriteFile document, ok)]
  /\ counterConfigs s' = counterConfigs s
  /\ (if ok then configFile s' = Some (Document document)
      else configFile s' = configFile s
           \/ configFile s' = Some Unparsable
           \/ configFile s' = Some (Document document))
  /\ log s'
     = (log s ++ [if ok then ("info", "Configurations saved successfully")
                  else ("error", "Failed to save configurations")])%list.
Proof.
  intros document ok s'.
  assert (Hrun := saveConfigs_run platform s). fold document in Hrun. fold ok in Hrun.
  split; [unfold result; rewrite Hrun; now destruct ok|].
  split.
  { apply issued_of_history. unfold exec. rewrite Hrun. now destruct ok. }
  unfold s', exec. rewrite Hrun. destruct ok; repeat split.
  cbn [snd configFile addLog setConfigFile].
  destruct (leftover platform _ _); simpl; auto.
Qed.

Lemma forOf_app {X : Type} (l1 l2 : list X) (body : X -> Async unit) s :
  forOf (l1 ++ l2) body s = (forOf l1 body ;; forOf l2 body) s.
Proof.
  revert s. induction l1 as [|x l1 IH]; intros s; simpl.
  - reflexivity.
  - unfold bind. destruct (body x s) as [[[]|e] s1]; [|reflexivity].
    apply IH.
Qed.

Lemma loadConfigs_result s : result loadConfigs s = Normal tt.
Proof.
  unfold result, loadConfigs, tryCatch, logMessage, modify.
  match goal with
  | |- fst (let (_, _) := ?m s in _) = _ => destruct (m s) as [[[]|e] s1]
  end; reflexivity.
Qed.

Lemma loadEntry_history entry s : history (exec (loadEntry entry) s) = history s.
Proof.
  unfold exec, loadEntry, bind, lift, modify, ret.
  destruct (JS.isArray (snd entry)); [reflexivity|].
  destruct (JS.getProp (snd entry) "configs") as [[c|]|e]; try reflexivity.
  destruct (JS.truthy c); reflexivity.
Qed.

Lemma loadEntries_history entries s :
  history (exec (forOf entries loadEntry) s) = history s.
Proof.
  revert s. induction entries as [|entry entries IH]; intros s; [reflexivity|].
  simpl. unfold exec, bind.
  pose proof (loadEntry_history entry s) as H. unfold exec in H.
  destruct (loadEntry entry s) as [[[]|e] s1]; simpl in *; [|exact H].
  rewrite <- H. apply IH.
Qed.

Lemma loadConfigs_history s : history (exec loadConfigs s) = history s.
Proof.
  unfold exec, loadConfigs, tryCatch, bind at 1, readFile.
  destruct (configFile s) as [data|]; [|reflexivity].
  unfold bind at 1, lift at 1.
  destruct (parse data) as [configData|e]; [|reflexivity].
  unfold bind at 1, lift at 1.
  destruct (JS.getProp configData "counterConfigs") as [[mapping|]|e]; try reflexivity.
  destruct (JS.truthy mapping); [|reflexivity].
  unfold bind at 1, bind at 1, modify at 1.
  pose proof (loadEntries_history (JS.entries mapping)
                (setCounterConfigs (JSMap.empty JSON) s)) as H.
  unfold exec in H.
  destruct (forOf (JS.entries mapping) loadEntry _) as [[[]|e] s1]; simpl in *; exact H.
Qed.

(** X5.  [loadConfigs] completes normally whatever config.json holds, issues
    no call and leaves config.json as it is.  When the file is missing or
    cannot be parsed, the store is kept and a warning is logged; when the
    document has no [counterConfigs], or a falsy one, the store is kept and
    the load is logged as a success. *)
Theorem loadConfigs_outcomes (s : Bot) :
  result loadConfigs s = Normal tt
  /\ issued loadConfigs s = []
  /\ configFile (exec loadConfigs s) = configFile s
  /\ (configFile s = None \/ configFile s = Some Unparsable ->
      exec loadConfigs s
      = addLog ("warn", "No existing configuration file found or failed to load") s)
  /\ (forall configData mapping,
         configFile s = Some (Document configData) ->
         JS.getProp configData "counterConfigs" = Normal mapping ->
         JS.truthy_opt mapping = false ->
         exec loadConfigs s = addLog ("info", "Configurations loaded successfully") s).
Proof.
  split; [apply loadConfigs_result|].
  split; [unfold issued; rewrite loadConfigs_history; apply skipn_all|].
  split; [apply (loadConfigs_file s)|].
  split.
  - intros [H|H]; unfold exec, loadConfigs, tryCatch, bind, readFile, lift, parse,
      logMessage, modify; rewrite H; reflexivity.
  - intros configData mapping Hfile Hmapping Hfalsy.
    unfold exec, loadConfigs, tryCatch, bind, readFile, lift, parse, logMessage, modify.
    rewrite Hfile, Hmapping.
    destruct mapping as [mapping|]; [|reflexivity].
    simpl in Hfalsy. rewrite Hfalsy. reflexivity.
Qed.

Lemma loadConfigs_outcomes_witness :
  let s := sampleBot [] [] [("g", JArray [counterConfig "c1" "members" "k1"])]
             (Some (Document (JObject [("version", JNumber 2)]))) in
  exec loadConfigs s = addLog ("info", "Configurations loaded successfully") s
  /\ counterConfigs (exec loadConfigs s) = [("g", JArray [counterConfig "c1" "members" "k1"])].
Proof.
  intros s.
  assert (H : exec loadConfigs s
              = addLog ("info", "Configurations loaded successfully") s).
  { apply (proj2 (proj2 (proj2 (proj2 (loadConfigs_outcomes s))))
             (JObject [("version", JNumber 2)]) None); reflexivity. }
  split; [exact H|]. rewrite H. reflexivity.
Defined.

(** X6.  When a community of config.json is mapped to [null], [loadConfigs]
    loads the communities that it visits before that one, drops those that
    follow, and ends with its warning: the former store is gone.  The
    communities are visited as [Object.entries] lists them: those whose
    identifier is an array index first, in ascending order, then the others
    in the order of the document. *)
Theorem load_stops_at_null_entry (configData : JSON)
  (mapping before after : list (string * JSON)) (g : string) (s : Bot) :
  configFile s = Some (Document configData) ->
  JS.getProp configData "counterConfigs" = Normal (Some (JObject mapping)) ->
  JSMap.wf mapping ->
  JS.ownOrder mapping = (before ++ (g, JNull) :: after)%list ->
  sequences before ->
  result loadConfigs s = Normal tt
  /\ counterConfigs (exec loadConfigs s) = before
  /\ log (exec loadConfigs s)
     = (log s ++ [("warn", "No existing configuration file found or failed to load")])%list.
Proof.
  intros Hfile Hmapping Hobject Horder Hseq.
  assert (Hwf : JSMap.wf before).
  { apply ownOrder_wf in Hobject. rewrite Horder in Hobject.
    unfold JSMap.wf, JSMap.keys in *. rewrite map_app in Hobject.
    now apply NoDup_app_remove_r in Hobject. }
  split; [apply loadConfigs_result|].
  assert (Hloop : forOf (JS.entries (JObject mapping)) loadEntry
                    (setCounterConfigs (JSMap.empty JSON) s)
                  = (Throw (TypeError "Cannot read properties of null"),
                     setCounterConfigs before s)).
  { cbn [JS.entries]. rewrite Horder, forOf_app.
    assert (Hbefore : forOf before loadEntry (setCounterConfigs (JSMap.empty JSON) s)
                      = (Normal tt, setCounterConfigs before s)).
    { replace before
        with (map (fun entry : string * JSON => (fst entry, snd entry)) before) at 1
        by (rewrite <- (map_id before) at 2; apply map_ext; now intros []).
      rewrite (loadEntries_sequences snd).
      - simpl. unfold JSMap.empty. now rewrite fold_set_self.
      - intros [g0 v0] s0 Hin. apply loadEntry_array.
        unfold sequences in Hseq. rewrite Forall_forall in Hseq. now apply (Hseq (g0, v0)). }
    rewrite (bind_normal _ _ _ _ _ Hbefore). reflexivity. }
  assert (Hrun : loadConfigs s
                 = (Normal tt,
                    addLog ("warn", "No existing configuration file found or failed to load")
                      (setCounterConfigs before s))).
  { unfold loadConfigs, tryCatch, bind at 1, readFile. rewrite Hfile.
    unfold bind at 1, lift at 1. cbn [parse].
    unfold bind at 1, lift at 1. rewrite Hmapping.
    cbn [JS.truthy].
    unfold bind at 1, bind at 1, modify at 1.
    rewrite Hloop. reflexivity. }
  unfold exec. rewrite Hrun. split; reflexivity.
Qed.

Lemma load_stops_at_null_entry_witness :
  let s := sampleBot [] [] [("stale", JArray [])]
             (Some (Document
                      (JObject
                         [("counterConfigs",
                           JObject [("g0", JArray [counterConfig "c0" "bots" "k0"]);
                                    ("g1", JNull);
                                    ("7", JArray [counterConfig "c7" "members" "k7"])])])))
  in
  counterConfigs (exec loadConfigs s)
  = [("7", JArray [counterConfig "c7" "members" "k7"]);
     ("g0", JArray [counterConfig "c0" "bots" "k0"])].
Proof.
  intros s.
  refine (proj1 (proj2
            (load_stops_at_null_entry _ _
               [("7", JArray [counterConfig "c7" "members" "k7"]);
                ("g0", JArray [counterConfig "c0" "bots" "k0"])]
               [] "g1" s eq_refl eq_refl _ eq_refl _))).
  - unfold JSMap.wf. simpl. repeat constructor; simpl; intuition discriminate.
  - repeat constructor.
Defined.







(** ** The process: well-formed stores, and restarts *)




Lemma staysWellFormed_refl s : staysWellFormed s s.
Proof. intros H. exact H. Qed.

Lemma staysWellFormed_trans s1 s2 s3 :
  staysWellFormed s1 s2 -> staysWellFormed s2 s3 -> staysWellFormed s1 s3.
Proof. unfold staysWellFormed. auto. Qed.

Lemma in_set {V : Type} (k : string) (v : V) (m : JSMap.t V) k' v' :
  In (k', v') (JSMap.set k v m) -> (k', v') = (k, v) \/ In (k', v') m.
Proof.
  induction m as [|[k0 v0] m IH]; simpl.
  - intros [H|[]]. left. now symmetry.
  - destruct (String.eqb k k0) eqn:E; simpl.
    + apply String.eqb_eq in E. subst k0. intros [H|H]; [left; now symmetry|auto].
    + intros [H|H]; [auto|]. destruct (IH H); auto.
Qed.

Lemma in_delete {V : Type} (k : string) (m : JSMap.t V) k' v' :
  In (k', v') (JSMap.delete k m) -> In (k', v') m.
Proof.
  induction m as [|[k0 v0] m IH]; simpl; [tauto|].
  destruct (String.eqb k k0); simpl; [auto|]. intros [H|H]; auto.
Qed.

Lemma wellFormedStore_set g configs store :
  wellFormedStore store ->
  wellFormedStore (JSMap.set g (JArray (map configObject configs)) store).
Proof.
  intros [Hwf Hall]. split; [now apply wf_set|].
  intros g' v' Hin. apply in_set in Hin. destruct Hin as [[= -> ->]|Hin]; [eauto|].
  now apply (Hall g').
Qed.

Lemma wellFormedStore_delete g store :
  wellFormedStore store -> wellFormedStore (JSMap.delete g store).
Proof.
  intros [Hwf Hall]. split; [now apply wf_delete|].
  intros g' v' Hin. apply in_delete in Hin. now apply (Hall g').
Qed.

Lemma wellFormedStore_sequences store : wellFormedStore store -> sequences store.
Proof.
  intros [_ Hall]. apply Forall_forall. intros [g v] Hin.
  destruct (Hall g v Hin) as [configs ->]. reflexivity.
Qed.

Lemma wellFormedStore_notNull store : wellFormedStore store -> configsNotNull store.
Proof.
  intros [_ Hall] g configs Hin Hnull.
  destruct (Hall g _ Hin) as [cs [= ->]].
  apply in_map_iff in Hnull. destruct Hnull as (c & Hc & _). discriminate.
Qed.

Lemma frame_staysWellFormed {A : Type} (m : Async A) :
  keeps sameStore m -> keeps sameFile m -> keeps staysWellFormed m.
Proof.
  intros Hstore Hfile s [H1 H2]. unfold wellFormed.
  rewrite (Hstore s), (Hfile s). now split.
Qed.

Lemma saveConfigs_staysWellFormed platform : keeps staysWellFormed (saveConfigs platform).
Proof.
  intros s [Hstore Hfile]. unfold exec. rewrite saveConfigs_run.
  destruct (accepts platform (history s) _); simpl.
  - split; [exact Hstore|]. simpl. eauto.
  - split; [exact Hstore|]. simpl.
    destruct (leftover platform _ _); simpl; [exact Hfile|exact I|eauto].
Qed.

Lemma wellFormedStore_loaded store :
  wellFormedStore store -> wellFormedStore (JS.ownOrder (persisted store)).
Proof.
  intros [Hwf Hall]. split; [now apply ownOrder_wf, persisted_wf|].
  intros g v Hin. apply (proj1 (ownOrder_In _ _)) in Hin.
  apply filter_In in Hin. now apply (Hall g).
Qed.

Lemma loadConfigs_staysWellFormed : keeps staysWellFormed loadConfigs.
Proof.
  intros s [Hstore Hfile]. unfold wellFormed.
  rewrite (loadConfigs_file s).
  split; [|exact Hfile].
  destruct (configFile s) as [[|configData]|] eqn:E.
  - rewrite loadConfigs_store, E. exact Hstore.
  - destruct Hfile as (lookup & store & Hgood & ->).
    rewrite (loadConfigs_serialized lookup store s (proj1 Hgood)
               (wellFormedStore_sequences _ Hgood) E).
    now apply wellFormedStore_loaded.
  - rewrite loadConfigs_store, E. exact Hstore.
Qed.

Lemma push_staysWellFormed g counterChannel counterType category :
  keeps staysWellFormed
    (push g (JObject [("channelId", JString counterChannel);
                      ("type", JString counterType);
                      ("categoryId", JString category)])).
Proof.
  intros s [Hstore Hfile]. unfold exec, push, bind, gets, modify, throw.
  destruct (JSMap.get g (counterConfigs s)) as [v|] eqn:E; [|now split].
  destruct (proj2 Hstore g v (get_In _ _ _ E)) as [configs ->].
  split; [|exact Hfile]. simpl.
  change (JObject [("channelId", JString counterChannel); ("type", JString counterType);
                   ("categoryId", JString category)])
    with (configObject {| channelId := counterChannel; kind := counterType;
                          categoryId := category |}).
  replace (map configObject configs
           ++ [configObject {| channelId := counterChannel; kind := counterType;
                               categoryId := category |}])%list
    with (map configObject
            (configs ++ [{| channelId := counterChannel; kind := counterType;
                            categoryId := category |}]))
    by now rewrite map_app.
  now apply wellFormedStore_set.
Qed.

Ltac wellFormed_prim platform :=
  first [ apply staysWellFormed_refl
        | apply (saveConfigs_staysWellFormed platform)
        | apply push_staysWellFormed
        | apply loadConfigs_staysWellFormed
        | (intros ? [? ?]; split;
           [ first [ assumption
                   | apply (wellFormedStore_set _ []); assumption
                   | apply wellFormedStore_delete; assumption ]
           | assumption ]) ].

(** As [keeps_with], but [prim] is tried before a definition is taken
    apart. *)
Ltac keeps_first Hrefl Htrans prim :=
  repeat first
    [ solve [prim]
    | apply (keeps_ret _ Hrefl)
    | apply (keeps_throw _ Hrefl)
    | apply (keeps_lift _ Hrefl)
    | apply (keeps_gets _ Hrefl)
    | apply (keeps_bind _ Htrans); [|intros]
    | apply (keeps_tryCatch _ Htrans); [|intros]
    | apply (keeps_forOf _ Hrefl Htrans); intros
    | apply (keeps_forOfWith _ Hrefl Htrans); intros
    | match goal with
      | |- keeps _ (match ?x with _ => _ end) => destruct x
      | |- keeps _ (let _ := _ in _) => cbv zeta
      end ].

Ltac keeps_wellFormed platform :=
  keeps_first staysWellFormed_refl staysWellFormed_trans ltac:(wellFormed_prim platform).

Lemma handleCounterSetup_staysWellFormed platform g manageChannels counterType categoryName :
  keeps staysWellFormed
    (handleCounterSetup platform g manageChannels counterType categoryName).
Proof.
  unfold handleCounterSetup, recordCounter, logMessage.
  keeps_first staysWellFormed_refl staysWellFormed_trans
    ltac:(first [ wellFormed_prim platform
                | apply frame_staysWellFormed;
                  [apply provisionCounter_store|apply provisionCounter_file] ]).
Qed.

Lemma handleCounterReset_staysWellFormed platform g administrator :
  keeps staysWellFormed (handleCounterReset platform g administrator).
Proof.
  unfold handleCounterReset, resetOne, categoryStep, deleteChannelIfCached,
    deleteCategoryIfEmpty, countFailure, channelsCacheGet, childrenSize,
    channelDelete, categoryDelete, logMessage, await.
  keeps_wellFormed platform.
Qed.

Lemma renameIfChanged_file platform guildId config updated :
  (forall newName, keeps sameFile (updated newName)) ->
  keeps sameFile (renameIfChanged platform guildId config updated).
Proof.
  intros Hupdated.
  unfold renameIfChanged, channelsCacheGet, getCountForType, setName.
  keeps_with sameFile_refl sameFile_trans
    ltac:(first [reflexivity | apply await_file | apply Hupdated]).
Qed.

Lemma updateAllCounters_file platform : keeps sameFile (updateAllCounters platform).
Proof.
  unfold updateAllCounters, updateAllTurn, logMessage.
  keeps_with sameFile_refl sameFile_trans
    ltac:(first [ reflexivity
                | apply renameIfChanged_file; intros; intros ?; reflexivity ]).
Qed.

Lemma updateGuildCounters_file platform guildId :
  keeps sameFile (updateGuildCounters platform guildId).
Proof.
  unfold updateGuildCounters, updateGuildTurn, consoleError.
  keeps_with sameFile_refl sameFile_trans
    ltac:(first [ reflexivity
                | apply renameIfChanged_file; intros; intros ?; reflexivity ]).
Qed.

Lemma react_staysWellFormed platform stimulus :
  keeps staysWellFormed (react platform stimulus).
Proof.
  assert (Hsetup := handleCounterSetup_staysWellFormed platform).
  assert (Hreset := handleCounterReset_staysWellFormed platform).
  assert (Hall : keeps staysWellFormed (updateAllCounters platform)).
  { apply frame_staysWellFormed;
      [apply updateAllCounters_store|apply updateAllCounters_file]. }
  assert (Hguild : forall g, keeps staysWellFormed (updateGuildCounters platform g)).
  { intros g. apply frame_staysWellFormed;
      [apply updateGuildCounters_store|apply updateGuildCounters_file]. }
  destruct stimulus as [put|interaction|g|g|g|job|message|error];
    unfold react, onReady, registerCommands, consoleLog, consoleError, logMessage,
      onInteractionCreate, onGuildMemberChange, onPresenceUpdate, runJob, onSignal,
      onUnhandledRejection, onUncaughtException.
  - keeps_wellFormed platform.
  - keeps_first staysWellFormed_refl staysWellFormed_trans
      ltac:(first [wellFormed_prim platform | apply Hsetup | apply Hreset]).
  - keeps_wellFormed platform.
  - keeps_wellFormed platform.
  - keeps_wellFormed platform.
  - destruct job;
      keeps_first staysWellFormed_refl staysWellFormed_trans
        ltac:(first [wellFormed_prim platform | apply Hall | apply Hguild]).
  - keeps_wellFormed platform.
  - keeps_wellFormed platform.
Qed.

(** X9.  As long as nobody else writes config.json, every state that the
    process reaches, across stimuli, changes of the world around it and
    restarts, has a well-formed store: distinct communities, each mapped to
    a sequence of counters as [handleCounterSetup] records them, none of
    them [null]; and config.json, if it exists, is a document that
    [saveConfigs] wrote for such a store, or the empty or partial file that
    a failed write left, which cannot be parsed.  A write fails as the
    platform decides, and leaves the file as the platform decides:
    untouched, truncated, or holding the document. *)
Theorem reachable_states_are_well_formed (platform : Platform) (s : Bot) :
  reachable platform s ->
  wellFormed s
  /\ JSMap.wf (counterConfigs s)
  /\ sequences (counterConfigs s)
  /\ configsNotNull (counterConfigs s).
Proof.
  intros Hreach.
  assert (H : wellFormed s).
  { induction Hreach as [s Hstore Hfile|s stimulus _ IH|s s' _ IH Hstore Hfile
                        |s s' _ IH Hstore Hfile].
    - unfold wellFormed. rewrite Hstore, Hfile. split; [|exact I].
      split; [constructor|intros g v []].
    - apply (react_staysWellFormed platform stimulus s IH).
    - unfold wellFormed in *. now rewrite Hstore, Hfile.
    - unfold wellFormed in *. rewrite Hstore, Hfile. split; [|apply IH].
      split; [constructor|intros g v []]. }
  split; [exact H|]. destruct H as [Hstore _].
  split; [apply Hstore|].
  split; [now apply wellFormedStore_sequences|now apply wellFormedStore_notNull].
Qed.

Lemma reachable_states_are_well_formed_witness :
  let interaction :=
    {| Interaction.isChatInputCommand := true;
       Interaction.commandName := "counter-setup";
       Interaction.guildId := "g";
       Interaction.manageChannels := true;
       Interaction.administrator := false;
       Interaction.type := "members";
       Interaction.category := "Stats" |} in
  let s := exec (react accepting (InteractionCreate interaction)) freshGuild in
  counterConfigs s = [("g", JArray [counterConfig "channel-2" "members" "channel-0"])]
  /\ configsNotNull (counterConfigs s).
Proof.
  intros interaction s. split; [reflexivity|].
  apply (reachable_states_are_well_formed accepting s).
  apply Reaction. apply FirstLaunch; reflexivity.
Defined.

(** ** Teardown: what is counted, and what is spared *)

Lemma channelsCacheGet_other g v s :
  (forall id, v <> Some (JString id)) -> channelsCacheGet g v s = (Normal None, s).
Proof.
  intros H. unfold channelsCacheGet, gets.
  destruct v as [[| | |id| |]|]; try reflexivity. now contradiction (H id).
Qed.

Lemma channelKey_None config :
  config <> JNull -> channelKey config = None ->
  exists v, JS.getProp config "channelId" = Normal v /\ forall id, v <> Some (JString id).
Proof.
  intros Hnull. unfold channelKey.
  destruct (getProp_not_null config "channelId" Hnull) as [v ->].
  intros H. exists v. split; [reflexivity|].
  intros id ->. discriminate.
Qed.

Lemma categoryKey_None config :
  config <> JNull -> categoryKey config = None ->
  exists v, JS.getProp config "categoryId" = Normal v /\ forall id, v <> Some (JString id).
Proof.
  intros Hnull. unfold categoryKey.
  destruct (getProp_not_null config "categoryId" Hnull) as [v ->].
  intros H. exists v. split; [reflexivity|].
  intros id ->. discriminate.
Qed.

Lemma categoryKey_Some config cat :
  categoryKey config = Some cat ->
  JS.getProp config "categoryId" = Normal (Some (JString cat)).
Proof.
  unfold categoryKey.
  destruct (JS.getProp config "categoryId") as [[[| | |id| |]|]|e]; try discriminate.
  now intros [= ->].
Qed.

(** The category half of a turn, for any config other than [null]. *)
Lemma categoryStep_cases platform g config d f s :
  config <> JNull ->
  categoryStep platform g config d f s
  = match categoryKey config with
    | Some cat =>
        match JSMap.get cat (channelsOf s g) with
        | None => (Normal (d, f), s)
        | Some k =>
            if isCategory k then
              if Nat.eqb (List.length (filter (hasParent cat) (channelsOf s g))) 0 then
                if accepts platform (history s) (CategoryDelete g cat)
                then (Normal (d, f),
                      removeChannel g cat (addEvent (CategoryDelete g cat, true) s))
                else (Normal (d, S f),
                      failureLogged (addEvent (CategoryDelete g cat, false) s))
              else (Normal (d, f), s)
            else (Normal (d, S f), failureLogged s)
        end
    | None => (Normal (d, f), s)
    end.
Proof.
  intros Hnull. destruct (categoryKey config) as [cat|] eqn:Hkey.
  - apply categoryStep_run. now apply categoryKey_Some.
  - destruct (categoryKey_None config Hnull Hkey) as (v & Hv & Hother).
    unfold categoryStep, deleteCategoryIfEmpty, tryCatch, bind at 1, bind at 1, lift at 1.
    rewrite Hv. unfold bind at 1. rewrite (channelsCacheGet_other g v s Hother).
    reflexivity.
Qed.

(** A whole turn, for any config other than [null]. *)
Lemma resetOne_cases platform g config d f s :
  config <> JNull ->
  resetOne platform g (d, f) config s
  = match channelKey config with
    | Some ch =>
        match JSMap.get ch (channelsOf s g) with
        | Some _ =>
            if accepts platform (history s) (ChannelDelete g ch)
            then categoryStep platform g config (S d) f
                   (removeChannel g ch (addEvent (ChannelDelete g ch, true) s))
            else (Normal (d, S f), failureLogged (addEvent (ChannelDelete g ch, false) s))
        | None => categoryStep platform g config d f s
        end
    | None => categoryStep platform g config d f s
    end.
Proof.
  intros Hnull. destruct (channelKey config) as [ch|] eqn:Hkey.
  - apply resetOne_run. now apply (channelKey_props config ch).
  - destruct (channelKey_None config Hnull Hkey) as (v & Hv & Hother).
    unfold resetOne, tryCatch at 1, bind at 1, deleteChannelIfCached, bind at 1, lift at 1.
    rewrite Hv. unfold bind at 1. rewrite (channelsCacheGet_other g v s Hother).
    unfold ret. cbn [fst snd]. cbv beta iota.
    destruct (categoryStep_normal platform g config d f s Hnull) as (c & s' & ->).
    reflexivity.
Qed.

Lemma resetOne_null platform g counters s :
  resetOne platform g counters JNull s
  = (Throw (TypeError "Cannot read properties of null"), s).
Proof. reflexivity. Qed.







(** The first part of C6 needs what it assumes of the cache.  With one
    rejected deletion among three, the reply counts 2 deleted and 2 failed
    when a [categoryId] names a voice channel, whose [children] cannot be
    read; and 1 deleted and 1 failed when a counter channel is an empty
    category that an earlier config names as its category, and that is
    deleted as such before its turn. *)
Example teardown_counts_depend_on_the_cache :
  let members := [human (Some "online"); human None; robot (Some "dnd")] in
  result (handleCounterReset rejectingC2 "g" true)
    (sampleBot
       [("k1", category "Stats"); ("v", voice "Lounge" None);
        ("c1", voice "Total Members: 2" (Some "k1"));
        ("c2", voice "Total Bots: 1" (Some "k1"));
        ("c3", voice "Members with Roles: 2" (Some "k1"))]
       members
       [("g", JArray [counterConfig "c1" "members" "v"; counterConfig "c2" "bots" "k1";
                      counterConfig "c3" "roles" "k1"])] None)
  = Normal (ResetComplete 2 2)
  /\ result (handleCounterReset rejectingC2 "g" true)
       (sampleBot
          [("k1", category "Stats");
           ("c1", voice "Total Members: 2" (Some "k1"));
           ("c2", voice "Total Bots: 1" (Some "k1"));
           ("c3", category "Empty")]
          members
          [("g", JArray [counterConfig "c1" "members" "c3"; counterConfig "c2" "bots" "k1";
                         counterConfig "c3" "roles" "k1"])] None)
     = Normal (ResetComplete 1 1).
Proof. split; reflexivity. Qed.



Lemma occupied_not_empty (channels : JSMap.t Channel.t) x cx cat :
  JSMap.get x channels = Some cx ->
  Channel.parentId cx = Some cat ->
  Nat.eqb (List.length (filter (hasParent cat) channels)) 0 = false.
Proof.
  intros Hget Hparent.
  assert (Hin : In (x, cx) (filter (hasParent cat) channels)).
  { apply filter_In. split; [now apply get_In|].
    unfold hasParent. simpl. rewrite Hparent. apply String.eqb_refl. }
  destruct (filter (hasParent cat) channels); [destruct Hin|reflexivity].
Qed.

Lemma get_removeChannel g id x s :
  x <> id ->
  JSMap.get x (channelsOf (removeChannel g id s) g) = JSMap.get x (channelsOf s g).
Proof.
  intros Hne. now rewrite channelsOf_removeChannel, get_delete_ne.
Qed.

Lemma spares_refl g x cx cat s :
  JSMap.get x (channelsOf s g) = Some cx -> spares g x cx cat s s.
Proof.
  intros Hx. split; [exact Hx|]. split; [reflexivity|].
  exists []. now rewrite app_nil_r.
Qed.

Lemma spares_trans g x cx cat s1 s2 s3 :
  spares g x cx cat s1 s2 -> spares g x cx cat s2 s3 -> spares g x cx cat s1 s3.
Proof.
  intros (_ & Hcat1 & ev1 & Hhist1 & Hall1) (Hx & Hcat2 & ev2 & Hhist2 & Hall2).
  split; [exact Hx|]. split; [now rewrite Hcat2|].
  exists (ev1 ++ ev2)%list. split; [now rewrite Hhist2, Hhist1, app_assoc|].
  apply Forall_app. now split.
Qed.

Lemma spares_call g x cx cat r ok s :
  JSMap.get x (channelsOf s g) = Some cx ->
  r <> CategoryDelete g cat ->
  r <> ChannelDelete g cat ->
  spares g x cx cat s (addEvent (r, ok) s).
Proof.
  intros Hx H1 H2. split; [exact Hx|]. split; [reflexivity|].
  exists [(r, ok)]. split; [reflexivity|]. constructor; [now split|constructor].
Qed.

Lemma spares_removeChannel g x cx cat id s :
  JSMap.get x (channelsOf s g) = Some cx ->
  id <> x ->
  id <> cat ->
  spares g x cx cat s (removeChannel g id s).
Proof.
  intros Hx H1 H2.
  split; [rewrite get_removeChannel by congruence; exact Hx|].
  split; [apply get_removeChannel; congruence|].
  exists []. now rewrite app_nil_r.
Qed.

Lemma spares_log g x cx cat l s :
  JSMap.get x (channelsOf s g) = Some cx -> spares g x cx cat s (addLog l s).
Proof.
  intros Hx. split; [exact Hx|]. split; [reflexivity|].
  exists []. simpl. now rewrite app_nil_r.
Qed.

(** One turn of the teardown, for a category [cat] that holds a channel
    [x]: no config names [x], and none names [cat] as its channel. *)
Lemma resetOne_spares platform g counters config x cx cat s :
  Channel.parentId cx = Some cat ->
  channelKey config <> Some x ->
  categoryKey config <> Some x ->
  channelKey config <> Some cat ->
  JSMap.get x (channelsOf s g) = Some cx ->
  spares g x cx cat s (exec (resetOne platform g counters config) s).
Proof.
  intros Hparent Hchannel Hcategory Hnotcat Hx. destruct counters as [d f].
  assert (Hcases : config = JNull \/ config <> JNull)
    by (destruct config; [now left|right; discriminate..]).
  destruct Hcases as [->|Hnull].
  { unfold exec. rewrite resetOne_null. now apply spares_refl. }
  assert (Hstep : forall d' s0,
             JSMap.get x (channelsOf s0 g) = Some cx ->
             spares g x cx cat s0 (snd (categoryStep platform g config d' f s0))).
  { intros d' s0 Hx0.
    rewrite (categoryStep_cases platform g config d' f s0 Hnull).
    pose proof (spares_refl g x cx cat s0 Hx0) as Hquiet.
    destruct (categoryKey config) as [cat'|] eqn:Hkey; [|exact Hquiet].
    destruct (JSMap.get cat' (channelsOf s0 g)) as [k|] eqn:Hk; [|exact Hquiet].
    destruct (isCategory k); [|exact Hquiet].
    destruct (Nat.eqb (List.length (filter (hasParent cat') (channelsOf s0 g))) 0)
      eqn:Hempty; [|exact Hquiet].
    assert (Hother : cat' <> cat).
    { intros ->. rewrite (occupied_not_empty _ x cx cat Hx0 Hparent) in Hempty.
      discriminate. }
    assert (Hnotx : cat' <> x) by (intros ->; now apply Hcategory).
    assert (Hcall : forall ok,
               spares g x cx cat s0 (addEvent (CategoryDelete g cat', ok) s0)).
    { intros ok. apply spares_call; [exact Hx0|congruence|discriminate]. }
    destruct (accepts platform (history s0) (CategoryDelete g cat')); cbn [snd].
    - apply (spares_trans _ _ _ _ _ _ _ (Hcall true)).
      apply spares_removeChannel; [exact Hx0|exact Hnotx|exact Hother].
    - apply (spares_trans _ _ _ _ _ _ _ (Hcall false)).
      apply spares_log. exact Hx0. }
  unfold exec. rewrite (resetOne_cases platform g config d f s Hnull).
  destruct (channelKey config) as [ch|] eqn:Hch; [|now apply Hstep].
  destruct (JSMap.get ch (channelsOf s g)) as [k|] eqn:Hk; [|now apply Hstep].
  assert (Hnotx : ch <> x) by (intros ->; now apply Hchannel).
  assert (Hother : ch <> cat) by (intros ->; now apply Hnotcat).
  assert (Hcall : forall ok, spares g x cx cat s (addEvent (ChannelDelete g ch, ok) s)).
  { intros ok. apply spares_call; [exact Hx|discriminate|congruence]. }
  destruct (accepts platform (history s) (ChannelDelete g ch)).
  - apply (spares_trans _ _ _ _ _ _ _ (Hcall true)).
    apply (spares_trans _ _ _ _ _
             (removeChannel g ch (addEvent (ChannelDelete g ch, true) s))).
    + apply spares_removeChannel; [exact Hx|exact Hnotx|exact Hother].
    + apply Hstep. rewrite get_removeChannel by congruence. exact Hx.
  - apply (spares_trans _ _ _ _ _ _ _ (Hcall false)).
    apply spares_log. exact Hx.
Qed.

Lemma resetLoop_spares platform g items x cx cat :
  Channel.parentId cx = Some cat ->
  (forall config, In config items ->
     channelKey config <> Some x /\ categoryKey config <> Some x
     /\ channelKey config <> Some cat) ->
  forall counters s,
    JSMap.get x (channelsOf s g) = Some cx ->
    spares g x cx cat s (exec (forOfWith items counters (resetOne platform g)) s).
Proof.
  intros Hparent. induction items as [|config items IH]; intros Hitems counters s Hx.
  - now apply spares_refl.
  - destruct (Hitems config (or_introl eq_refl)) as (Hchannel & Hcategory & Hnotcat).
    pose proof (resetOne_spares platform g counters config x cx cat s
                  Hparent Hchannel Hcategory Hnotcat Hx) as H1.
    unfold exec in *. cbn [forOfWith]. unfold bind.
    destruct (resetOne platform g counters config s) as [[counters1|e] s1];
      cbn [snd] in *; [|exact H1].
    apply (spares_trans _ _ _ _ _ _ _ H1).
    apply (IH (fun c Hin => Hitems c (or_intror Hin)) counters1 s1). apply H1.
Qed.

(** X11.  The teardown spares a category that is still in use.  When the
    cache holds a channel that lies in a category, no config of the
    community names that channel, as its channel or as its category, and
    none names the category as its channel, [handleCounterReset] issues no
    deletion of that category, by [category.delete()] or by
    [channel.delete()], whatever else it deletes and whatever the platform
    rejects; afterwards the channel is still cached, and the cache holds
    under the category what it held. *)
Theorem reset_spares_occupied_category (platform : Platform) (g : Snowflake)
  (administrator : bool) (s : Bot) (items : list JSON) (x cat : Snowflake)
  (cx : Channel.t) :
  JSMap.get g (counterConfigs s) = Some (JArray items) ->
  (forall config, In config items ->
     channelKey config <> Some x /\ categoryKey config <> Some x
     /\ channelKey config <> Some cat) ->
  JSMap.get x (channelsOf s g) = Some cx ->
  Channel.parentId cx = Some cat ->
  let calls := issued (handleCounterReset platform g administrator) s in
  let s' := exec (handleCounterReset platform g administrator) s in
  ~ attempted (CategoryDelete g cat) calls
  /\ ~ attempted (ChannelDelete g cat) calls
  /\ JSMap.get x (channelsOf s' g) = Some cx
  /\ JSMap.get cat (channelsOf s' g) = JSMap.get cat (channelsOf s g).
Proof.
  intros Hget Hitems Hx Hparent calls s'.
  assert (Hgoal : forall r,
             handleCounterReset platform g administrator s = r ->
             spares g x cx cat s (snd r)).
  { pose proof (spares_refl g x cx cat s Hx) as Hquiet.
    intros r Hr. unfold handleCounterReset, tryCatch in Hr.
    destruct administrator; cbn [negb] in Hr.
    2:{ subst r. exact Hquiet. }
    unfold bind at 1, gets at 1 in Hr. rewrite Hget in Hr.
    destruct items as [|config configs].
    { subst r. exact Hquiet. }
    change (noCounters (Some (JArray (config :: configs)))) with false in Hr.
    cbv iota in Hr. unfold bind at 1, lift at 1 in Hr.
    change (JS.iterate (JArray (config :: configs))) with (Normal (config :: configs))
      in Hr.
    cbv iota beta in Hr.
    pose proof (resetLoop_spares platform g (config :: configs) x cx cat Hparent Hitems
                  (0, 0) s Hx) as H1.
    unfold exec in H1. unfold bind at 1 in Hr.
    destruct (forOfWith (config :: configs) (0, 0) (resetOne platform g) s)
      as [[counters|e] s1]; cbn [snd] in H1.
    - assert (Hx1 : JSMap.get x (channelsOf s1 g) = Some cx) by apply H1.
      apply (spares_trans _ _ _ _ _ _ _ H1).
      unfold bind at 1, modify at 1 in Hr. unfold bind at 1 in Hr.
      rewrite saveConfigs_run in Hr.
      match type of Hr with
      | context [if ?c then _ else _] => destruct c
      end; subst r; unfold bind, logMessage, modify, ret; cbn [snd];
        (split; [exact Hx1|]); (split; [reflexivity|]);
        eexists; (split; [simpl; reflexivity|]);
        (constructor; [simpl; split; discriminate|constructor]).
    - subst r. unfold bind, logMessage, modify, ret. cbn [snd].
      apply (spares_trans _ _ _ _ _ _ _ H1). apply spares_log. apply H1. }
  destruct (Hgoal _ eq_refl) as (Hx' & Hcat & events & Hhist & Hall).
  unfold calls. rewrite (issued_of_history _ s events Hhist).
  rewrite Forall_forall in Hall.
  split; [intros [ok Hin]; now apply (proj1 (Hall _ Hin))|].
  split; [intros [ok Hin]; now apply (proj2 (Hall _ Hin))|].
  split; [exact Hx'|exact Hcat].
Qed.

Lemma reset_spares_occupied_category_witness :
  let s := sampleBot
             [("k1", category "Stats"); ("c1", voice "Total Members: 1" (Some "k1"));
              ("chat", voice "Lounge" (Some "k1"))]
             [human None] [("g", JArray [counterConfig "c1" "members" "k1"])] None in
  issued (handleCounterReset accepting "g" true) s
  = [(ChannelDelete "g" "c1", true);
     (WriteFile (JObject [("counterConfigs", JObject [])]), true)]
  /\ ~ attempted (CategoryDelete "g" "k1") (issued (handleCounterReset accepting "g" true) s).
Proof.
  intros s. split; [reflexivity|].
  refine (proj1 (reset_spares_occupied_category accepting "g" true s
                   [counterConfig "c1" "members" "k1"] "chat" "k1"
                   (voice "Lounge" (Some "k1")) eq_refl _ eq_refl eq_refl)).
  intros config [<-|[]]. repeat split; discriminate.
Defined.



(** ** The sweeps: whom they call, how often, and where they stop *)

Lemma callsAbout_refl g s : callsAbout g s s.
Proof. split; [reflexivity|]. exists []. now rewrite app_nil_r. Qed.

Lemma callsAbout_trans g s1 s2 s3 :
  callsAbout g s1 s2 -> callsAbout g s2 s3 -> callsAbout g s1 s3.
Proof.
  intros [C1 (e1 & H1 & A1)] [C2 (e2 & H2 & A2)]. split; [congruence|].
  exists (e1 ++ e2)%list. split; [now rewrite H2, H1, app_assoc|].
  apply Forall_app. now split.
Qed.

Ltac callsAbout_prim :=
  first [ apply callsAbout_refl
        | (intros ?; split; [reflexivity|]; exists []; split;
           [simpl; now rewrite app_nil_r|constructor])
        | (intros ?; split; [reflexivity|]; eexists [_]; split;
           [reflexivity|repeat constructor]) ].

Lemma renameIfChanged_callsAbout platform g config updated :
  (forall newName, keeps (callsAbout g) (updated newName)) ->
  keeps (callsAbout g) (renameIfChanged platform g config updated).
Proof.
  intros Hupdated.
  unfold renameIfChanged, channelsCacheGet, getCountForType, setName, await.
  keeps_with (callsAbout_refl g) (callsAbout_trans g)
    ltac:(first [callsAbout_prim | apply Hupdated]).
Qed.

Lemma updateAllTurn_callsAbout platform g config :
  keeps (callsAbout g) (updateAllTurn platform g config).
Proof.
  unfold updateAllTurn, logMessage.
  keeps_first (callsAbout_refl g) (callsAbout_trans g)
    ltac:(first [ callsAbout_prim
                | apply renameIfChanged_callsAbout; intros; callsAbout_prim ]).
Qed.

Lemma updateGuildCounters_callsAbout platform g :
  keeps (callsAbout g) (updateGuildCounters platform g).
Proof.
  unfold updateGuildCounters, updateGuildTurn, consoleError.
  keeps_first (callsAbout_refl g) (callsAbout_trans g)
    ltac:(first [ callsAbout_prim
                | apply renameIfChanged_callsAbout; intros; callsAbout_prim ]).
Qed.

(** X13.  A sweep calls the platform for nobody else: every call of the
    sweep of a guild is about that guild, and every call of the full sweep
    is about a community of the store whose guild the client caches.  A
    community whose guild has left the cache costs no call, and keeps its
    configs. *)
Theorem sweeps_call_for_cached_communities (platform : Platform) (s : Bot) :
  (forall g,
      Forall (fun e : Event => guildOf (fst e) = Some g)
        (issued (updateGuildCounters platform g) s))
  /\ Forall (fun e : Event =>
               exists g, guildOf (fst e) = Some g
                         /\ In g (JSMap.keys (counterConfigs s))
                         /\ existsb (String.eqb g) (guildsCache s) = true)
       (issued (updateAllCounters platform) s).
Proof.
  split.
  - intros g. destruct (updateGuildCounters_callsAbout platform g s)
      as [_ (events & Hhist & Hall)].
    now rewrite (issued_of_history _ s events Hhist).
  - set (P := fun e : Event =>
                exists g, guildOf (fst e) = Some g
                          /\ In g (JSMap.keys (counterConfigs s))
                          /\ existsb (String.eqb g) (guildsCache s) = true).
    assert (Hloop : forall entries s0,
               (forall entry, In entry entries ->
                  In (fst entry) (JSMap.keys (counterConfigs s))) ->
               guildsCache s0 = guildsCache s ->
               exists events,
                 history
                   (exec
                      (forOf entries
                         (fun entry =>
                            cached <- gets (fun s =>
                                              existsb (String.eqb (fst entry))
                                                (guildsCache s)) ;;
                            if negb cached then ret tt
                            else
                              items <- lift (JS.iterate (snd entry)) ;;
                              forOf items (updateAllTurn platform (fst entry)))) s0)
                 = (history s0 ++ events)%list
                 /\ Forall P events).
    { induction entries as [|entry entries IH]; intros s0 Hkeys Hcache.
      - exists []. split; [now rewrite app_nil_r|constructor].
      - cbn [forOf]. unfold exec, bind at 1, bind at 1, gets at 1. cbv beta iota.
        destruct (existsb (String.eqb (fst entry)) (guildsCache s0)) eqn:Ecached;
          cbn [negb]; cbv iota.
        + assert (Hturns : keeps (callsAbout (fst entry))
                             (items <- lift (JS.iterate (snd entry)) ;;
                              forOf items (updateAllTurn platform (fst entry)))).
          { keeps_first (callsAbout_refl (fst entry)) (callsAbout_trans (fst entry))
              ltac:(first [callsAbout_prim | apply updateAllTurn_callsAbout]). }
          destruct (Hturns s0) as [Hcache1 (ev1 & Hhist1 & Hall1)].
          unfold exec in Hcache1, Hhist1.
          destruct ((items <- lift (JS.iterate (snd entry)) ;;
                     forOf items (updateAllTurn platform (fst entry))) s0)
            as [[[]|e] s1]; cbn [snd] in *.
          * destruct (IH s1 (fun e Hin => Hkeys e (or_intror Hin)))
              as (ev2 & Hhist2 & Hall2); [congruence|].
            exists (ev1 ++ ev2)%list. unfold exec in Hhist2.
            split; [now rewrite Hhist2, Hhist1, app_assoc|].
            apply Forall_app. split; [|exact Hall2].
            apply Forall_forall. intros e Hin. rewrite Forall_forall in Hall1.
            exists (fst entry). split; [now apply Hall1|].
            split; [apply Hkeys; now left|]. now rewrite <- Hcache.
          * exists ev1. split; [exact Hhist1|].
            apply Forall_forall. intros e' Hin. rewrite Forall_forall in Hall1.
            exists (fst entry). split; [now apply Hall1|].
            split; [apply Hkeys; now left|]. now rewrite <- Hcache.
        + unfold ret. cbv beta iota.
          apply (IH s0 (fun e Hin => Hkeys e (or_intror Hin)) Hcache). }
    destruct (Hloop (counterConfigs s) s) as (events & Hhist & Hall).
    + intros entry Hin. unfold JSMap.keys. now apply in_map.
    + reflexivity.
    + rewrite (issued_of_history _ s events); [exact Hall|].
      unfold exec, updateAllCounters, bind at 1, gets at 1. exact Hhist.
Qed.

Lemma afterTurn_fetches platform g config s :
  exists events,
    history (afterTurn platform g config s) = (history s ++ events)%list
    /\ List.length (filter isFetch events) = List.length (cachedCounters s g [config])
    /\ List.length (renames events) <= List.length (cachedCounters s g [config]).
Proof.
  unfold afterTurn, cachedCounters, JSMap.has. cbn [filter].
  destruct (channelKey config) as [id|];
    [|exists []; rewrite app_nil_r; repeat split; simpl; lia].
  destruct (JSMap.get id (channelsOf s g)) as [c|];
    [|exists []; rewrite app_nil_r; repeat split; simpl; lia].
  destruct (accepts platform (history s) (MembersFetch g));
    [|exists [(MembersFetch g, false)]; repeat split; simpl; lia].
  cbv zeta.
  destruct (targetName s g config) as [newName|e];
    [|exists [(MembersFetch g, true)]; repeat split; simpl; lia].
  destruct (String.eqb (Channel.name c) newName);
    [exists [(MembersFetch g, true)]; repeat split; simpl; lia|].
  destruct (accepts platform _ (ChannelSetName g id newName)).
  - exists [(MembersFetch g, true); (ChannelSetName g id newName, true)].
    split; [simpl; now rewrite <- app_assoc|]. split; simpl; lia.
  - exists [(MembersFetch g, true); (ChannelSetName g id newName, false)].
    split; [simpl; now rewrite <- app_assoc|]. split; simpl; lia.
Qed.

Lemma cachedCounters_renamedWithin g ids s s' configs :
  renamedWithin g ids s s' -> cachedCounters s' g configs = cachedCounters s g configs.
Proof.
  intros (_ & _ & _ & _ & Hcached & _). unfold cachedCounters.
  apply filter_ext. intros config. destruct (channelKey config) as [id|]; [|reflexivity].
  unfold JSMap.has. specialize (Hcached id).
  destruct (JSMap.get id (channelsOf s' g)), (JSMap.get id (channelsOf s g));
    try reflexivity; exfalso.
  - assert (H : Some t = None) by now apply Hcached. discriminate.
  - assert (H : Some t = None) by now apply Hcached. discriminate.
Qed.

Lemma cachedCounters_cons s g config configs :
  cachedCounters s g (config :: configs)
  = (cachedCounters s g [config] ++ cachedCounters s g configs)%list.
Proof.
  unfold cachedCounters. cbn [filter].
  now destruct (match channelKey config with
                | Some id => JSMap.has id (channelsOf s g)
                | None => false
                end).
Qed.

Lemma afterSweep_fetches platform g configs s :
  exists events,
    history (afterSweep platform g configs s) = (history s ++ events)%list
    /\ List.length (filter isFetch events) = List.length (cachedCounters s g configs)
    /\ List.length (renames events) <= List.length (cachedCounters s g configs).
Proof.
  revert s. induction configs as [|config configs IH]; intros s.
  - exists []. rewrite app_nil_r. repeat split; simpl; lia.
  - destruct (afterTurn_fetches platform g config s) as (ev1 & H1 & F1 & R1).
    destruct (afterTurn_spec platform g config s) as (ev1' & H1' & W1 & _).
    destruct (IH (afterTurn platform g config s)) as (ev2 & H2 & F2 & R2).
    rewrite (cachedCounters_renamedWithin g _ _ _ configs W1) in F2, R2.
    change (afterSweep platform g (config :: configs) s)
      with (afterSweep platform g configs (afterTurn platform g config s)).
    exists (ev1 ++ ev2)%list. split; [now rewrite H2, H1, app_assoc|].
    rewrite cachedCounters_cons. unfold renames in *.
    rewrite !filter_app, !length_app. lia.
Qed.

(** X14.  The sweep of a guild fetches the membership once for every config
    whose channel is cached, not once for the guild, and goes through all of
    them whatever the platform rejects: for a community mapped to a sequence
    without [null], [updateGuildCounters] completes normally, the number of
    fetches it issues is the number of configs with a cached channel, and it
    issues at most that many renames. *)
Theorem sweep_fetches_once_per_counter (platform : Platform) (g : Snowflake)
  (configs : list JSON) (s : Bot) :
  JSMap.get g (counterConfigs s) = Some (JArray configs) ->
  noNull configs ->
  let calls := issued (updateGuildCounters platform g) s in
  result (updateGuildCounters platform g) s = Normal tt
  /\ List.length (filter isFetch calls) = List.length (cachedCounters s g configs)
  /\ List.length (renames calls) <= List.length (cachedCounters s g configs).
Proof.
  intros Hget Hnull calls.
  destruct (updateGuildCounters_run platform g s configs Hget Hnull) as [l Hrun].
  destruct (afterSweep_fetches platform g configs s) as (events & Hhist & Hfetch & Hren).
  split; [unfold result; now rewrite Hrun|].
  unfold calls. rewrite (issued_of_history _ s events); [now split|].
  unfold exec. rewrite Hrun. exact Hhist.
Qed.

Lemma sweep_fetches_once_per_counter_witness :
  List.length (filter isFetch (issued (updateGuildCounters accepting "g") twoCounters)) = 2
  /\ List.length (renames (issued (updateGuildCounters accepting "g") twoCounters)) <= 2.
Proof.
  refine (proj2 (sweep_fetches_once_per_counter accepting "g"
                   [counterConfig "c1" "members" "k1"; counterConfig "c2" "bots" "k1"]
                   twoCounters eq_refl _)).
  unfold noNull. simpl. intuition discriminate.
Defined.





(** ** Provisioning: what a set-up leaves behind *)

Lemma await_accepted platform r s :
  accepts platform (history s) r = true ->
  await platform r s = (Normal tt, addEvent (r, true) s).
Proof. intros H. unfold await. now rewrite H. Qed.

Lemma await_rejected platform r s :
  accepts platform (history s) r = false ->
  await platform r s = (Throw (Rejected r), addEvent (r, false) s).
Proof. intros H. unfold await. now rewrite H. Qed.

Lemma channelsCreate_accepted platform g name type parent s :
  accepts platform (history s) (ChannelCreate g name type parent) = true ->
  channelsCreate platform g name type parent s
  = (Normal (newId platform (history s) (ChannelCreate g name type parent)),
     cacheChannel g (newId platform (history s) (ChannelCreate g name type parent))
       {| Channel.name := name; Channel.type := type; Channel.parentId := parent |}
       (addEvent (ChannelCreate g name type parent, true) s)).
Proof.
  intros H. unfold channelsCreate, bind at 1, gets at 1, bind at 1.
  rewrite (await_accepted _ _ _ H). reflexivity.
Qed.

Lemma getCountForType_accepted platform g type s :
  accepts platform (history s) (MembersFetch g) = true ->
  getCountForType platform g type s
  = (Normal (countForType (Guild.members (guild s g)) type),
     addEvent (MembersFetch g, true) s).
Proof.
  intros H. unfold getCountForType, bind at 1.
  rewrite (await_accepted _ _ _ H). reflexivity.
Qed.

Lemma members_cacheChannel g id c s g' :
  Guild.members (guild (cacheChannel g id c s) g') = Guild.members (guild s g').
Proof.
  unfold cacheChannel, setChannels. simpl.
  destruct (String.eqb g' g) eqn:E; [|reflexivity].
  apply String.eqb_eq in E. now subst.
Qed.

Lemma get_cacheChannel g id c s :
  JSMap.get id (channelsOf (cacheChannel g id c s) g) = Some c.
Proof.
  unfold cacheChannel. rewrite channelsOf_setChannels, String.eqb_refl.
  apply get_set_eq.
Qed.

Lemma set_set {V : Type} (k : string) (v1 v2 : V) (m : JSMap.t V) :
  JSMap.set k v2 (JSMap.set k v1 m) = JSMap.set k v2 m.
Proof.
  induction m as [|[k0 v0] m IH]; simpl.
  - now rewrite String.eqb_refl.
  - destruct (String.eqb k k0) eqn:E; simpl; rewrite E; [reflexivity|now rewrite IH].
Qed.

(** The provisioning half of a set-up, when the platform accepts its
    calls. *)
Lemma provisionCounter_accepted platform g counterType categoryName s :
  (forall h r, provisioning r = true -> accepts platform h r = true) ->
  let found := find (isCategoryNamed categoryName) (channelsOf s g) in
  let category :=
    match found with
    | Some (id, _) => id
    | None => newId platform (history s) (categoryCreation g categoryName)
    end in
  let s1 :=
    match found with
    | Some _ => s
    | None =>
        cacheChannel g category
          {| Channel.name := categoryName; Channel.type := GuildCategory;
             Channel.parentId := None |}
          (addEvent (categoryCreation g categoryName, true) s)
    end in
  let name :=
    channelName (Some (JString counterType))
      (evaluate counterType (Guild.members (guild s g))) in
  let request := ChannelCreate g name GuildVoice (Some category) in
  let s2 := addEvent (MembersFetch g, true) s1 in
  let channel := newId platform (history s2) request in
  provisionCounter platform g counterType categoryName s
  = (Normal (category, channel),
     cacheChannel g channel (voice name (Some category)) (addEvent (request, true) s2)).
Proof.
  intros Haccepts found category s1 name request s2 channel.
  assert (Hstart : forall (k : Snowflake -> Async (Snowflake * Snowflake)),
             (c <- match found with
                   | Some (id, _) => ret id
                   | None => channelsCreate platform g categoryName GuildCategory None
                   end ;; k c) s
             = k category s1).
  { intros k. unfold bind at 1, category, s1.
    destruct found as [[id c]|]; [reflexivity|].
    rewrite channelsCreate_accepted by now apply Haccepts. reflexivity. }
  unfold provisionCounter, bind at 1, gets at 1. fold (channelsOf s g). fold found.
  rewrite Hstart. unfold bind at 1.
  rewrite getCountForType_accepted by now apply Haccepts. fold s2.
  assert (Hmembers : Guild.members (guild s1 g) = Guild.members (guild s g)).
  { unfold s1. destruct found; [reflexivity|]. now rewrite members_cacheChannel. }
  rewrite Hmembers. fold (evaluate counterType (Guild.members (guild s g))). fold name.
  unfold bind at 1. rewrite channelsCreate_accepted by now apply Haccepts.
  reflexivity.
Qed.

(** The recording half of a set-up, on a community that has no entry or is
    mapped to a sequence. *)
Lemma recordCounter_run platform g counterType category channel s :
  match JSMap.get g (counterConfigs s) with
  | Some v => JS.isArray v = true
  | None => True
  end ->
  recordCounter platform g counterType category channel s
  = saveConfigs platform
      (setCounterConfigs
         (JSMap.set g
            (JArray (configsOf s g ++ [counterConfig channel counterType category]))
            (counterConfigs s)) s).
Proof.
  intros Hentry. unfold recordCounter, bind at 1, gets at 1, JSMap.has, configsOf.
  destruct (JSMap.get g (counterConfigs s)) as [v|] eqn:Hget.
  - destruct v; try discriminate. cbn [negb].
    unfold bind at 1, ret at 1. unfold bind at 1, push, bind at 1, gets at 1.
    rewrite Hget. reflexivity.
  - cbn [negb]. unfold bind at 1, modify at 1. unfold bind at 1, push, bind at 1, gets at 1.
    cbn [counterConfigs setCounterConfigs]. rewrite get_set_eq.
    unfold modify. cbn [counterConfigs setCounterConfigs]. rewrite set_set.
    reflexivity.
Qed.

Lemma sameNames_cacheChannel g id c s : sameNames s (cacheChannel g id c s).
Proof. apply sameNames_setChannels. Qed.

Lemma sameNames_addEvent e s : sameNames s (addEvent e s).
Proof. split; [reflexivity|intros; reflexivity]. Qed.

(** The run of a set-up whose calls to the platform are accepted, on a
    community that has no entry or is mapped to a sequence. *)
Lemma handleCounterSetup_accepted platform g counterType categoryName s :
  (forall h r, provisioning r = true -> accepts platform h r = true) ->
  match JSMap.get g (counterConfigs s) with
  | Some v => JS.isArray v = true
  | None => True
  end ->
  let run := handleCounterSetup platform g true counterType categoryName in
  let s' := exec run s in
  let found := find (isCategoryNamed categoryName) (channelsOf s g) in
  let name :=
    channelName (Some (JString counterType))
      (evaluate counterType (Guild.members (guild s g))) in
  exists category channel ok,
    result run s = Normal SetupComplete
    /\ match found with
       | Some (id, _) => category = id
       | None => category = newId platform (history s) (categoryCreation g categoryName)
       end
    /\ counterConfigs s'
       = JSMap.set g
           (JArray (configsOf s g ++ [counterConfig channel counterType category]))
           (counterConfigs s)
    /\ JSMap.get channel (channelsOf s' g) = Some (voice name (Some category))
    /\ issued run s
       = ((match found with
           | Some _ => []
           | None => [(categoryCreation g categoryName, true)]
           end)
          ++ [(MembersFetch g, true);
              (ChannelCreate g name GuildVoice (Some category), true);
              (WriteFile (serialize (serverName s) (counterConfigs s')), ok)])%list
    /\ configFile s'
       = (let document := serialize (serverName s) (counterConfigs s') in
          if ok then Some (Document document)
          else failedWrite document
                 (leftover platform (history s') (WriteFile document)) (configFile s))
    /\ Guild.members (guild s' g) = Guild.members (guild s g).
Proof.
  intros Haccepts Hentry run s' found name.
  pose proof (provisionCounter_accepted platform g counterType categoryName s Haccepts)
    as Hprovision.
  cbv zeta in Hprovision. fold found in Hprovision. fold name in Hprovision.
  set (category := match found with
                   | Some (id, _) => id
                   | None => newId platform (history s) (categoryCreation g categoryName)
                   end) in *.
  set (s1 := match found with
             | Some _ => s
             | None =>
                 cacheChannel g category
                   {| Channel.name := categoryName; Channel.type := GuildCategory;
                      Channel.parentId := None |}
                   (addEvent (categoryCreation g categoryName, true) s)
             end) in *.
  set (request := ChannelCreate g name GuildVoice (Some category)) in *.
  set (s2 := addEvent (MembersFetch g, true) s1) in *.
  set (channel := newId platform (history s2) request) in *.
  set (s3 := cacheChannel g channel (voice name (Some category))
               (addEvent (request, true) s2)) in *.
  assert (Hstore3 : counterConfigs s3 = counterConfigs s).
  { unfold s3, s2, s1. now destruct found. }
  assert (Hfile3 : configFile s3 = configFile s).
  { unfold s3, s2, s1. now destruct found. }
  assert (Hnames3 : sameNames s s3).
  { assert (Hs1 : sameNames s s1).
    { unfold s1. destruct found; [apply sameNames_refl|].
      apply (sameNames_trans _ (addEvent (categoryCreation g categoryName, true) s));
        [apply sameNames_addEvent|apply sameNames_cacheChannel]. }
    apply (sameNames_trans _ s1 _ Hs1).
    apply (sameNames_trans _ (addEvent (request, true) s2));
      [|apply sameNames_cacheChannel].
    apply (sameNames_trans _ s2); apply sameNames_addEvent. }
  assert (Hhistory3 : history s3
                      = (history s
                         ++ (match found with
                             | Some _ => []
                             | None => [(categoryCreation g categoryName, true)]
                             end)
                         ++ [(MembersFetch g, true); (request, true)])%list).
  { unfold s3, s2, s1. destruct found; simpl; now rewrite <- !app_assoc. }
  set (store' := JSMap.set g
                   (JArray (configsOf s g ++ [counterConfig channel counterType category]))
                   (counterConfigs s)).
  set (s4 := setCounterConfigs store' s3).
  set (document := serialize (serverName s) store').
  assert (Hdocument : serialize (serverName s4) (counterConfigs s4) = document).
  { unfold document. apply serialize_ext. intros g'.
    apply (serverName_sameNames s s3 Hnames3). }
  set (ok := accepts platform (history s3) (WriteFile document)).
  assert (Hrecord : recordCounter platform g counterType category channel s3
                    = (Normal tt,
                       addLog (if ok then ("info", "Configurations saved successfully")
                               else ("error", "Failed to save configurations"))
                         (setConfigFile
                            (if ok then Some (Document document)
                             else failedWrite document
                                    (leftover platform
                                       (history s3 ++ [(WriteFile document, false)])
                                       (WriteFile document))
                                    (configFile s))
                            (addEvent (WriteFile document, ok) s4)))).
  { rewrite recordCounter_run by now rewrite Hstore3.
    unfold configsOf. rewrite Hstore3. fold (configsOf s g). fold store'. fold s4.
    rewrite saveConfigs_run, Hdocument.
    change (history s4) with (history s3). change (configFile s4) with (configFile s3).
    rewrite Hfile3. fold ok. now destruct ok. }
  assert (Hrun : run s
                 = (Normal SetupComplete,
                    addLog ("info", "Counter setup completed")
                      (addLog (if ok then ("info", "Configurations saved successfully")
                               else ("error", "Failed to save configurations"))
                         (setConfigFile
                            (if ok then Some (Document document)
                             else failedWrite document
                                    (leftover platform
                                       (history s3 ++ [(WriteFile document, false)])
                                       (WriteFile document))
                                    (configFile s))
                            (addEvent (WriteFile document, ok) s4))))).
  { unfold run, handleCounterSetup, tryCatch. cbn [negb].
    rewrite (bind_normal _ _ _ _ _ Hprovision). cbn [fst snd].
    rewrite (bind_normal _ _ _ _ _ Hrecord). reflexivity. }
  assert (Hstore' : counterConfigs s' = store').
  { unfold s', exec. rewrite Hrun. reflexivity. }
  exists category, channel, ok.
  split; [unfold result; now rewrite Hrun|].
  split; [unfold category; now destruct found as [[id c]|]|].
  split; [exact Hstore'|].
  split.
  { unfold s', exec. rewrite Hrun.
    assert (H : JSMap.get channel (channelsOf s3 g) = Some (voice name (Some category)))
      by apply get_cacheChannel.
    now destruct ok. }
  split.
  { rewrite Hstore'. fold document. apply issued_of_history.
    unfold exec. rewrite Hrun.
    cbn [snd].
    match goal with
    | |- history ?final = _ =>
        assert (H : history final = (history s3 ++ [(WriteFile document, ok)])%list)
          by now destruct ok
    end.
    rewrite H, Hhistory3. fold request. now rewrite <- !app_assoc. }
  split.
  { rewrite Hstore'. fold document. cbv zeta. unfold s', exec. rewrite Hrun.
    cbn [snd configFile addLog setConfigFile history addEvent setCounterConfigs s4].
    now destruct ok. }
  unfold s', exec. rewrite Hrun.
  assert (H : Guild.members (guild s3 g) = Guild.members (guild s g)).
  { unfold s3. rewrite members_cacheChannel.
    change (Guild.members (guild s1 g) = Guild.members (guild s g)).
    unfold s1. destruct found; [reflexivity|]. now rewrite members_cacheChannel. }
  now destruct ok.
Qed.




(** X17.  A set-up that fails does not take back what it created.  When the
    category is created and the fetch of the membership is then rejected,
    the handler replies "Counter Setup Failed" and the new category stays;
    and when every call to the platform is accepted but the community is
    mapped to a value that is not a sequence, as config.json can hold under
    [configs], the handler replies "Counter Setup Failed" after it created
    the channel: the channel exists, no config names it, and nothing is
    written. *)
Theorem setup_failure_leaves_channels (platform : Platform) (g : Snowflake)
  (counterType categoryName : string) (s : Bot) :
  let run := handleCounterSetup platform g true counterType categoryName in
  let s' := exec run s in
  (find (isCategoryNamed categoryName) (channelsOf s g) = None ->
   accepts platform (history s) (categoryCreation g categoryName) = true ->
   accepts platform (history s ++ [(categoryCreation g categoryName, true)])
     (MembersFetch g) = false ->
   result run s = Normal SetupFailed
   /\ issued run s = [(categoryCreation g categoryName, true); (MembersFetch g, false)]
   /\ JSMap.get (newId platform (history s) (categoryCreation g categoryName))
        (channelsOf s' g)
      = Some (category categoryName))
  /\ (forall v,
         (forall h r, provisioning r = true -> accepts platform h r = true) ->
         JSMap.get g (counterConfigs s) = Some v ->
         JS.isArray v = false ->
         exists category channel,
           result run s = Normal SetupFailed
           /\ JSMap.get channel (channelsOf s' g)
              = Some (voice
                        (channelName (Some (JString counterType))
                           (evaluate counterType (Guild.members (guild s g))))
                        (Some category))
           /\ counterConfigs s' = counterConfigs s
           /\ configFile s' = configFile s
           /\ Forall (fun e : Event => provisioning (fst e) = true) (issued run s)).
Proof.
  intros run s'. split.
  - intros Hfound Hcreate Hfetch.
    set (id := newId platform (history s) (categoryCreation g categoryName)).
    set (s1 := cacheChannel g id (category categoryName)
                 (addEvent (categoryCreation g categoryName, true) s)).
    assert (Hprovision : provisionCounter platform g counterType categoryName s
                         = (Throw (Rejected (MembersFetch g)),
                            addEvent (MembersFetch g, false) s1)).
    { unfold provisionCounter, bind at 1, gets at 1. fold (channelsOf s g).
      rewrite Hfound. unfold bind at 1.
      rewrite channelsCreate_accepted by exact Hcreate.
      unfold bind at 1, getCountForType, bind at 1.
      rewrite await_rejected by exact Hfetch. reflexivity. }
    assert (Hrun : run s
                   = (Normal SetupFailed,
                      addLog ("error", "Counter setup failed")
                        (addEvent (MembersFetch g, false) s1))).
    { unfold run, handleCounterSetup, tryCatch. cbn [negb].
      now rewrite (bind_throw _ _ _ _ _ Hprovision). }
    split; [unfold result; now rewrite Hrun|].
    split.
    + apply issued_of_history. unfold exec. rewrite Hrun. simpl.
      now rewrite <- app_assoc.
    + unfold s', exec. rewrite Hrun.
      apply (get_cacheChannel g id (category categoryName)).
  - intros v Haccepts Hget Harray.
    pose proof (provisionCounter_accepted platform g counterType categoryName s Haccepts)
      as Hprovision.
    cbv zeta in Hprovision.
    set (found := find (isCategoryNamed categoryName) (channelsOf s g)) in *.
    set (name := channelName (Some (JString counterType))
                   (evaluate counterType (Guild.members (guild s g)))) in *.
    set (category := match found with
                     | Some (id, _) => id
                     | None => newId platform (history s) (categoryCreation g categoryName)
                     end) in *.
    set (s1 := match found with
               | Some _ => s
               | None =>
                   cacheChannel g category
                     {| Channel.name := categoryName; Channel.type := GuildCategory;
                        Channel.parentId := None |}
                     (addEvent (categoryCreation g categoryName, true) s)
               end) in *.
    set (request := ChannelCreate g name GuildVoice (Some category)) in *.
    set (s2 := addEvent (MembersFetch g, true) s1) in *.
    set (channel := newId platform (history s2) request) in *.
    set (s3 := cacheChannel g channel (voice name (Some category))
                 (addEvent (request, true) s2)) in *.
    assert (Hstore3 : counterConfigs s3 = counterConfigs s).
    { unfold s3, s2, s1. now destruct found. }
    assert (Hfile3 : configFile s3 = configFile s).
    { unfold s3, s2, s1. now destruct found. }
    assert (Hrecord : exists e,
               recordCounter platform g counterType category channel s3 = (Throw e, s3)).
    { unfold recordCounter, bind at 1, gets at 1, JSMap.has. rewrite Hstore3, Hget.
      cbn [negb]. unfold bind at 1, ret at 1. unfold bind at 1, push, bind at 1, gets at 1.
      rewrite Hstore3, Hget. destruct v; try discriminate; eexists; reflexivity. }
    destruct Hrecord as [e Hrecord].
    assert (Hrun : run s
                   = (Normal SetupFailed, addLog ("error", "Counter setup failed") s3)).
    { unfold run, handleCounterSetup, tryCatch. cbn [negb].
      rewrite (bind_normal _ _ _ _ _ Hprovision). cbn [fst snd].
      now rewrite (bind_throw _ _ _ _ _ Hrecord). }
    exists category, channel.
    split; [unfold result; now rewrite Hrun|].
    split; [unfold s', exec; rewrite Hrun; apply (get_cacheChannel g channel)|].
    split; [unfold s', exec; now rewrite Hrun|].
    split; [unfold s', exec; now rewrite Hrun|].
    rewrite (issued_of_history run s
               ((match found with
                 | Some _ => []
                 | None => [(categoryCreation g categoryName, true)]
                 end) ++ [(MembersFetch g, true); (request, true)])%list).
    + apply Forall_app. split; [destruct found; repeat constructor|repeat constructor].
    + unfold exec. rewrite Hrun. unfold s3, s2, s1.
      destruct found; simpl; now rewrite <- !app_assoc.
Qed.

Lemma setup_failure_leaves_channels_witness :
  let platform :=
    {| accepts := fun _ r => match r with MembersFetch _ => false | _ => true end;
       newId := newId accepting;
       leftover := fun _ _ => Truncated |} in
  let s := exec (handleCounterSetup platform "g" true "members" "Stats") freshGuild in
  JSMap.get "channel-0" (channelsOf s "g") = Some (category "Stats")
  /\ counterConfigs s = [].
Proof.
  intros platform s. split; [|reflexivity].
  apply (proj1 (setup_failure_leaves_channels platform "g" "members" "Stats" freshGuild));
    reflexivity.
Defined.

Lemma settled_turn_is_quiet platform g config (turn : Async unit) s :
  (exists c l, turn s = (c, setLog l (afterTurn platform g config s))
               /\ (config <> JNull -> c = Normal tt)) ->
  settled s g [config] ->
  renames (issued turn s) = [].
Proof.
  intros (c & l & Hrun & _) Hsettled.
  destruct (afterTurn_spec platform g config s) as (events & Hhist & _ & _ & Hquiet & _).
  rewrite (issued_of_history turn s events); [now apply Hquiet|].
  unfold exec. rewrite Hrun. exact Hhist.
Qed.

(** X18.  A counter that was just set up needs no rename: right after a
    set-up whose calls were accepted, the new channel bears the name that a
    sweep computes for the new config, and the turn of either sweep for that
    config issues no rename. *)
Theorem new_counter_needs_no_rename (platform : Platform) (g : Snowflake)
  (counterType categoryName : string) (s : Bot) :
  (forall h r, provisioning r = true -> accepts platform h r = true) ->
  match JSMap.get g (counterConfigs s) with
  | Some v => JS.isArray v = true
  | None => True
  end ->
  let s' := exec (handleCounterSetup platform g true counterType categoryName) s in
  exists config,
    configsOf s' g = (configsOf s g ++ [config])%list
    /\ settled s' g [config]
    /\ renames (issued (updateGuildTurn platform g config) s') = []
    /\ renames (issued (updateAllTurn platform g config) s') = [].
Proof.
  intros Haccepts Hentry s'.
  destruct (handleCounterSetup_accepted platform g counterType categoryName s
              Haccepts Hentry)
    as (category & channel & ok & _ & _ & Hstore & Hchannel & _ & _ & Hmembers).
  cbv zeta in Hstore, Hchannel, Hmembers. fold s' in Hstore, Hchannel, Hmembers.
  exists (counterConfig channel counterType category).
  assert (Hsettled : settled s' g [counterConfig channel counterType category]).
  { intros config id c [<-|[]] Hkey Hget.
    injection Hkey as <-. rewrite Hchannel in Hget. injection Hget as <-.
    unfold targetName. rewrite Hmembers. reflexivity. }
  split; [unfold configsOf; now rewrite Hstore, get_set_eq|].
  split; [exact Hsettled|].
  split.
  - apply (settled_turn_is_quiet platform g _ _ s'
             (updateGuildTurn_run platform g _ s') Hsettled).
  - apply (settled_turn_is_quiet platform g _ _ s'
             (updateAllTurn_run platform g _ s') Hsettled).
Qed.

Lemma new_counter_needs_no_rename_witness :
  let s' := exec (handleCounterSetup accepting "g" true "online-bots" "Stats") freshGuild in
  exists config,
    configsOf s' "g" = [config]
    /\ settled s' "g" [config]
    /\ renames (issued (updateGuildTurn accepting "g" config) s') = []
    /\ renames (issued (updateAllTurn accepting "g" config) s') = [].
Proof.
  exact (new_counter_needs_no_rename accepting "g" "online-bots" "Stats" freshGuild
           (fun _ _ _ => eq_refl) I).
Defined.

(** ** What the handlers never do *)

Lemma issuesOnly_refl allowed s : issuesOnly allowed s s.
Proof. exists []. split; [now rewrite app_nil_r|constructor]. Qed.

Lemma issuesOnly_trans allowed s1 s2 s3 :
  issuesOnly allowed s1 s2 -> issuesOnly allowed s2 s3 -> issuesOnly allowed s1 s3.
Proof.
  intros (e1 & H1 & A1) (e2 & H2 & A2). exists (e1 ++ e2)%list.
  split; [now rewrite H2, H1, app_assoc|]. apply Forall_app. now split.
Qed.

Ltac issuesOnly_prim :=
  first [ apply issuesOnly_refl
        | (intros ?; exists []; split; [simpl; now rewrite app_nil_r|constructor])
        | (intros ?; eexists [_]; split; [reflexivity|];
           constructor; [simpl; rewrite ?String.eqb_refl; reflexivity|constructor]) ].

Ltac keeps_issuesOnly allowed :=
  keeps_with (issuesOnly_refl allowed) (issuesOnly_trans allowed) ltac:(issuesOnly_prim).

(** X19.  Every handler keeps to its own calls.  A set-up issues creations
    of channels and fetches of the membership, in its guild, and writes of
    config.json; a teardown issues deletions, in its guild, and writes of
    config.json; a sweep issues fetches and renames: it never creates or
    deletes a channel and never writes config.json. *)
Theorem handlers_keep_to_their_calls (platform : Platform) (s : Bot) :
  (forall g manageChannels counterType categoryName,
      Forall (fun e : Event => setupCall g (fst e) = true)
        (issued (handleCounterSetup platform g manageChannels counterType categoryName) s))
  /\ (forall g administrator,
         Forall (fun e : Event => resetCall g (fst e) = true)
           (issued (handleCounterReset platform g administrator) s))
  /\ Forall (fun e : Event => sweepCall (fst e) = true)
       (issued (updateAllCounters platform) s)
  /\ (forall g,
         Forall (fun e : Event => sweepCall (fst e) = true)
           (issued (updateGuildCounters platform g) s)).
Proof.
  assert (Hissued : forall (A : Type) (m : Async A) allowed,
             keeps (issuesOnly allowed) m ->
             Forall (fun e : Event => allowed (fst e) = true) (issued m s)).
  { intros A m allowed H. destruct (H s) as (events & Hhist & Hall).
    now rewrite (issued_of_history m s events Hhist). }
  split; [|split; [|split]].
  - intros g manageChannels counterType categoryName. apply Hissued.
    unfold handleCounterSetup, provisionCounter, recordCounter, push, saveConfigs,
      writeFile, channelsCreate, getCountForType, logMessage, await.
    keeps_issuesOnly (setupCall g).
  - intros g administrator. apply Hissued.
    unfold handleCounterReset, resetOne, categoryStep, deleteChannelIfCached,
      deleteCategoryIfEmpty, countFailure, channelsCacheGet, childrenSize,
      channelDelete, categoryDelete, saveConfigs, writeFile, logMessage, await.
    keeps_issuesOnly (resetCall g).
  - apply Hissued.
    unfold updateAllCounters, updateAllTurn, renameIfChanged, channelsCacheGet,
      getCountForType, setName, logMessage, await.
    keeps_issuesOnly sweepCall.
  - intros g. apply Hissued.
    unfold updateGuildCounters, updateGuildTurn, renameIfChanged, channelsCacheGet,
      getCountForType, setName, consoleError, await.
    keeps_issuesOnly sweepCall.
Qed.

Lemma sameShape_renameChannel g id newName s :
  sameShape g s (renameChannel g id newName s).
Proof.
  intros id' c c' Hget Hget'. unfold renameChannel in Hget'.
  rewrite channelsOf_setChannels, String.eqb_refl, get_alter, Hget in Hget'.
  destruct (String.eqb id' id); simpl in Hget'; injection Hget' as <-; split; reflexivity.
Qed.

Lemma afterTurn_shape platform g config s : sameShape g s (afterTurn platform g config s).
Proof.
  assert (Hrefl : forall e, sameShape g s (addEvent e s)).
  { intros e id c c' Hget Hget'.
    change (channelsOf (addEvent e s) g) with (channelsOf s g) in Hget'.
    assert (c' = c) by congruence. subst. split; reflexivity. }
  assert (Hself : sameShape g s s).
  { intros id c c' Hget Hget'. assert (c' = c) by congruence. subst. split; reflexivity. }
  unfold afterTurn.
  destruct (channelKey config) as [id|]; [|exact Hself].
  destruct (JSMap.get id (channelsOf s g)) as [c|]; [|exact Hself].
  destruct (accepts platform (history s) (MembersFetch g)); [|apply Hrefl].
  cbv zeta. destruct (targetName s g config) as [newName|e]; [|apply Hrefl].
  destruct (String.eqb (Channel.name c) newName); [apply Hrefl|].
  destruct (accepts platform _ _).
  - intros id' c0 c' Hget Hget'.
    apply (sameShape_renameChannel g id newName
             (addEvent (ChannelSetName g id newName, true)
                (addEvent (MembersFetch g, true) s)) id' c0 c'); assumption.
  - intros id' c0 c' Hget Hget'.
    change (channelsOf (addEvent _ (addEvent _ s)) g) with (channelsOf s g) in Hget'.
    assert (c' = c0) by congruence. subst. split; reflexivity.
Qed.

Lemma afterSweep_frame platform g configs s :
  renamedWithin g (channelKeys configs) s (afterSweep platform g configs s)
  /\ sameShape g s (afterSweep platform g configs s).
Proof.
  revert s. induction configs as [|config configs IH]; intros s.
  - split; [apply renamedWithin_refl|].
    intros id c c' Hget Hget'. simpl in Hget'.
    assert (c' = c) by congruence. subst. split; reflexivity.
  - change (afterSweep platform g (config :: configs) s)
      with (afterSweep platform g configs (afterTurn platform g config s)).
    destruct (afterTurn_spec platform g config s) as (ev & _ & W1 & _).
    pose proof (afterTurn_shape platform g config s) as S1.
    destruct (IH (afterTurn platform g config s)) as [W2 S2].
    split.
    + rewrite channelKeys_cons. apply (renamedWithin_trans g _ _ _ _ _ W1 W2).
    + intros id c c' Hget Hget'.
      destruct (JSMap.get id (channelsOf (afterTurn platform g config s) g)) as [c1|] eqn:E.
      * destruct (S1 id c c1 Hget E) as [T1 P1].
        destruct (S2 id c1 c' E Hget') as [T2 P2].
        split; congruence.
      * destruct W1 as (_ & _ & _ & _ & Hcached & _).
        apply Hcached in E. congruence.
Qed.

(** X20.  The sweep of a guild changes the names of counter channels, and
    nothing else.  For a community mapped to a sequence without [null],
    after [updateGuildCounters] the store, config.json, the other guilds and
    the members are what they were; the cache of the guild holds the same
    channels; a channel that no config names is untouched; and a channel
    that a config names has kept its type and its parent. *)
Theorem sweep_renames_counters_only (platform : Platform) (g : Snowflake)
  (configs : list JSON) (s : Bot) :
  JSMap.get g (counterConfigs s) = Some (JArray configs) ->
  noNull configs ->
  let s' := exec (updateGuildCounters platform g) s in
  renamedWithin g (channelKeys configs) s s'
  /\ sameShape g s s'
  /\ configFile s' = configFile s.
Proof.
  intros Hget Hnull s'.
  destruct (updateGuildCounters_run platform g s configs Hget Hnull) as [l Hrun].
  destruct (afterSweep_frame platform g configs s) as [W S].
  pose proof (updateGuildCounters_file platform g s) as Hfile.
  unfold sameFile in Hfile. unfold s', exec in *. rewrite Hrun in *. cbn [snd] in *.
  split; [|split].
  - replace (channelKeys configs) with (channelKeys configs ++ [])%list
      by apply app_nil_r.
    apply (renamedWithin_trans g _ _ _ _ _ W).
    apply renamedWithin_sameWorld. unfold sameWorld. auto.
  - exact S.
  - exact Hfile.
Qed.

Lemma sweep_renames_counters_only_witness :
  let s := sampleBot [("c1", voice "Total Members: 10" (Some "k1"));
                      ("chat", voice "Total Members: 10" None)]
             [human None] [("g", JArray [counterConfig "c1" "members" "k1"])] None in
  let s' := exec (updateGuildCounters accepting "g") s in
  JSMap.get "c1" (channelsOf s' "g") = Some (voice "Total Members: 1" (Some "k1"))
  /\ JSMap.get "chat" (channelsOf s' "g") = JSMap.get "chat" (channelsOf s "g").
Proof.
  intros s s'. split; [reflexivity|].
  assert (Hnull : noNull [counterConfig "c1" "members" "k1"]).
  { unfold noNull. simpl. intuition discriminate. }
  destruct (sweep_renames_counters_only accepting "g"
              [counterConfig "c1" "members" "k1"] s eq_refl Hnull)
    as [(_ & _ & _ & _ & _ & Hframe) _].
  apply Hframe. simpl. intuition discriminate.
Defined.
